(** * wastebin: the resource-convergence engine

    A shallow embedding of [wastebin.c]: the CPU registries and the CPU
    adjuster ([adjust_cpus]), the memory ledger and its adjuster
    ([adjust_memory]), the rendezvous protocol of [main], the range-list
    parser ([parse_sysfs_cpu_set]), the command-line arguments ([str2ul],
    [scale_ok], [strm2ul]), the inventories ([inventory_cpus],
    [inventory_memory]) and the residency scan ([show_incore_memory]).

    Conventions of the embedding.
    - A C [unsigned] is a [Z] in [[0, 2^32)]; every arithmetic step on it is
      written with its wrap-around ([mod 2^32]). A [long]/[ssize_t] is a [Z].
    - The arrays [char cpus_online[max_cpu_count]] and [cpus_taken] only ever
      hold the values 0 and 1; they are lists of [bool] of length
      [max_cpu_count]. An access outside [[0, max_cpu_count)] is undefined
      behaviour in C and is the outcome [Undefined] here.
    - The operating system is an [environment] of oracles that answer each
      system call from the history of calls made so far; every call the
      program issues is appended to the [trace].
    - [exit] is the outcome [Exit]; the diagnostics written before it are in
      the trace. The [cmdstr] argument (argv[0]) only prefixes messages and
      is left out. *)

From Stdlib Require Import ZArith List Bool Ascii String Lia Sorted.
From stdpp Require Import base list.

Local Open Scope Z_scope.

(** ** Constants of the source and of the platform *)

Definition max_cpu_count : Z := 4096.
Definition UINT_MODULUS : Z := 2 ^ 32.
Definition SIZE_MODULUS : Z := 2 ^ 64.
Definition EXIT_SUCCESS : Z := 0.
Definition EXIT_FAILURE : Z := 1.
Definition EPERM : Z := 1.
Definition EAGAIN : Z := 11.
Definition EEXIST : Z := 17.

(** ** Observable events *)

Inductive stream := Stdout | Stderr.

Inductive message :=
| MsgFailed (msg : string)               (* fail_exit: "%s: failed, %s\n" *)
| MsgPerror (msg : string)               (* perror(msg) *)
| MsgCountMismatch (n_taken expected : Z)(* "%u cpus taken != %u expected" *)
| MsgAdjustCpus (ncpus : Z)              (* "adjust cpus taken to %u" *)
| MsgCpuSet (syscpuset : string) (members : list Z) (* show_cpu_set *)
| MsgMlockCalled (nbytes : Z)            (* "mlock called to lock %lu bytes" *)
| MsgHasLocked (nbytes : Z)              (* "has locked %lu bytes" *)
| MsgNowWasting                          (* show_incore_memory's report *)
| MsgDisabling (cpus membytes : Z)       (* "disabling %ld cpus and ..." *)
| MsgReadDebug (nb errno : Z)            (* perror("debug"); "nb %ld errno %d" *)
| MsgReusing                             (* "reusing existing /tmp/wastebin" *)
| MsgInvalidChars (nxt : Z) (rest : string). (* "invalid chars remaining ..." *)

Inductive event :=
| EvSetCpu (cpu : Z) (online_state : bool)  (* write '0'/'1' to cpu<N>/online *)
| EvMlock (offset len : Z)
| EvMunlock (offset len : Z)
| EvMadviseDontneed (offset len : Z)
| EvMincore                                 (* the residency scan *)
| EvPipeWrite (membytes cpus : Z)           (* client: write(pipefd, &desired) *)
| EvPrint (s : stream) (m : message).

(** ** The operating system as oracles *)

(** What toggling a cpu meets: the control file does not open, or it opens
    and [write] returns [nb] (1 when the digit was written, 0, or -1 on
    error). *)
Inductive toggle_result := ToggleOpenFails | ToggleWrote (nb : Z).

(** [mlock] follows its manual page: 0 on success; on error -1 with the
    cause in [errno]. *)
Inductive mlock_result := MlockOk | MlockError (errno : Z).

Definition mlock_return (r : mlock_result) : Z :=
  match r with MlockOk => 0 | MlockError _ => -1 end.

Record environment := Environment {
  cpu_toggle : list event -> Z -> bool -> toggle_result;
  mlock : list event -> Z -> Z -> mlock_result
}.

(** The environment in which every external operation succeeds. *)
Definition env_ok : environment :=
  {| cpu_toggle := fun _ _ _ => ToggleWrote 1; mlock := fun _ _ _ => MlockOk |}.

Definition all_succeed (env : environment) : Prop :=
  (forall t c b, cpu_toggle env t c b = ToggleWrote 1) /\
  (forall t o l, mlock env t o l = MlockOk).

(** ** Program state *)

Record state := State {
  cpus_online : list bool;
  cpus_taken : list bool;
  wastebin_cpus_taken : Z;
  wastebin_max_size : Z;
  wastebin_memory_taken : Z
}.

Record world := World { regs : state; trace : list event }.

Inductive outcome (A : Type) : Type :=
| Ok (a : A) (w : world)
| Exit (status : Z) (w : world)
| Undefined (w : world)
| OutOfFuel.
Arguments Ok {A} a w.
Arguments Exit {A} status w.
Arguments Undefined {A} w.
Arguments OutOfFuel {A}.

Definition M (A : Type) : Type := world -> outcome A.

Definition ret {A} (a : A) : M A := fun w => Ok a w.

Definition bind {A B} (m : M A) (k : A -> M B) : M B :=
  fun w =>
    match m w with
    | Ok a w' => k a w'
    | Exit status w' => Exit status w'
    | Undefined w' => Undefined w'
    | OutOfFuel => OutOfFuel
    end.

Declare Scope wb_scope.
Delimit Scope wb_scope with wb.
Notation "x <- m ;; k" := (bind m (fun x => k))
  (at level 100, m at next level, right associativity) : wb_scope.
Notation "m ;;; k" := (bind m (fun _ => k))
  (at level 100, right associativity) : wb_scope.
Local Open Scope wb_scope.

Definition get : M state := fun w => Ok (regs w) w.
Definition put (s : state) : M unit := fun w => Ok tt (World s (trace w)).
Definition history : M (list event) := fun w => Ok (trace w) w.
Definition emit (e : event) : M unit :=
  fun w => Ok tt (World (regs w) (trace w ++ [e])).
Definition exit {A} (status : Z) : M A := fun w => Exit status w.
Definition undefined {A} : M A := fun w => Undefined w.
Definition out_of_fuel {A} : M A := fun _ => OutOfFuel.

Definition print (s : stream) (m : message) : M unit := emit (EvPrint s m).

Definition fail_exit {A} (msg : string) : M A :=
  print Stderr (MsgFailed msg) ;;; exit EXIT_FAILURE.

(** ** CPU registries *)

(** [a[i]] for [char a[max_cpu_count]]; [None] is an access out of bounds. *)
Definition array_get (a : list bool) (i : Z) : option bool :=
  if (0 <=? i) && (i <? max_cpu_count) then a !! Z.to_nat i else None.

Definition array_set (a : list bool) (i : Z) (b : bool) : list bool :=
  <[Z.to_nat i := b]> a.

Definition set_online (a : list bool) : M unit :=
  s <- get ;;
  put (State a (cpus_taken s) (wastebin_cpus_taken s)
         (wastebin_max_size s) (wastebin_memory_taken s)).

Definition set_taken (a : list bool) : M unit :=
  s <- get ;;
  put (State (cpus_online s) a (wastebin_cpus_taken s)
         (wastebin_max_size s) (wastebin_memory_taken s)).

Definition set_wastebin_cpus_taken (n : Z) : M unit :=
  s <- get ;;
  put (State (cpus_online s) (cpus_taken s) n
         (wastebin_max_size s) (wastebin_memory_taken s)).

Definition set_wastebin_memory_taken (n : Z) : M unit :=
  s <- get ;;
  put (State (cpus_online s) (cpus_taken s) (wastebin_cpus_taken s)
         (wastebin_max_size s) n).

(** [count_cpu_set]: the sum of the array's entries. At most
    [max_cpu_count] ones are added, so the unsigned sum never wraps. *)
Definition count_cpu_set (cpu_states : list bool) : Z :=
  fold_left (fun count b => count + Z.b2z b) cpu_states 0.

(** The indices [show_cpu_set] prints, in increasing order. *)
Fixpoint members_from (idx : Z) (cpu_states : list bool) : list Z :=
  match cpu_states with
  | [] => []
  | b :: rest =>
      if b then idx :: members_from (idx + 1) rest
      else members_from (idx + 1) rest
  end.

Definition show_cpu_set (syscpuset : string) (cpu_states : list bool) : M unit :=
  print Stdout (MsgCpuSet syscpuset (members_from 0 cpu_states)).

Section WithEnvironment.
Variable env : environment.

(** [set_cpu_online_state]: open the control file and write one digit. A
    file that does not open is fatal, and so is [nb < sizeof(digit)]; [nb]
    is a [size_t], so that test sees the -1 of a failed [write] as a very
    large count. *)
Definition set_cpu_online_state (cpu : Z) (online_state : bool) : M unit :=
  t <- history ;;
  emit (EvSetCpu cpu online_state) ;;;
  match cpu_toggle env t cpu online_state with
  | ToggleOpenFails =>
      print Stderr (MsgPerror "opening cpu online state file") ;;;
      exit EXIT_FAILURE
  | ToggleWrote nb =>
      if nb mod SIZE_MODULUS <? 1 then
        print Stderr (MsgPerror "writing online state") ;;;
        exit EXIT_FAILURE
      else ret tt
  end.

(** ** [adjust_cpus] *)

(** The loops run on fuel; [loop_fuel] is enough for every loop of
    [adjust_cpus] (see [adjust_cpus_fuel_suffices]). *)
Definition loop_fuel : nat := S (Z.to_nat max_cpu_count).

(** [do { last_online -= 1; } while (last_online >= 0 &&
    !cpus_online[last_online]);] The variable is unsigned: the decrement
    wraps and [last_online >= 0] is always true. Returns the index at which
    the scan stops. *)
Fixpoint scan_down (fuel : nat) (last_online : Z) : M Z :=
  match fuel with
  | O => out_of_fuel
  | S fuel' =>
      let last_online := (last_online - 1) mod UINT_MODULUS in
      s <- get ;;
      match array_get (cpus_online s) last_online with
      | None => undefined
      | Some true => ret last_online
      | Some false => scan_down fuel' last_online
      end
  end.

(** The body of the first loop after its scan:
    [cpus_online[last_online] = 0; cpus_taken[last_online] = 1;
     set_cpu_online_state(last_online, 0);] *)
Definition take_cpu (last_online : Z) : M unit :=
  s <- get ;;
  set_online (array_set (cpus_online s) last_online false) ;;;
  s <- get ;;
  set_taken (array_set (cpus_taken s) last_online true) ;;;
  set_cpu_online_state last_online false.

(** [for (; n_taken < ncpus; n_taken++) { ... }] *)
Fixpoint take_loop (fuel : nat) (ncpus n_taken last_online : Z) : M Z :=
  match fuel with
  | O => out_of_fuel
  | S fuel' =>
      if n_taken <? ncpus then
        last_online <- scan_down loop_fuel last_online ;;
        (if last_online =? 0 then fail_exit "can't exhaust online cpus"
         else ret tt) ;;;
        take_cpu last_online ;;;
        take_loop fuel' ncpus ((n_taken + 1) mod UINT_MODULUS) last_online
      else ret n_taken
  end.

(** [while (!cpus_taken[first_taken]) first_taken += 1;] *)
Fixpoint scan_up (fuel : nat) (first_taken : Z) : M Z :=
  match fuel with
  | O => out_of_fuel
  | S fuel' =>
      s <- get ;;
      match array_get (cpus_taken s) first_taken with
      | None => undefined
      | Some true => ret first_taken
      | Some false => scan_up fuel' ((first_taken + 1) mod UINT_MODULUS)
      end
  end.

(** The body of the second loop after its scan:
    [cpus_taken[first_taken] = 0; cpus_online[first_taken] = 1;
     set_cpu_online_state(first_taken, 1);] *)
Definition release_cpu (first_taken : Z) : M unit :=
  s <- get ;;
  set_taken (array_set (cpus_taken s) first_taken false) ;;;
  s <- get ;;
  set_online (array_set (cpus_online s) first_taken true) ;;;
  set_cpu_online_state first_taken true.

(** [for (; n_taken > ncpus; n_taken--) { ... }] *)
Fixpoint release_loop (fuel : nat) (ncpus n_taken first_taken : Z) : M Z :=
  match fuel with
  | O => out_of_fuel
  | S fuel' =>
      if n_taken >? ncpus then
        first_taken <- scan_up loop_fuel first_taken ;;
        release_cpu first_taken ;;;
        release_loop fuel' ncpus ((n_taken - 1) mod UINT_MODULUS)
          ((first_taken + 1) mod UINT_MODULUS)
      else ret n_taken
  end.

Definition adjust_cpus (ncpus : Z) : M unit :=
  let first_taken := 0 in
  let last_online := max_cpu_count in
  s <- get ;;
  let n_taken := count_cpu_set (cpus_taken s) in
  (if negb (n_taken =? wastebin_cpus_taken s) then
     print Stderr (MsgCountMismatch n_taken (wastebin_cpus_taken s)) ;;;
     fail_exit "adjusting cpus taken"
   else ret tt) ;;;
  (if negb (ncpus =? n_taken) then print Stdout (MsgAdjustCpus ncpus)
   else ret tt) ;;;
  n_taken <- take_loop loop_fuel ncpus n_taken last_online ;;
  _ <- release_loop loop_fuel ncpus n_taken first_taken ;;
  set_wastebin_cpus_taken ncpus ;;;
  s <- get ;;
  show_cpu_set "taken" (cpus_taken s).

(** ** [adjust_memory] *)

(** [show_incore_memory]: the residency scan ([mincore] over the whole
    reservation) and its report; it changes no program variable. *)
Definition show_incore_memory : M unit :=
  emit EvMincore ;;; print Stdout MsgNowWasting.

Definition adjust_memory (membytes : Z) : M unit :=
  s <- get ;;
  (if wastebin_memory_taken s <? membytes then
     print Stderr (MsgMlockCalled (membytes - wastebin_memory_taken s)) ;;;
     t <- history ;;
     emit (EvMlock (wastebin_memory_taken s)
             (membytes - wastebin_memory_taken s)) ;;;
     let ec := mlock_return
                 (mlock env t (wastebin_memory_taken s)
                    (membytes - wastebin_memory_taken s)) in
     print Stderr (MsgHasLocked (membytes - wastebin_memory_taken s)) ;;;
     (if ec =? 0 then ret tt
      else if ec =? EPERM then fail_exit "Lock memory requires CAP_IPC_LOCK"
      else fail_exit "Can't lock the pages in memory
") ;;;
     set_wastebin_memory_taken membytes
   else if wastebin_memory_taken s >? membytes then
     emit (EvMunlock membytes (wastebin_memory_taken s - membytes)) ;;;
     emit (EvMadviseDontneed membytes (wastebin_memory_taken s - membytes)) ;;;
     set_wastebin_memory_taken membytes
   else ret tt) ;;;
  show_incore_memory.

End WithEnvironment.

(** ** The rendezvous channel and the convergence loop of [main] *)

Record desired_state := Desired { membytes : Z; cpus : Z }.

(** [sizeof(desired)]: two [long]s. *)
Definition sizeof_desired : Z := 16.
Definition POLLIN : Z := 1.

Inductive mkfifo_result := MkfifoOk | MkfifoError (errno : Z).

(** What the file system answers to an invocation: the result of [mkfifo],
    the descriptor returned by [open(O_WRONLY | O_NONBLOCK)] and the byte
    count returned by [write]. *)
Record rendezvous_answers := Rendezvous {
  mkfifo : mkfifo_result;
  open_wronly : Z;
  write_nb : Z
}.

(** Lines 411-426 of [main]. [Ok] means the invocation goes on to become
    the daemon; [return 0] from [main] is [Exit 0]. The value [nb] returned
    by [write] is assigned and never read. *)
Definition rendezvous (fs : rendezvous_answers) (desired : desired_state)
  : M unit :=
  match mkfifo fs with
  | MkfifoOk => ret tt
  | MkfifoError errno =>
      if errno =? EEXIST then
        let pipefd := open_wronly fs in
        if pipefd >=? 0 then
          emit (EvPipeWrite (membytes desired) (cpus desired)) ;;;
          let nb := write_nb fs in
          exit 0
        else print Stderr MsgReusing
      else fail_exit "Getting pipe"
  end.

(** What the daemon's end of the pipe answers: [read] gives a byte count,
    [errno] and the message it stored; [poll] gives its return value and
    [revents]. Each is a function of the number of such calls made
    before. *)
Record read_answer := ReadAnswer {
  read_nb : Z; read_errno : Z; read_data : desired_state
}.
Record poll_answer := PollAnswer { poll_ec : Z; poll_revents : Z }.

Record pipe_answers := Pipe {
  pipe_read : nat -> read_answer;
  pipe_poll : nat -> poll_answer
}.

(** The daemon's position in the answers of its pipe. *)
Record pipe_pos := PipePos { reads : nat; polls : nat }.

Section Daemon.
Variable env : environment.
Variable pipe : pipe_answers.

Definition apply_desired (desired : desired_state) : M unit :=
  print Stdout (MsgDisabling (cpus desired) (membytes desired)) ;;;
  adjust_cpus env (cpus desired mod UINT_MODULUS) ;;;
  adjust_memory env (membytes desired).

(** [do { ec = poll(...); if (ec < 0) fail_exit(...); }
     while ((pipe_poll.revents & POLLIN) == 0);] *)
Fixpoint poll_until_ready (fuel : nat) (pos : pipe_pos) : M pipe_pos :=
  match fuel with
  | O => out_of_fuel
  | S fuel' =>
      let a := pipe_poll pipe (polls pos) in
      let pos := PipePos (reads pos) (S (polls pos)) in
      (if poll_ec a <? 0 then fail_exit "polling named pipe" else ret tt) ;;;
      if Z.land (poll_revents a) POLLIN =? 0 then poll_until_ready fuel' pos
      else ret pos
  end.

(** [while ((nb = read(pipefd, &desired, sizeof(desired)))
            != sizeof(desired)) { ... }] *)
Fixpoint wait_for_message (fuel : nat) (pos : pipe_pos)
  : M (desired_state * pipe_pos) :=
  match fuel with
  | O => out_of_fuel
  | S fuel' =>
      let a := pipe_read pipe (reads pos) in
      let pos := PipePos (S (reads pos)) (polls pos) in
      let nb := read_nb a in
      if nb =? sizeof_desired then ret (read_data a, pos)
      else
        (if (nb >? 0) || ((nb <? 0) && negb (read_errno a =? EAGAIN)) then
           print Stderr (MsgPerror "debug") ;;;
           print Stdout (MsgReadDebug nb (read_errno a)) ;;;
           fail_exit "reading client command"
         else ret tt) ;;;
        pos <- poll_until_ready fuel' pos ;;
        wait_for_message fuel' pos
  end.

(** [while (1) { ... }] of [main]: apply the target, stop when nothing is
    withheld any more, otherwise wait for the next target. *)
Fixpoint daemon_loop (fuel : nat) (desired : desired_state) (pos : pipe_pos)
  : M unit :=
  match fuel with
  | O => out_of_fuel
  | S fuel' =>
      apply_desired desired ;;;
      s <- get ;;
      if (wastebin_cpus_taken s =? 0) && (wastebin_memory_taken s =? 0)
      then ret tt
      else
        r <- wait_for_message fuel' pos ;;
        daemon_loop fuel' (fst r) (snd r)
  end.

(** A session: the targets the daemon applies, one after the other. *)
Fixpoint run_session (targets : list desired_state) : M unit :=
  match targets with
  | [] => ret tt
  | d :: rest => apply_desired d ;;; run_session rest
  end.

End Daemon.

(** ** The range-list parser

    The text is a list of characters; positions in it are [nat] (the buffer
    holds fewer than 4096 bytes). [sscanf] reads a C string: it stops at the
    end of the list or at a NUL character, whichever comes first. *)

Definition ascii_code (c : ascii) : Z := Z.of_N (N_of_ascii c).

Definition is_digit (c : ascii) : bool :=
  (48 <=? ascii_code c) && (ascii_code c <=? 57).

(** [isspace] in the C locale. *)
Definition is_space (c : ascii) : bool :=
  (ascii_code c =? 32) || ((9 <=? ascii_code c) && (ascii_code c <=? 13)).

Definition digit_value (c : ascii) : Z := ascii_code c - 48.

Fixpoint skip_space (s : list ascii) : nat * list ascii :=
  match s with
  | c :: rest =>
      if is_space c then
        let '(n, s') := skip_space rest in (S n, s')
      else (O, s)
  | [] => (O, [])
  end.

(** The longest run of decimal digits: its value (continuing [acc]), its
    length and what follows. *)
Fixpoint scan_digits (acc : Z) (s : list ascii) : Z * nat * list ascii :=
  match s with
  | c :: rest =>
      if is_digit c then
        let '(v, n, s') := scan_digits (10 * acc + digit_value c) rest in
        (v, S n, s')
      else (acc, O, s)
  | [] => (acc, O, [])
  end.

Inductive conversion :=
| ConvEOF                       (* end of input before the item *)
| ConvFail                      (* matching failure *)
| ConvUnrepresentable           (* the number does not fit an unsigned *)
| ConvOk (u : Z) (n : nat) (rest : list ascii).

(** The conversion [%u]: white space is skipped, then an optional sign and
    a non-empty run of digits are read, as [strtoul] would in base 10. A
    minus sign negates in the unsigned type. A number above [UINT_MAX]
    cannot be stored in the [unsigned] argument: the C standard leaves that
    undefined. [n] counts every character consumed. *)
Definition scan_unsigned (s : list ascii) : conversion :=
  let '(nsp, s1) := skip_space s in
  match s1 with
  | [] => ConvEOF
  | c :: s2 =>
      if ascii_code c =? 0 then ConvEOF
      else
        let '(negative, nsign, s3) :=
          if ascii_code c =? 45 then (true, 1%nat, s2)
          else if ascii_code c =? 43 then (false, 1%nat, s2)
          else (false, 0%nat, s1) in
        match scan_digits 0 s3 with
        | (_, O, _) => ConvFail
        | (v, nd, s4) =>
            if v <? UINT_MODULUS then
              ConvOk (if negative then (- v) mod UINT_MODULUS else v)
                (nsp + nsign + nd) s4
            else ConvUnrepresentable
        end
  end.

(** The longest run of commas, for [%[,]]. *)
Fixpoint scan_commas (s : list ascii) : nat :=
  match s with
  | c :: rest => if ascii_code c =? 44 then S (scan_commas rest) else O
  | [] => O
  end.

(** The value [sscanf] returns and what it stored. [%n] stores a count and
    is not itself counted in the return value. [ScanUndefined] is a call
    whose behaviour the C standard leaves undefined. *)
Inductive scanned :=
| ScanEOF
| Scan0
| ScanUndefined
| Scan1 (u : Z) (nd : nat)
| Scan2 (u : Z) (nd : nat) (c : ascii) (end_ : nat).

(** [sscanf(s, "%u%n%1[,-]%n", &u, &nd, &c, &end)]. The argument of the
    scan set is [&c] with [char c]: when the character after the number is
    a comma or a dash, the conversion stores it and a terminating NUL, two
    bytes, into that one byte. The store is out of bounds and the behaviour
    undefined. When the scan set does not match, nothing is stored and the
    call returns 1. *)
Definition sscanf_u_sep (s : list ascii) : scanned :=
  match scan_unsigned s with
  | ConvEOF => ScanEOF
  | ConvFail => Scan0
  | ConvUnrepresentable => ScanUndefined
  | ConvOk u nd rest =>
      match rest with
      | c :: _ =>
          if (ascii_code c =? 44) || (ascii_code c =? 45)
          then ScanUndefined
          else Scan1 u nd
      | [] => Scan1 u nd
      end
  end.

(** [sscanf(s, "%u%n%[,]%n", &ul, &nl, &c, &nle)]. The same [char c]
    receives the whole run of commas and a terminating NUL: with one comma
    or more the store is out of bounds. *)
Definition sscanf_u_commas (s : list ascii) : scanned :=
  match scan_unsigned s with
  | ConvEOF => ScanEOF
  | ConvFail => Scan0
  | ConvUnrepresentable => ScanUndefined
  | ConvOk ul nl rest =>
      match scan_commas rest with
      | O => Scan1 ul nl
      | S _ => ScanUndefined
      end
  end.

(** The C string at [buf + nxt], for the diagnostic. *)
Fixpoint c_string (s : list ascii) : string :=
  match s with
  | c :: rest => if ascii_code c =? 0 then EmptyString
                 else String c (c_string rest)
  | [] => EmptyString
  end.

(** [if (u < max_cpu_count) cpu_states[u] = 1;] *)
Definition mark_cpu (cpu_states : list bool) (u : Z) : list bool :=
  if u <? max_cpu_count then array_set cpu_states u true else cpu_states.

(** [if (u < max_cpu_count && ul < max_cpu_count)
       for (unsigned i = u; i <= ul; i++) cpu_states[i] = 1;] *)
Definition mark_range (cpu_states : list bool) (u ul : Z) : list bool :=
  if (u <? max_cpu_count) && (ul <? max_cpu_count) then
    fold_left (fun a i => array_set a i true) (seqZ u (ul - u + 1)) cpu_states
  else cpu_states.

(** How the call ended: without parsing (the file did not open, or filled
    the buffer), at the end of the text or of its first line, or at the
    position where the parse gave up. *)
Inductive parse_end := NothingParsed | ParsedAll | GaveUp (nxt : nat).

Definition report_invalid (buf : list ascii) (nxt : nat) (cpu_states : list bool)
  : M (list bool * parse_end) :=
  print Stderr (MsgInvalidChars (Z.of_nat nxt) (c_string (drop nxt buf))) ;;;
  ret (cpu_states, GaveUp nxt).

(** [while (nxt != nb && buf[nxt] != '\n')], with [nb] the number of bytes
    read. *)
Definition more_to_parse (buf : list ascii) (nxt : nat) : bool :=
  negb (Nat.eqb nxt (length buf)) &&
  match buf !! nxt with
  | Some c => negb (ascii_code c =? 10)
  | None => true
  end.

(** The [do { ... } while (...)] loop of [parse_sysfs_cpu_set], with the
    [switch] on what [sscanf] returns as the source has it. The value 2
    would be returned after a separator was stored; that store being out of
    bounds, the branches of [Scan2] are reached by no defined run. *)
Fixpoint parse_loop (fuel : nat) (buf : list ascii) (nxt : nat)
    (cpu_states : list bool) : M (list bool * parse_end) :=
  match fuel with
  | O => out_of_fuel
  | S fuel' =>
      let continue nxt cpu_states :=
        if more_to_parse buf nxt then parse_loop fuel' buf nxt cpu_states
        else ret (cpu_states, ParsedAll) in
      match sscanf_u_sep (drop nxt buf) with
      | ScanEOF | Scan0 => report_invalid buf nxt cpu_states
      | ScanUndefined => undefined
      | Scan1 u nd => continue (nxt + nd)%nat (mark_cpu cpu_states u)
      | Scan2 u nd c end_ =>
          let nxt := (nxt + end_)%nat in
          if ascii_code c =? 45 then
            match sscanf_u_commas (drop nxt buf) with
            | ScanEOF | Scan0 => report_invalid buf nxt cpu_states
            | ScanUndefined => undefined
            | Scan1 ul nl => continue (nxt + nl)%nat (mark_range cpu_states u ul)
            | Scan2 ul nl _ nle =>
                continue (nxt + nle)%nat (mark_range cpu_states u ul)
            end
          else continue nxt (mark_cpu cpu_states u)
      end
  end.

(** What opening and reading the sysfs file gives. *)
Inductive file_read :=
| OpenFails
| ReadFails                           (* read returns -1 *)
| ReadBytes (content : list ascii).   (* at most [sizeof(buf)] bytes *)

Definition sizeof_buf : nat := 4096.

(** [parse_sysfs_cpu_set]. [nb] is a [size_t]: the test [nb < 0] is never
    true, and after a failed read [buf[nb] = 0] writes far outside [buf]. *)
Definition parse_sysfs_cpu_set (file : file_read) (cpu_states : list bool)
  : M (list bool * parse_end) :=
  match file with
  | OpenFails => ret (cpu_states, NothingParsed)
  | ReadFails => undefined
  | ReadBytes buf =>
      if Nat.eqb (length buf) sizeof_buf then ret (cpu_states, NothingParsed)
      else parse_loop (S (length buf)) buf 0 cpu_states
  end.

(** [inventory_cpus] *)
Definition inventory_cpus (file : file_read) : M unit :=
  s <- get ;;
  r <- parse_sysfs_cpu_set file (cpus_online s) ;;
  set_online (fst r) ;;;
  show_cpu_set "online" (fst r).

(** The registries as the daemon has them before [inventory_cpus]: the
    static arrays are zero-initialised. [inventory_memory] sets
    [wastebin_max_size] to the size of physical memory, a multiple of the
    page size. *)
Definition no_cpus : list bool := replicate (Z.to_nat max_cpu_count) false.

Definition initial_state (max_size : Z) : state :=
  State no_cpus no_cpus 0 max_size 0.

Definition initial_world (max_size : Z) : world :=
  World (initial_state max_size) [].

(** The array with exactly the given cpus marked. *)
Definition cpu_set (members : list Z) : list bool :=
  fold_left (fun a i => array_set a i true) members no_cpus.

(** ** Command-line arguments

    An argument is the list of its characters; as a C string it ends at
    the end of the list or at a NUL character. A [long int] has 64 bits, as
    [ssize_t] and [size_t] have. *)

Definition LONG_MAX : Z := 2 ^ 63 - 1.
Definition ULONG_MAX : Z := 2 ^ 64 - 1.

(** The conversion of an [unsigned long] to [long int]: the value with the
    same bits in two's complement. *)
Definition to_long (x : Z) : Z :=
  if x <=? LONG_MAX then x else x - SIZE_MODULUS.

(** [*p] for a C string [p]: 0 at its end. *)
Definition char_at (p : list ascii) : Z :=
  match p with
  | [] => 0
  | c :: _ => ascii_code c
  end.

(** [strtoul(arg, &endp, 10)]: the value returned and the text at [endp].
    White space is skipped, then an optional sign and the longest run of
    digits are read. Without a digit nothing is converted: the value is 0
    and [endp] is [arg]. A number above [ULONG_MAX] gives [ULONG_MAX]; a
    minus sign negates in the unsigned type. *)
Definition strtoul (arg : list ascii) : Z * list ascii :=
  let '(_, s1) := skip_space arg in
  let '(negative, s2) :=
    match s1 with
    | c :: rest =>
        if ascii_code c =? 45 then (true, rest)
        else if ascii_code c =? 43 then (false, rest)
        else (false, s1)
    | [] => (false, s1)
    end in
  match scan_digits 0 s2 with
  | (_, O, _) => (0, arg)
  | (v, S _, endp) =>
      (if v <=? ULONG_MAX then
         if negative then (- v) mod SIZE_MODULUS else v
       else ULONG_MAX,
       endp)
  end.

(** [str2ul]: the number of cpus, or -1. *)
Definition str2ul (arg : list ascii) : Z :=
  let '(u, endp) := strtoul arg in
  let value := to_long u in
  if (char_at endp =? 0) && negb (char_at arg =? 0) && (value >=? 0)
  then value
  else -1.

(** [scale_ok]: [mbz ? -1L : ((value + 0xfff) & ~0xfffUL)]. The sum is
    computed in [long int], where an overflow is undefined ([None]); the
    mask is applied in [unsigned long] and the result converted back. *)
Definition scale_ok (mbz : Z) (value : Z) : option Z :=
  if negb (mbz =? 0) then Some (-1)
  else if value + 4095 <=? LONG_MAX then
    Some (to_long (Z.land ((value + 4095) mod SIZE_MODULUS)
                     (SIZE_MODULUS - 4096)))
  else None.

(** [value << k] for a [long int] [value >= 0]: undefined ([None]) when
    the result does not fit. *)
Definition shift_left_long (value k : Z) : option Z :=
  if value * 2 ^ k <=? LONG_MAX then Some (value * 2 ^ k) else None.

(** [strm2ul]: the amount of memory in bytes, rounded up to whole pages,
    or -1. The [switch] is on [endp[0]]; [endp[1]] is read only behind a
    unit letter. *)
Definition strm2ul (arg : list ascii) : option Z :=
  let '(u, endp) := strtoul arg in
  let value := to_long u in
  if negb (char_at arg =? 0) && (value >=? 0) then
    let scaled k :=
      match shift_left_long value k with
      | Some v => scale_ok (char_at (tail endp)) v
      | None => None
      end in
    let c := char_at endp in
    if c =? 0 then scale_ok c value
    else if (c =? 107) || (c =? 75) then scaled 10      (* 'k', 'K' *)
    else if (c =? 109) || (c =? 77) then scaled 20      (* 'm', 'M' *)
    else if (c =? 103) || (c =? 71) then scaled 30      (* 'g', 'G' *)
    else if (c =? 116) || (c =? 84) then scaled 40      (* 't', 'T' *)
    else Some (-1)
  else Some (-1).

(** How the argument handling of [main] (lines 396-408) ends: with
    [usage_exit(ec)], with [badarg_exit] (which exits with [EXIT_FAILURE]),
    in undefined behaviour, or with the target to reach. *)
Inductive invocation :=
| UsageExit (ec : Z)
| BadArgExit (argname : string) (arg : list ascii)
| UndefinedArguments
| Target (desired : desired_state).

(** [argv] holds [argc] strings, [argv[0]] included. *)
Definition main_arguments (argv : list (list ascii)) : invocation :=
  let argc := Z.of_nat (length argv) in
  match argv with
  | _ :: memarg :: rest =>
      if String.eqb "-h" (c_string memarg) then UsageExit EXIT_SUCCESS
      else
        let cpuarg := match rest with
                      | arg :: _ => arg
                      | [] => list_ascii_of_string "0"
                      end in
        if argc >? 3 then UsageExit EXIT_FAILURE
        else
          let cpus := str2ul cpuarg in
          if cpus <? 0 then BadArgExit "cpus" cpuarg
          else
            match strm2ul memarg with
            | None => UndefinedArguments
            | Some membytes =>
                if membytes <? 0 then BadArgExit "memory" memarg
                else Target (Desired membytes cpus)
            end
  | _ => UsageExit EXIT_SUCCESS
  end.

(** ** The residency scan and the inventory of memory *)

(** [sizeof(ic_vec)], and the first value of [step],
    [sizeof(ic_vec) << 12]: the 4096 pages one call of [mincore] can
    report on. *)
Definition sizeof_ic_vec : Z := 4096.
Definition incore_step : Z := Z.shiftl sizeof_ic_vec 12.

(** What [mincore] answers for a window: -1, or 0 with the status bytes it
    stored in [ic_vec], one for each page of the window. *)
Inductive mincore_result := MincoreFails | MincoreVec (ic_vec : list Z).

(** [for (int i = 0; i < npgs; i++) if (ic_vec[i] & 1) pages += 1;] *)
Definition count_resident (ic_vec : list Z) (npgs : Z) : Z :=
  fold_left (fun pages b => if Z.land b 1 =? 0 then pages else pages + 1)
    (take (Z.to_nat npgs) ic_vec) 0.

(** What [show_incore_memory] computes: the loop
    [for (scanp = wastebin_memory; scanp < endp; scanp += step)], with
    [scanp] as an offset into the reservation. It gives the windows passed
    to [mincore], as (offset, length), and the number of resident pages
    counted. A failing [mincore] is reported on [stderr] and its window
    counts for nothing. *)
Fixpoint incore_scan (fuel : nat) (mincore : Z -> Z -> mincore_result)
    (max_size scanp step pages : Z) : option (list (Z * Z) * Z) :=
  match fuel with
  | O => None
  | S fuel' =>
      if scanp <? max_size then
        let step := if scanp + step >? max_size then max_size - scanp
                    else step in
        let pages :=
          match mincore scanp step with
          | MincoreFails => pages
          | MincoreVec ic_vec => pages + count_resident ic_vec (Z.shiftr step 12)
          end in
        match incore_scan fuel' mincore max_size (scanp + step) step pages with
        | Some (calls, pages) => Some ((scanp, step) :: calls, pages)
        | None => None
        end
      else Some ([], pages)
  end.

(** The scan of a reservation of [max_size] bytes; the fuel covers every
    window and the test that ends the loop. *)
Definition incore_windows (mincore : Z -> Z -> mincore_result) (max_size : Z)
  : option (list (Z * Z) * Z) :=
  incore_scan (S (S (Z.to_nat (max_size / incore_step)))) mincore max_size
    0 incore_step 0.

(** The number of bytes the report gives as wasted: [pages << 12]. *)
Definition now_wasting (pages : Z) : Z := Z.shiftl pages 12.

Definition set_wastebin_max_size (n : Z) : M unit :=
  s <- get ;;
  put (State (cpus_online s) (cpus_taken s) (wastebin_cpus_taken s)
         n (wastebin_memory_taken s)).

(** [inventory_memory]: [phys_pages] is what [sysconf(_SC_PHYS_PAGES)]
    returns and [mmap_failed] whether [mmap] returns [MAP_FAILED]. The
    shift [wastebin_max_size <<= 12] is undefined when its result does not
    fit an [ssize_t]. The two [madvise] calls (no huge pages, no merging)
    have their results ignored and touch no variable; they are not
    recorded. *)
Definition inventory_memory (phys_pages : Z) (mmap_failed : bool) : M unit :=
  set_wastebin_max_size phys_pages ;;;
  (if phys_pages <? 0 then fail_exit "getting physical memory size"
   else ret tt) ;;;
  (if phys_pages * 2 ^ 12 <=? LONG_MAX
   then set_wastebin_max_size (phys_pages * 2 ^ 12)
   else undefined) ;;;
  (if mmap_failed then fail_exit "getting waste memory segment"
   else ret tt) ;;;
  set_wastebin_memory_taken 0 ;;;
  show_incore_memory.

(** Lines 482-483 of [main]: the two inventories, from the zero-initialised
    static variables. *)
Definition inventory (file : file_read) (phys_pages : Z) (mmap_failed : bool)
  : M unit :=
  inventory_cpus file ;;; inventory_memory phys_pages mmap_failed.

(** * Vocabulary of the properties *)

(** ** States and traces *)

(** [s] with other values in some of its variables. *)
Definition with_sets (s : state) (online taken : list bool) : state :=
  State online taken (wastebin_cpus_taken s) (wastebin_max_size s)
    (wastebin_memory_taken s).

Definition with_cpus_taken (s : state) (n : Z) : state :=
  State (cpus_online s) (cpus_taken s) n (wastebin_max_size s)
    (wastebin_memory_taken s).

Definition with_memory_taken (s : state) (n : Z) : state :=
  State (cpus_online s) (cpus_taken s) (wastebin_cpus_taken s)
    (wastebin_max_size s) n.

(** [s] after [cpu] moved from [Online] to [Taken], and back. *)
Definition taken_state (s : state) (cpu : Z) : state :=
  with_sets s (array_set (cpus_online s) cpu false)
    (array_set (cpus_taken s) cpu true).

Definition released_state (s : state) (cpu : Z) : state :=
  with_sets s (array_set (cpus_online s) cpu true)
    (array_set (cpus_taken s) cpu false).

(** [w] with [evs] appended to its trace. *)
Definition logged (w : world) (evs : list event) : world :=
  World (regs w) (trace w ++ evs).

(** One iteration of the first loop: the cpu it takes is the highest one
    online below [last_online], and it is never cpu 0. *)
Definition take_step (w : world) (last_online cpu : Z) (w' : world) : Prop :=
  0 < cpu < last_online /\
  array_get (cpus_online (regs w)) cpu = Some true /\
  (forall j, cpu < j < last_online ->
             array_get (cpus_online (regs w)) j = Some false) /\
  w' = World (taken_state (regs w) cpu) (trace w ++ [EvSetCpu cpu false]).

(** One iteration of the second loop: the cpu it releases is the lowest one
    taken from [first_taken] on. *)
Definition release_step (w : world) (first_taken cpu : Z) (w' : world) : Prop :=
  first_taken <= cpu < max_cpu_count /\
  array_get (cpus_taken (regs w)) cpu = Some true /\
  (forall j, first_taken <= j < cpu ->
             array_get (cpus_taken (regs w)) j = Some false) /\
  w' = World (released_state (regs w) cpu) (trace w ++ [EvSetCpu cpu true]).

(** The world in which the loops of [adjust_cpus] start. *)
Definition announced (ncpus : Z) (w : world) : world :=
  if negb (ncpus =? count_cpu_set (cpus_taken (regs w))) then
    logged w [EvPrint Stdout (MsgAdjustCpus ncpus)]
  else w.

(** The report that ends [adjust_cpus]. *)
Definition shown_taken (w : world) : event :=
  EvPrint Stdout (MsgCpuSet "taken" (members_from 0 (cpus_taken (regs w)))).

(** Membership of cpu [i] in [Online] and in [Taken]. *)
Definition is_online (s : state) (i : Z) : Prop :=
  array_get (cpus_online s) i = Some true.

Definition is_taken (s : state) (i : Z) : Prop :=
  array_get (cpus_taken s) i = Some true.

(** Both arrays have [max_cpu_count] entries. *)
Definition well_sized (s : state) : Prop :=
  length (cpus_online s) = Z.to_nat max_cpu_count /\
  length (cpus_taken s) = Z.to_nat max_cpu_count.

(** [Online] and [Taken] have no cpu in common. *)
Definition disjoint_sets (s : state) : Prop :=
  forall i, ~ (is_online s i /\ is_taken s i).

(** A consistent state: the arrays are disjoint, the counter agrees with
    [Taken], and the locked extent lies inside the reservation. *)
Definition consistent (s : state) : Prop :=
  well_sized s /\ disjoint_sets s /\
  count_cpu_set (cpus_taken s) = wastebin_cpus_taken s /\
  0 <= wastebin_memory_taken s <= wastebin_max_size s.

(** The calls and reports of [adjust_memory] when it returns. *)
Definition memory_events (s : state) (membytes : Z) : list event :=
  let taken := wastebin_memory_taken s in
  (if taken <? membytes then
     [EvPrint Stderr (MsgMlockCalled (membytes - taken));
      EvMlock taken (membytes - taken);
      EvPrint Stderr (MsgHasLocked (membytes - taken))]
   else if taken >? membytes then
     [EvMunlock membytes (taken - membytes);
      EvMadviseDontneed membytes (taken - membytes)]
   else []) ++ [EvMincore; EvPrint Stdout MsgNowWasting].

(** The arrays are well sized and disjoint, and [Taken] has [n] members. *)
Definition counted (n : Z) (s : state) : Prop :=
  well_sized s /\ disjoint_sets s /\ count_cpu_set (cpus_taken s) = n.

(** The memory ledger is as in [s0]. *)
Definition same_ledger (s0 s : state) : Prop :=
  wastebin_max_size s = wastebin_max_size s0 /\
  wastebin_memory_taken s = wastebin_memory_taken s0.

(** The number of online cpus with an index in [[1, k)]: cpu 0 is never a
    candidate for being taken. *)
Definition online_above_zero (a : list bool) (k : Z) : Z :=
  count_cpu_set (drop 1 (take (Z.to_nat k) a)).

(** The number of online cpus other than cpu 0. *)
Definition spare_cpus (s : state) : Z :=
  count_cpu_set (drop 1 (cpus_online s)).

(** The world in which the adjusters of [apply_desired] start. *)
Definition announced_target (d : desired_state) (w : world) : world :=
  logged w [EvPrint Stdout (MsgDisabling (cpus d) (membytes d))].

(** An event that changes what is withheld: a cpu toggle, or a lock, unlock
    or discard of memory. *)
Definition is_transition (e : event) : bool :=
  match e with
  | EvSetCpu _ _ | EvMlock _ _ | EvMunlock _ _ | EvMadviseDontneed _ _ => true
  | _ => false
  end.

(** ** Sample machines and environments *)

(** The daemon's world after its inventory of a machine with the given
    cpus online and [max_size] bytes of memory. *)
Definition machine (online : list Z) (max_size : Z) : world :=
  World (State (cpu_set online) no_cpus 0 max_size 0) [].

(** The scenario machine: cpus 0 to 7 online, 8 GiB of memory. *)
Definition eight_cpus : world := machine [0; 1; 2; 3; 4; 5; 6; 7] (2 ^ 33).

(** The machine with cpus 0 and 1 online, nothing withheld yet. *)
Definition two_cpus : world := machine [0; 1] (2 ^ 33).

(** What [adjust_memory] leaves in the trace when [mlock] fails. *)
Definition lock_failure_trace (s : state) (membytes : Z) (msg : string)
  : list event :=
  [EvPrint Stderr (MsgMlockCalled (membytes - wastebin_memory_taken s));
   EvMlock (wastebin_memory_taken s) (membytes - wastebin_memory_taken s);
   EvPrint Stderr (MsgHasLocked (membytes - wastebin_memory_taken s));
   EvPrint Stderr (MsgFailed msg)].

(** The environment in which locking memory is refused for lack of
    privilege. *)
Definition env_no_privilege : environment :=
  {| cpu_toggle := fun _ _ _ => ToggleWrote 1;
     mlock := fun _ _ _ => MlockError EPERM |}.

(** The endpoint exists and opens (descriptor 3), and the write fails. *)
Definition stale_pipe : rendezvous_answers :=
  {| mkfifo := MkfifoError EEXIST; open_wronly := 3; write_nb := -1 |}.

(** A pipe on which the first read finds nothing, the first poll reports
    readiness and the second read delivers the target (0, 0). *)
Definition quiet_then_message : pipe_answers :=
  {| pipe_read := fun n =>
       match n with
       | O => ReadAnswer (-1) EAGAIN (Desired 0 0)
       | _ => ReadAnswer sizeof_desired 0 (Desired 0 0)
       end;
     pipe_poll := fun _ => PollAnswer 1 POLLIN |}.

(** A pipe on which a read delivers 8 of the 16 bytes of a message. *)
Definition half_message : pipe_answers :=
  {| pipe_read := fun _ => ReadAnswer 8 0 (Desired 0 0);
     pipe_poll := fun _ => PollAnswer 1 POLLIN |}.

(** ** The order of takes and releases *)

(** The first cpu the trace shows being taken offline. *)
Fixpoint first_take (t : list event) : option Z :=
  match t with
  | [] => None
  | EvSetCpu cpu false :: _ => Some cpu
  | _ :: rest => first_take rest
  end.

(** The last cpu the trace shows being returned to service. *)
Fixpoint last_release (t : list event) : option Z :=
  match t with
  | [] => None
  | e :: rest =>
      match last_release rest with
      | Some cpu => Some cpu
      | None => match e with EvSetCpu cpu true => Some cpu | _ => None end
      end
  end.

(** A write to a cpu's control file. *)
Definition is_toggle (e : event) : bool :=
  match e with EvSetCpu _ _ => true | _ => false end.

(** [c] is the highest index marked in [a]. *)
Definition highest_online (a : list bool) (c : Z) : Prop :=
  array_get a c = Some true /\ forall j, c < j -> array_get a j <> Some true.

(** [Taken] is empty. *)
Definition none_taken (s : state) : Prop := forall j, ~ is_taken s j.

(** The invariant of a session that started with [online0] online and
    nothing taken. Until a cpu is taken, [Online] is [online0]. From then
    on the first cpu taken, [c], is the highest of [online0], no cpu above
    it is online or taken, and either [c] is still taken, or nothing is
    taken and the last release was that of [c]. *)
Definition session_inv (online0 : list bool) (w : world) : Prop :=
  well_sized (regs w) /\ disjoint_sets (regs w) /\
  match first_take (trace w) with
  | None => cpus_online (regs w) = online0 /\ none_taken (regs w)
  | Some c =>
      highest_online online0 c /\
      (forall j, c < j -> ~ is_online (regs w) j /\ ~ is_taken (regs w) j) /\
      (is_taken (regs w) c \/
       (none_taken (regs w) /\ is_online (regs w) c /\
        last_release (trace w) = Some c))
  end.

(** ** Range-list texts *)

(** The character of the digit [d]. *)
Definition digit_char (d : Z) : ascii := ascii_of_N (Z.to_N (48 + d)).

(** The decimal digits of [n], most significant first, in front of
    [low]. *)
Fixpoint decimal_digits (fuel : nat) (n : Z) (low : list ascii) : list ascii :=
  match fuel with
  | O => low
  | S fuel' =>
      let low' := digit_char (n mod 10) :: low in
      if n <? 10 then low' else decimal_digits fuel' (n / 10) low'
  end.

(** The decimal numeral of [n >= 0]; a number has no more decimal digits
    than binary ones. *)
Definition decimal (n : Z) : list ascii :=
  decimal_digits (S (Z.to_nat (Z.log2 n))) n [].

(** The text ends, or its line does. *)
Definition at_end (tail : list ascii) : Prop :=
  match tail with
  | [] => True
  | c :: _ => ascii_code c = 10
  end.

(** The number [acc] followed by the digits [ds] denotes. *)
Definition value_of (acc : Z) (ds : list ascii) : Z :=
  fold_left (fun a c => 10 * a + digit_value c) ds acc.

(** The text does not go on with a digit. *)
Definition no_digit_next (rest : list ascii) : Prop :=
  match rest with
  | [] => True
  | c :: _ => is_digit c = false
  end.

(** [a'] has every membership of [a], and the same size. *)
Definition extends (a a' : list bool) : Prop :=
  length a' = length a /\
  forall i : nat, a !! i = Some true -> a' !! i = Some true.




(** ** Arguments, scans and sessions *)

(** The unit letters of [strm2ul] and the shift each stands for. *)
Definition unit_shift (c : ascii) : option Z :=
  let code := ascii_code c in
  if (code =? 107) || (code =? 75) then Some 10
  else if (code =? 109) || (code =? 77) then Some 20
  else if (code =? 103) || (code =? 71) then Some 30
  else if (code =? 116) || (code =? 84) then Some 40
  else None.

(** [n] rounded up to a whole number of 4096-byte pages. *)
Definition page_round (n : Z) : Z := (n + 4095) / 4096 * 4096.

(** The windows [calls] follow one another from [from] to [to]; none is
    empty or longer than [incore_step], and only the last may be
    shorter. *)
Fixpoint tiles (from : Z) (calls : list (Z * Z)) (to : Z) : Prop :=
  match calls with
  | [] => from = to
  | (offset, len) :: rest =>
      offset = from /\ 0 < len <= incore_step /\
      (rest <> [] -> len = incore_step) /\
      tiles (offset + len) rest to
  end.

(** What the last write to the control file of [cpu] in the trace asked
    for, after [st]. *)
Fixpoint last_toggle (cpu : Z) (t : list event) (st : option bool)
  : option bool :=
  match t with
  | [] => st
  | EvSetCpu c b :: rest =>
      last_toggle cpu rest (if c =? cpu then Some b else st)
  | _ :: rest => last_toggle cpu rest st
  end.


(** A diagnostic of a fatal error: [fail_exit]'s or [perror]'s. *)
Definition is_diagnostic (m : message) : Prop :=
  match m with
  | MsgFailed _ | MsgPerror _ => True
  | _ => False
  end.

(** The process ended with [EXIT_FAILURE], and the last thing it did was to
    write a diagnostic to [stderr]. *)
Definition diagnosed (status : Z) (w : world) : Prop :=
  status = EXIT_FAILURE /\
  exists t m, trace w = t ++ [EvPrint Stderr m] /\ is_diagnostic m.

(** Every exit of [m] is a diagnosed failure. *)
Definition exits_diagnosed {A} (m : M A) : Prop :=
  forall w status w', m w = Exit status w' -> diagnosed status w'.

(** A read that delivers nothing: 0 bytes, or -1 with [EAGAIN]. *)
Definition empty_read (a : read_answer) : Prop :=
  read_nb a = 0 \/ (read_nb a < 0 /\ read_errno a = EAGAIN).

(** Cpu [i] is managed: online or taken. *)
Definition is_managed (s : state) (i : Z) : Prop := is_online s i \/ is_taken s i.

(** The environment in which every write to a control file fails: [write]
    returns -1. *)
Definition env_write_fails : environment :=
  {| cpu_toggle := fun _ _ _ => ToggleWrote (-1);
     mlock := fun _ _ _ => MlockOk |}.

(** The writes to control files in a trace, in order. *)
Definition toggles (t : list event) : list event := List.filter is_toggle t.

(** A poll that neither fails nor reports that a message can be read. *)
Definition idle_poll (a : poll_answer) : Prop :=
  0 <= poll_ec a /\ Z.land (poll_revents a) POLLIN = 0.

(** A pipe on which every read finds nothing and every poll fails. *)
Definition broken_pipe : pipe_answers :=
  {| pipe_read := fun _ => ReadAnswer (-1) EAGAIN (Desired 0 0);
     pipe_poll := fun _ => PollAnswer (-1) 0 |}.

(** As [locked_extent], for a reservation of [max_size] bytes: in addition
    no call has a negative length, no lock reaches beyond the reservation
    and no unlock starts before it. *)
Fixpoint locked_within (max_size : Z) (t : list event) (extent : Z)
  : option Z :=
  match t with
  | [] => Some extent
  | EvMlock offset len :: rest =>
      if (offset =? extent) && (0 <=? len) && (offset + len <=? max_size)
      then locked_within max_size rest (offset + len)
      else None
  | EvMunlock offset len :: rest =>
      if (offset + len =? extent) && (0 <=? len) && (0 <=? offset)
      then locked_within max_size rest offset
      else None
  | _ :: rest => locked_within max_size rest extent
  end.

(** The locked extent, as the lock calls leave it, is what the ledger says,
    and it lies in the reservation. *)
Definition ledger_ok (max_size : Z) (w : world) : Prop :=
  locked_within max_size (trace w) 0 = Some (wastebin_memory_taken (regs w)) /\
  0 <= wastebin_memory_taken (regs w) <= max_size /\
  wastebin_max_size (regs w) = max_size.

(** Nothing has taken cpu 0: it is not in [Taken], and no '0' was written to
    its control file. *)
Definition cpu_zero_kept (w : world) : Prop :=
  ~ is_taken (regs w) 0 /\ EvSetCpu 0 false ∉ trace w.

(** * Properties *)

(** ** Arithmetic on [unsigned] *)

Lemma uint_small (x : Z) : 0 <= x < 4294967296 -> x mod UINT_MODULUS = x.
Proof. intros H. apply Z.mod_small. exact H. Qed.

Lemma uint_wrap_zero : (0 - 1) mod UINT_MODULUS = 4294967295.
Proof. reflexivity. Qed.

Lemma max_cpu_count_eq : max_cpu_count = 4096.
Proof. reflexivity. Qed.

(** ** The registries as arrays *)

Lemma count_cpu_set_acc (l : list bool) (a : Z) :
  fold_left (fun count b => count + Z.b2z b) l a = a + count_cpu_set l.
Proof.
  unfold count_cpu_set. revert a.
  induction l as [|b l IH]; intros a; simpl.
  - lia.
  - rewrite (IH (a + Z.b2z b)), (IH (0 + Z.b2z b)). lia.
Qed.

Lemma count_cpu_set_nil : count_cpu_set [] = 0.
Proof. reflexivity. Qed.

Lemma count_cpu_set_cons (b : bool) (l : list bool) :
  count_cpu_set (b :: l) = Z.b2z b + count_cpu_set l.
Proof. unfold count_cpu_set at 1. simpl. apply count_cpu_set_acc. Qed.

Lemma count_cpu_set_app (l1 l2 : list bool) :
  count_cpu_set (l1 ++ l2) = count_cpu_set l1 + count_cpu_set l2.
Proof.
  induction l1 as [|b l1 IH]; simpl.
  - rewrite count_cpu_set_nil. lia.
  - rewrite !count_cpu_set_cons, IH. lia.
Qed.

Lemma count_cpu_set_bounds (l : list bool) :
  0 <= count_cpu_set l <= Z.of_nat (length l).
Proof.
  induction l as [|b l IH].
  - rewrite count_cpu_set_nil. simpl. lia.
  - rewrite count_cpu_set_cons. destruct b; simpl Z.b2z; simpl length; lia.
Qed.

Lemma count_cpu_set_insert (l : list bool) (i : nat) (b b' : bool) :
  l !! i = Some b ->
  count_cpu_set (<[i:=b']> l) = count_cpu_set l - Z.b2z b + Z.b2z b'.
Proof.
  revert i. induction l as [|x l IH]; intros i H.
  - discriminate.
  - destruct i as [|i]; simpl in *.
    + injection H as ->. rewrite !count_cpu_set_cons. lia.
    + rewrite !count_cpu_set_cons, (IH i H). lia.
Qed.

Lemma count_cpu_set_zero (l : list bool) :
  count_cpu_set l = 0 <-> forall i, l !! i <> Some true.
Proof.
  induction l as [|b l IH].
  - split; [intros _ i; destruct i; discriminate | reflexivity].
  - rewrite count_cpu_set_cons. pose proof (count_cpu_set_bounds l) as Hb.
    split.
    + intros H i. destruct b; simpl in H; [lia|].
      destruct i as [|i]; simpl; [discriminate|]. apply IH. lia.
    + intros H. destruct b.
      * exfalso. apply (H 0%nat). reflexivity.
      * simpl. apply IH. intros i. apply (H (S i)).
Qed.

Lemma count_cpu_set_replicate (n : nat) : count_cpu_set (replicate n false) = 0.
Proof.
  induction n as [|n IH]; [reflexivity|].
  simpl. rewrite count_cpu_set_cons, IH. reflexivity.
Qed.

Lemma array_get_Some (a : list bool) (i : Z) (b : bool) :
  array_get a i = Some b <->
  0 <= i < max_cpu_count /\ a !! Z.to_nat i = Some b.
Proof.
  unfold array_get.
  destruct (0 <=? i) eqn:H0; destruct (i <? max_cpu_count) eqn:H1; simpl;
    split; try discriminate; try (intros [? ?]; lia); intros H.
  - split; [lia | exact H].
  - apply H.
Qed.

Lemma array_get_out (a : list bool) (i : Z) :
  max_cpu_count <= i -> array_get a i = None.
Proof.
  intros H. unfold array_get.
  destruct (i <? max_cpu_count) eqn:H1; [lia|].
  rewrite andb_false_r. reflexivity.
Qed.

Lemma array_get_in (a : list bool) (i : Z) :
  length a = Z.to_nat max_cpu_count -> 0 <= i < max_cpu_count ->
  exists b, array_get a i = Some b.
Proof.
  intros Hlen Hi.
  destruct (lookup_lt_is_Some_2 a (Z.to_nat i)) as [b Hb]; [lia|].
  exists b. apply array_get_Some. split; [exact Hi | exact Hb].
Qed.

Lemma array_get_set_eq (a : list bool) (i : Z) (b : bool) :
  length a = Z.to_nat max_cpu_count -> 0 <= i < max_cpu_count ->
  array_get (array_set a i b) i = Some b.
Proof.
  intros Hlen Hi. apply array_get_Some. split; [exact Hi|].
  unfold array_set. apply list_lookup_insert_eq. lia.
Qed.

Lemma array_get_set_ne (a : list bool) (i j : Z) (b : bool) :
  0 <= i -> 0 <= j -> i <> j ->
  array_get (array_set a i b) j = array_get a j.
Proof.
  intros Hi Hj Hne. unfold array_get, array_set.
  destruct ((0 <=? j) && (j <? max_cpu_count)); [|reflexivity].
  apply list_lookup_insert_ne. lia.
Qed.

Lemma array_get_set_other (a : list bool) (cpu i : Z) (b : bool) :
  0 <= cpu -> cpu <> i -> array_get (array_set a cpu b) i = array_get a i.
Proof.
  intros Hcpu Hne. destruct (Z.lt_ge_cases i 0) as [Hneg|Hpos].
  - unfold array_get. destruct (Z.leb_spec 0 i); [lia | reflexivity].
  - apply array_get_set_ne; assumption.
Qed.

Lemma array_set_length (a : list bool) (i : Z) (b : bool) :
  length (array_set a i b) = length a.
Proof. apply length_insert. Qed.

Lemma count_array_set (a : list bool) (i : Z) (b b' : bool) :
  array_get a i = Some b ->
  count_cpu_set (array_set a i b') = count_cpu_set a - Z.b2z b + Z.b2z b'.
Proof.
  intros H. apply array_get_Some in H as [_ H].
  apply count_cpu_set_insert. exact H.
Qed.

(** ** The steps of [adjust_cpus] *)

Lemma bind_Ok {A B} (m : M A) (k : A -> M B) (w w' : world) (b : B) :
  bind m k w = Ok b w' -> exists a w1, m w = Ok a w1 /\ k a w1 = Ok b w'.
Proof.
  unfold bind. destruct (m w) as [a w1| | |]; try discriminate.
  intros H. exists a, w1. split; [reflexivity | exact H].
Qed.

Section Steps.
Variable env : environment.

Lemma take_cpu_Ok (cpu : Z) (w w' : world) (u : unit) :
  take_cpu env cpu w = Ok u w' ->
  w' = World (taken_state (regs w) cpu) (trace w ++ [EvSetCpu cpu false]).
Proof.
  unfold take_cpu, set_cpu_online_state, bind; simpl.
  destruct (cpu_toggle env (trace w) cpu false) as [|nb]; simpl;
    try discriminate.
  destruct (nb mod SIZE_MODULUS <? 1); simpl; try discriminate.
  intros H. injection H as _ <-. reflexivity.
Qed.

Lemma take_cpu_succeeds (cpu : Z) (w : world) :
  cpu_toggle env (trace w) cpu false = ToggleWrote 1 ->
  take_cpu env cpu w =
  Ok tt (World (taken_state (regs w) cpu) (trace w ++ [EvSetCpu cpu false])).
Proof.
  intros H. unfold take_cpu, set_cpu_online_state, bind; simpl.
  rewrite H. reflexivity.
Qed.

Lemma release_cpu_Ok (cpu : Z) (w w' : world) (u : unit) :
  release_cpu env cpu w = Ok u w' ->
  w' = World (released_state (regs w) cpu) (trace w ++ [EvSetCpu cpu true]).
Proof.
  unfold release_cpu, set_cpu_online_state, bind; simpl.
  destruct (cpu_toggle env (trace w) cpu true) as [|nb]; simpl;
    try discriminate.
  destruct (nb mod SIZE_MODULUS <? 1); simpl; try discriminate.
  intros H. injection H as _ <-. reflexivity.
Qed.

Lemma release_cpu_succeeds (cpu : Z) (w : world) :
  cpu_toggle env (trace w) cpu true = ToggleWrote 1 ->
  release_cpu env cpu w =
  Ok tt (World (released_state (regs w) cpu) (trace w ++ [EvSetCpu cpu true])).
Proof.
  intros H. unfold release_cpu, set_cpu_online_state, bind; simpl.
  rewrite H. reflexivity.
Qed.

Lemma take_loop_S (fuel : nat) (ncpus n_taken last_online : Z) :
  take_loop env (S fuel) ncpus n_taken last_online =
  if n_taken <? ncpus then
    bind (scan_down loop_fuel last_online) (fun last_online =>
    bind (if last_online =? 0 then fail_exit "can't exhaust online cpus"
          else ret tt) (fun _ =>
    bind (take_cpu env last_online) (fun _ =>
    take_loop env fuel ncpus ((n_taken + 1) mod UINT_MODULUS) last_online)))
  else ret n_taken.
Proof. reflexivity. Qed.

Lemma release_loop_S (fuel : nat) (ncpus n_taken first_taken : Z) :
  release_loop env (S fuel) ncpus n_taken first_taken =
  if n_taken >? ncpus then
    bind (scan_up loop_fuel first_taken) (fun first_taken =>
    bind (release_cpu env first_taken) (fun _ =>
    release_loop env fuel ncpus ((n_taken - 1) mod UINT_MODULUS)
      ((first_taken + 1) mod UINT_MODULUS)))
  else ret n_taken.
Proof. reflexivity. Qed.

(** The downward scan stops at the highest online index below
    [last_online], and changes nothing. *)
Lemma scan_down_Ok (fuel : nat) (last_online : Z) (w w' : world) (r : Z) :
  0 <= last_online <= max_cpu_count ->
  scan_down fuel last_online w = Ok r w' ->
  w' = w /\ 0 <= r < last_online /\
  array_get (cpus_online (regs w)) r = Some true /\
  forall j, r < j < last_online ->
            array_get (cpus_online (regs w)) j = Some false.
Proof.
  revert last_online. induction fuel as [|fuel IH]; intros lo Hlo H.
  - discriminate.
  - simpl in H. unfold bind in H. simpl in H.
    destruct (Z.eq_dec lo 0) as [->|Hnz].
    + rewrite uint_wrap_zero in H. rewrite array_get_out in H by (rewrite max_cpu_count_eq; lia).
      discriminate.
    + rewrite uint_small in H by (rewrite max_cpu_count_eq in Hlo; lia).
      destruct (array_get (cpus_online (regs w)) (lo - 1)) as [[|]|] eqn:Hg.
      * injection H as <- <-.
        split; [reflexivity|]. split; [lia|]. split; [exact Hg|].
        intros j Hj. lia.
      * apply IH in H; [|lia]. destruct H as (-> & Hr & Hon & Hbetween).
        split; [reflexivity|]. split; [lia|]. split; [exact Hon|].
        intros j Hj. destruct (Z.eq_dec j (lo - 1)) as [->|Hne]; [exact Hg|].
        apply Hbetween. lia.
      * discriminate.
Qed.

(** The upward scan stops at the lowest taken index from [first_taken] on,
    and changes nothing. *)
Lemma scan_up_Ok (fuel : nat) (first_taken : Z) (w w' : world) (r : Z) :
  0 <= first_taken <= max_cpu_count ->
  scan_up fuel first_taken w = Ok r w' ->
  w' = w /\ first_taken <= r < max_cpu_count /\
  array_get (cpus_taken (regs w)) r = Some true /\
  forall j, first_taken <= j < r ->
            array_get (cpus_taken (regs w)) j = Some false.
Proof.
  revert first_taken. induction fuel as [|fuel IH]; intros ft Hft H.
  - discriminate.
  - simpl in H. unfold bind in H. simpl in H.
    destruct (array_get (cpus_taken (regs w)) ft) as [[|]|] eqn:Hg.
    + injection H as <- <-.
      pose proof (proj1 (array_get_Some _ _ _) Hg) as [Hr _].
      split; [reflexivity|]. split; [lia|]. split; [exact Hg|].
      intros j Hj. lia.
    + pose proof (proj1 (array_get_Some _ _ _) Hg) as [Hr _].
      rewrite uint_small in H by (rewrite max_cpu_count_eq in Hr; lia).
      apply IH in H; [|lia]. destruct H as (-> & Hr' & Hon & Hbetween).
      split; [reflexivity|]. split; [lia|]. split; [exact Hon|].
      intros j Hj. destruct (Z.eq_dec j ft) as [->|Hne]; [exact Hg|].
      apply Hbetween. lia.
    + discriminate.
Qed.

(** Invariant rule for the first loop. *)
Lemma take_loop_rule (P : Z -> Z -> world -> Prop) (ncpus : Z) :
  (forall n lo w cpu w',
      P n lo w -> 0 <= n < ncpus -> 0 <= lo <= max_cpu_count ->
      take_step w lo cpu w' -> P (n + 1) cpu w') ->
  forall fuel n lo w r w',
    0 <= lo <= max_cpu_count -> 0 <= n -> ncpus < 4294967296 ->
    P n lo w ->
    take_loop env fuel ncpus n lo w = Ok r w' ->
    exists lo', 0 <= lo' <= max_cpu_count /\ P r lo' w' /\ r = Z.max n ncpus.
Proof.
  intros Hstep. induction fuel as [|fuel IH]; intros n lo w r w' Hlo Hn Hnc HP H.
  - discriminate.
  - rewrite take_loop_S in H. destruct (n <? ncpus) eqn:Hlt.
    + apply Z.ltb_lt in Hlt.
      apply bind_Ok in H as (cpu & w1 & Hscan & H).
      apply scan_down_Ok in Hscan as (-> & Hcpu & Hon & Hbetween); [|exact Hlo].
      apply bind_Ok in H as (u & w2 & Hz & H).
      destruct (cpu =? 0) eqn:Hz0; [discriminate|].
      injection Hz as _ <-. apply Z.eqb_neq in Hz0.
      apply bind_Ok in H as (u' & w3 & Htake & H).
      apply take_cpu_Ok in Htake as ->.
      rewrite uint_small in H by lia.
      apply IH in H; try lia.
      * destruct H as (lo' & Hlo' & HP' & ->). exists lo'.
        split; [lia|]. split; [exact HP' | lia].
      * apply (Hstep n lo w cpu); try assumption; try lia.
        unfold take_step. split; [lia|]. split; [exact Hon|].
        split; [exact Hbetween | reflexivity].
    + injection H as <- <-. apply Z.ltb_ge in Hlt. exists lo.
      split; [lia|]. split; [exact HP | lia].
Qed.

(** Invariant rule for the second loop. *)
Lemma release_loop_rule (P : Z -> Z -> world -> Prop) (ncpus : Z) :
  (forall n ft w cpu w',
      P n ft w -> ncpus < n -> 0 <= ft <= max_cpu_count ->
      release_step w ft cpu w' ->
      P ((n - 1) mod UINT_MODULUS) (cpu + 1) w') ->
  forall fuel n ft w r w',
    0 <= ft <= max_cpu_count ->
    P n ft w ->
    release_loop env fuel ncpus n ft w = Ok r w' ->
    exists ft', 0 <= ft' <= max_cpu_count /\ P r ft' w' /\ r <= ncpus.
Proof.
  intros Hstep. induction fuel as [|fuel IH]; intros n ft w r w' Hft HP H.
  - discriminate.
  - rewrite release_loop_S in H. destruct (n >? ncpus) eqn:Hgt.
    + apply Z.gtb_lt in Hgt.
      apply bind_Ok in H as (cpu & w1 & Hscan & H).
      apply scan_up_Ok in Hscan as (-> & Hcpu & Hon & Hbetween); [|exact Hft].
      apply bind_Ok in H as (u' & w3 & Hrel & H).
      apply release_cpu_Ok in Hrel as ->.
      rewrite (uint_small (cpu + 1)) in H by (rewrite max_cpu_count_eq in Hcpu; lia).
      apply IH in H; [exact H | lia |].
      apply (Hstep n ft w cpu); try assumption.
      unfold release_step. split; [lia|]. split; [exact Hon|].
      split; [exact Hbetween | reflexivity].
    + injection H as <- <-. exists ft.
      assert (n <= ncpus) by (destruct (Z.gtb_spec n ncpus); [discriminate | lia]).
      split; [lia|]. split; [exact HP | lia].
Qed.

Lemma adjust_cpus_Ok (ncpus : Z) (w w' : world) (u : unit) :
  adjust_cpus env ncpus w = Ok u w' ->
  count_cpu_set (cpus_taken (regs w)) = wastebin_cpus_taken (regs w) /\
  exists r1 w1 r2 w2,
    take_loop env loop_fuel ncpus (count_cpu_set (cpus_taken (regs w)))
      max_cpu_count (announced ncpus w) = Ok r1 w1 /\
    release_loop env loop_fuel ncpus r1 0 w1 = Ok r2 w2 /\
    w' = World (with_cpus_taken (regs w2) ncpus) (trace w2 ++ [shown_taken w2]).
Proof.
  unfold adjust_cpus. intros H.
  apply bind_Ok in H as (s & w0 & Hget & H). injection Hget as <- <-.
  apply bind_Ok in H as (u0 & w0 & Hchk & H).
  destruct (count_cpu_set (cpus_taken (regs w)) =? wastebin_cpus_taken (regs w))
    eqn:Heq; simpl in Hchk; [|discriminate].
  injection Hchk as _ <-. apply Z.eqb_eq in Heq. split; [exact Heq|].
  apply bind_Ok in H as (u1 & w1 & Hann & H).
  assert (w1 = announced ncpus w) as ->.
  { unfold announced. destruct (negb _); simpl in Hann; injection Hann as _ <-; reflexivity. }
  apply bind_Ok in H as (r1 & w2 & Htake & H).
  apply bind_Ok in H as (r2 & w3 & Hrel & H).
  exists r1, w2, r2, w3. repeat split; try assumption.
  unfold bind in H; simpl in H. injection H as _ <-. reflexivity.
Qed.

End Steps.

(** ** Consistency of the registries *)

Lemma array_get_set_false (a : list bool) (i j : Z) :
  array_get (array_set a i false) j = Some true ->
  i <> j /\ array_get a j = Some true.
Proof.
  intros H. pose proof (proj1 (array_get_Some _ _ _) H) as [Hj Hl].
  unfold array_set in Hl.
  destruct (decide (Z.to_nat i = Z.to_nat j)) as [Heq|Hne].
  - rewrite Heq in Hl. apply list_lookup_insert_Some in Hl.
    destruct Hl as [(_ & Hl & _) | (Hl & _)]; [discriminate | congruence].
  - rewrite list_lookup_insert_ne in Hl by exact Hne.
    split; [intros ->; congruence|]. apply array_get_Some. split; assumption.
Qed.

Lemma array_get_set_true (a : list bool) (i j : Z) :
  0 <= i -> array_get (array_set a i true) j = Some true ->
  i = j \/ array_get a j = Some true.
Proof.
  intros Hi H. destruct (Z.eq_dec i j) as [Heq|Hne]; [left; exact Heq|right].
  pose proof (proj1 (array_get_Some _ _ _) H) as [Hj _].
  rewrite array_get_set_ne in H; [exact H | lia | lia | exact Hne].
Qed.

Lemma well_sized_taken_state (s : state) (cpu : Z) :
  well_sized s -> well_sized (taken_state s cpu).
Proof.
  intros [H1 H2]. split; simpl; rewrite array_set_length; assumption.
Qed.

Lemma well_sized_released_state (s : state) (cpu : Z) :
  well_sized s -> well_sized (released_state s cpu).
Proof.
  intros [H1 H2]. split; simpl; rewrite array_set_length; assumption.
Qed.

Lemma disjoint_taken_state (s : state) (cpu : Z) :
  0 <= cpu -> disjoint_sets s -> disjoint_sets (taken_state s cpu).
Proof.
  intros Hcpu Hd i [Hon Htk]. unfold is_online, is_taken in *. simpl in *.
  apply array_get_set_false in Hon as [Hne Hon].
  apply array_get_set_true in Htk as [Heq|Htk]; [congruence | | exact Hcpu].
  apply (Hd i). split; assumption.
Qed.

Lemma disjoint_released_state (s : state) (cpu : Z) :
  0 <= cpu -> disjoint_sets s -> disjoint_sets (released_state s cpu).
Proof.
  intros Hcpu Hd i [Hon Htk]. unfold is_online, is_taken in *. simpl in *.
  apply array_get_set_false in Htk as [Hne Htk].
  apply array_get_set_true in Hon as [Heq|Hon]; [congruence | | exact Hcpu].
  apply (Hd i). split; assumption.
Qed.

(** ** [adjust_memory] *)

Section Memory.
Variable env : environment.

Lemma adjust_memory_Ok (membytes : Z) (w w' : world) (u : unit) :
  adjust_memory env membytes w = Ok u w' ->
  w' = World (with_memory_taken (regs w) membytes)
         (trace w ++ memory_events (regs w) membytes).
Proof.
  unfold adjust_memory, memory_events, bind; simpl.
  destruct (wastebin_memory_taken (regs w) <? membytes) eqn:Hlt; simpl.
  - destruct (mlock env _ _ _); simpl; [|discriminate].
    intros H. injection H as _ <-. rewrite <- !app_assoc. reflexivity.
  - destruct (wastebin_memory_taken (regs w) >? membytes) eqn:Hgt; simpl.
    + intros H. injection H as _ <-. rewrite <- !app_assoc. reflexivity.
    + intros H. injection H as _ <-.
      assert (wastebin_memory_taken (regs w) = membytes) as Heq.
      { apply Z.ltb_ge in Hlt.
        destruct (Z.gtb_spec (wastebin_memory_taken (regs w)) membytes);
          [discriminate | lia]. }
      unfold with_memory_taken. rewrite <- Heq.
      destruct w as [[? ? ? ? ?] ?]; simpl. rewrite <- app_assoc. reflexivity.
Qed.

Lemma adjust_memory_succeeds (membytes : Z) (w : world) :
  (forall t o l, mlock env t o l = MlockOk) ->
  adjust_memory env membytes w =
  Ok tt (World (with_memory_taken (regs w) membytes)
           (trace w ++ memory_events (regs w) membytes)).
Proof.
  intros Hok.
  destruct (adjust_memory env membytes w) as [[] w'| | |] eqn:H.
  - apply adjust_memory_Ok in H. rewrite H. reflexivity.
  - exfalso. revert H. unfold adjust_memory, bind; simpl.
    destruct (_ <? _); simpl; [rewrite Hok; discriminate|].
    destruct (_ >? _); discriminate.
  - exfalso. revert H. unfold adjust_memory, bind; simpl.
    destruct (_ <? _); simpl; [rewrite Hok; discriminate|].
    destruct (_ >? _); discriminate.
  - exfalso. revert H. unfold adjust_memory, bind; simpl.
    destruct (_ <? _); simpl; [rewrite Hok; discriminate|].
    destruct (_ >? _); discriminate.
Qed.

End Memory.

(** ** What a completed [adjust_cpus] establishes *)

#[local] Opaque loop_fuel.

Lemma loop_fuel_S : loop_fuel = S (Z.to_nat max_cpu_count).
Proof. reflexivity. Qed.

Lemma counted_taken_state (n : Z) (s : state) (cpu : Z) :
  0 <= cpu < max_cpu_count -> is_online s cpu ->
  counted n s -> counted (n + 1) (taken_state s cpu).
Proof.
  intros Hcpu Hon (Hsz & Hd & Hc).
  split; [apply well_sized_taken_state; exact Hsz|].
  split; [apply disjoint_taken_state; [lia | exact Hd]|].
  destruct (array_get_in (cpus_taken s) cpu (proj2 Hsz) Hcpu) as [b Hb].
  destruct b; [exfalso; apply (Hd cpu); split; assumption|].
  simpl. rewrite (count_array_set _ _ _ _ Hb). simpl. lia.
Qed.

Lemma counted_released_state (n : Z) (s : state) (cpu : Z) :
  0 <= cpu < max_cpu_count -> is_taken s cpu ->
  counted n s -> counted (n - 1) (released_state s cpu).
Proof.
  intros Hcpu Htk (Hsz & Hd & Hc).
  split; [apply well_sized_released_state; exact Hsz|].
  split; [apply disjoint_released_state; [lia | exact Hd]|].
  simpl. rewrite (count_array_set _ _ _ _ Htk). simpl. lia.
Qed.

Section Postconditions.
Variable env : environment.

Lemma take_loop_counted (ncpus n : Z) (w w' : world) (r : Z) (s0 : state) :
  0 <= n -> ncpus < 4294967296 ->
  counted n (regs w) -> same_ledger s0 (regs w) ->
  take_loop env loop_fuel ncpus n max_cpu_count w = Ok r w' ->
  counted r (regs w') /\ same_ledger s0 (regs w') /\ r = Z.max n ncpus.
Proof.
  intros Hn Hnc Hc Hl H.
  apply (take_loop_rule env
           (fun n _ w => counted n (regs w) /\ same_ledger s0 (regs w)))
    in H; try assumption; try (rewrite max_cpu_count_eq; lia).
  - destruct H as (lo' & _ & [Hc' Hl'] & Hr). auto.
  - clear. intros n lo w cpu w' [Hc Hl] Hn Hlo (Hcpu & Hon & _ & ->).
    split; [|exact Hl]. simpl. apply counted_taken_state; [lia | exact Hon | exact Hc].
  - split; assumption.
Qed.

Lemma release_loop_counted (ncpus n : Z) (w w' : world) (r : Z) (s0 : state) :
  0 <= ncpus <= n ->
  counted n (regs w) -> same_ledger s0 (regs w) ->
  release_loop env loop_fuel ncpus n 0 w = Ok r w' ->
  counted r (regs w') /\ same_ledger s0 (regs w') /\ r = ncpus.
Proof.
  intros Hnc Hc Hl H.
  apply (release_loop_rule env
           (fun n _ w => counted n (regs w) /\ same_ledger s0 (regs w) /\
                         ncpus <= n))
    in H; try (rewrite max_cpu_count_eq; lia).
  - destruct H as (ft' & _ & (Hc' & Hl' & Hge) & Hr).
    split; [exact Hc'|]. split; [exact Hl' | lia].
  - clear -Hnc. intros m ft w0 cpu w1 (Hc & Hl & Hge) Hn Hft (Hcpu & Htk & _ & ->).
    pose proof (count_cpu_set_bounds (cpus_taken (regs w0))) as Hb.
    destruct Hc as (Hsz & Hd & Hcnt).
    rewrite (proj2 Hsz), max_cpu_count_eq, Hcnt in Hb.
    rewrite uint_small by lia.
    split; [|split; [exact Hl | lia]]. simpl.
    apply counted_released_state; [lia | exact Htk |].
    split; [exact Hsz|]. split; [exact Hd | exact Hcnt].
  - split; [exact Hc|]. split; [exact Hl | lia].
Qed.

Lemma counted_announced (ncpus n : Z) (w : world) :
  counted n (regs w) -> counted n (regs (announced ncpus w)).
Proof. unfold announced. destruct (negb _); intros H; exact H. Qed.

Lemma adjust_cpus_post (ncpus : Z) (w w' : world) (u : unit) :
  0 <= ncpus < 4294967296 ->
  well_sized (regs w) -> disjoint_sets (regs w) ->
  adjust_cpus env ncpus w = Ok u w' ->
  counted ncpus (regs w') /\ wastebin_cpus_taken (regs w') = ncpus /\
  same_ledger (regs w) (regs w').
Proof.
  intros Hnc Hsz Hd H.
  apply adjust_cpus_Ok in H as (Hcnt & r1 & w1 & r2 & w2 & Htake & Hrel & ->).
  pose proof (count_cpu_set_bounds (cpus_taken (regs w))) as Hb.
  rewrite (proj2 Hsz), max_cpu_count_eq in Hb.
  apply (take_loop_counted _ _ _ _ _ (regs w)) in Htake; try lia.
  - destruct Htake as (Hc1 & Hl1 & ->).
    apply (release_loop_counted _ _ _ _ _ (regs w)) in Hrel; try lia; try assumption.
    destruct Hrel as (Hc2 & Hl2 & ->). simpl.
    split; [exact Hc2|]. split; [reflexivity | exact Hl2].
  - apply counted_announced. split; [exact Hsz|]. split; [exact Hd | reflexivity].
  - unfold announced. destruct (negb _); split; reflexivity.
Qed.

(** Given the two loops, [adjust_cpus] returns. *)
Lemma adjust_cpus_run (ncpus : Z) (w w1 w2 : world) (r1 r2 : Z) :
  count_cpu_set (cpus_taken (regs w)) = wastebin_cpus_taken (regs w) ->
  take_loop env loop_fuel ncpus (count_cpu_set (cpus_taken (regs w)))
    max_cpu_count (announced ncpus w) = Ok r1 w1 ->
  release_loop env loop_fuel ncpus r1 0 w1 = Ok r2 w2 ->
  adjust_cpus env ncpus w =
  Ok tt (World (with_cpus_taken (regs w2) ncpus) (trace w2 ++ [shown_taken w2])).
Proof.
  intros Hcnt Htake Hrel. unfold adjust_cpus, bind; simpl.
  rewrite <- Hcnt, Z.eqb_refl; simpl.
  assert ((if negb (ncpus =? count_cpu_set (cpus_taken (regs w)))
           then print Stdout (MsgAdjustCpus ncpus) else ret tt) w
          = Ok tt (announced ncpus w)) as ->.
  { unfold announced. destruct (negb _); reflexivity. }
  rewrite Htake, Hrel. reflexivity.
Qed.

(** When [Taken] already has [ncpus] members, [adjust_cpus] only reports. *)
Lemma adjust_cpus_noop (ncpus : Z) (w : world) :
  count_cpu_set (cpus_taken (regs w)) = ncpus ->
  wastebin_cpus_taken (regs w) = ncpus ->
  adjust_cpus env ncpus w = Ok tt (logged w [shown_taken w]).
Proof.
  intros Hc Hw.
  assert (announced ncpus w = w) as Hann.
  { unfold announced. rewrite Hc, Z.eqb_refl. reflexivity. }
  rewrite (adjust_cpus_run ncpus w w w ncpus ncpus).
  - unfold logged, with_cpus_taken. rewrite <- Hw.
    destruct w as [[? ? ? ? ?] ?]; reflexivity.
  - congruence.
  - rewrite Hann, Hc, loop_fuel_S, take_loop_S, Z.ltb_irrefl. reflexivity.
  - rewrite loop_fuel_S, release_loop_S.
    assert ((ncpus >? ncpus) = false) as -> by (destruct (Z.gtb_spec ncpus ncpus); [lia | reflexivity]).
    reflexivity.
Qed.

End Postconditions.

(** ** When the loops of [adjust_cpus] run to completion *)

Lemma online_above_zero_all (a : list bool) :
  length a = Z.to_nat max_cpu_count ->
  online_above_zero a max_cpu_count = count_cpu_set (drop 1 a).
Proof.
  intros Hlen. unfold online_above_zero.
  rewrite firstn_all2 by (rewrite Hlen; lia). reflexivity.
Qed.

Lemma online_above_zero_low (a : list bool) (k : Z) :
  k <= 1 -> online_above_zero a k = 0.
Proof.
  intros Hk. unfold online_above_zero.
  destruct (Z.to_nat k) as [|[|n]] eqn:E; try lia.
  - rewrite take_0. reflexivity.
  - destruct a as [|x a]; reflexivity.
Qed.

Lemma online_above_zero_step (a : list bool) (k : Z) (b : bool) :
  1 <= k -> a !! Z.to_nat k = Some b ->
  online_above_zero a (k + 1) = online_above_zero a k + Z.b2z b.
Proof.
  intros Hk Hb. unfold online_above_zero.
  replace (Z.to_nat (k + 1)) with (S (Z.to_nat k)) by lia.
  rewrite (take_S_r _ _ _ Hb).
  rewrite drop_app_le.
  - rewrite count_cpu_set_app, count_cpu_set_cons, count_cpu_set_nil. lia.
  - rewrite length_take. apply lookup_lt_Some in Hb. lia.
Qed.

Lemma online_above_zero_set (a : list bool) (k : Z) (b : bool) :
  0 <= k ->
  online_above_zero (array_set a k b) k = online_above_zero a k.
Proof.
  intros Hk. unfold online_above_zero, array_set.
  rewrite take_insert_ge by lia. reflexivity.
Qed.

Section Progress.
Variable env : environment.
Hypothesis toggles_succeed : forall t c b, cpu_toggle env t c b = ToggleWrote 1.

Lemma scan_down_finds (fuel : nat) (lo : Z) (w : world) :
  length (cpus_online (regs w)) = Z.to_nat max_cpu_count ->
  0 <= lo <= max_cpu_count -> (Z.to_nat lo < fuel)%nat ->
  1 <= online_above_zero (cpus_online (regs w)) lo ->
  exists r, scan_down fuel lo w = Ok r w /\ 0 < r < lo /\
            online_above_zero (cpus_online (regs w)) r =
            online_above_zero (cpus_online (regs w)) lo - 1.
Proof.
  intros Hlen. revert lo.
  induction fuel as [|fuel IH]; intros lo Hlo Hfuel Hcount; [lia|].
  destruct (Z_le_gt_dec lo 1) as [Hle|Hgt].
  { rewrite online_above_zero_low in Hcount by exact Hle. lia. }
  simpl. unfold bind; simpl.
  rewrite uint_small by (rewrite max_cpu_count_eq in Hlo; lia).
  destruct (array_get_in (cpus_online (regs w)) (lo - 1) Hlen) as [b Hb]; [lia|].
  rewrite Hb.
  pose proof (proj2 (proj1 (array_get_Some _ _ _) Hb)) as Hl.
  pose proof (online_above_zero_step _ (lo - 1) b ltac:(lia) Hl) as Hstep.
  replace (lo - 1 + 1) with lo in Hstep by lia.
  destruct b; simpl in Hstep.
  - exists (lo - 1). split; [reflexivity|]. split; lia.
  - destruct (IH (lo - 1)) as (r & Hr & Hrange & Hcnt); try lia.
    exists r. split; [exact Hr|]. split; lia.
Qed.

Lemma take_loop_succeeds (fuel : nat) (ncpus n lo : Z) (w : world) :
  length (cpus_online (regs w)) = Z.to_nat max_cpu_count ->
  0 <= lo <= max_cpu_count -> 0 <= n -> ncpus < 4294967296 ->
  ncpus - n <= online_above_zero (cpus_online (regs w)) lo ->
  (Z.to_nat (ncpus - n) < fuel)%nat ->
  exists r w', take_loop env fuel ncpus n lo w = Ok r w'.
Proof.
  revert n lo w.
  induction fuel as [|fuel IH]; intros n lo w Hlen Hlo Hn Hnc Hcount Hfuel; [lia|].
  rewrite take_loop_S. destruct (n <? ncpus) eqn:Hlt.
  - apply Z.ltb_lt in Hlt.
    destruct (scan_down_finds loop_fuel lo w Hlen Hlo) as (r & Hr & Hrange & Hcnt).
    { rewrite loop_fuel_S. lia. }
    { lia. }
    unfold bind at 1. rewrite Hr.
    unfold bind at 1. destruct (r =? 0) eqn:Hz; [apply Z.eqb_eq in Hz; lia|].
    unfold ret at 1.
    unfold bind at 1. rewrite take_cpu_succeeds by apply toggles_succeed.
    rewrite uint_small by lia.
    apply IH; simpl; try lia.
    + rewrite array_set_length. exact Hlen.
    + rewrite online_above_zero_set by lia. lia.
  - exists n, w. reflexivity.
Qed.

Lemma scan_up_finds (fuel : nat) (ft : Z) (w : world) :
  length (cpus_taken (regs w)) = Z.to_nat max_cpu_count ->
  0 <= ft <= max_cpu_count -> (Z.to_nat (max_cpu_count - ft) < fuel)%nat ->
  1 <= count_cpu_set (drop (Z.to_nat ft) (cpus_taken (regs w))) ->
  exists r, scan_up fuel ft w = Ok r w /\ ft <= r < max_cpu_count /\
            count_cpu_set (drop (Z.to_nat (r + 1)) (cpus_taken (regs w))) =
            count_cpu_set (drop (Z.to_nat ft) (cpus_taken (regs w))) - 1.
Proof.
  intros Hlen. revert ft.
  induction fuel as [|fuel IH]; intros ft Hft Hfuel Hcount; [lia|].
  destruct (Z.eq_dec ft max_cpu_count) as [->|Hne].
  { rewrite drop_ge in Hcount by (rewrite Hlen; lia).
    rewrite count_cpu_set_nil in Hcount. lia. }
  simpl. unfold bind; simpl.
  destruct (array_get_in (cpus_taken (regs w)) ft Hlen) as [b Hb]; [lia|].
  rewrite Hb.
  pose proof (proj2 (proj1 (array_get_Some _ _ _) Hb)) as Hl.
  rewrite (drop_S _ _ _ Hl), count_cpu_set_cons in Hcount.
  replace (S (Z.to_nat ft)) with (Z.to_nat (ft + 1)) in Hcount by lia.
  destruct b; simpl in Hcount.
  - exists ft. split; [reflexivity|]. split; [lia|].
    rewrite (drop_S _ _ _ Hl), count_cpu_set_cons.
    replace (S (Z.to_nat ft)) with (Z.to_nat (ft + 1)) by lia. simpl. lia.
  - rewrite uint_small by (rewrite max_cpu_count_eq in Hft; lia).
    destruct (IH (ft + 1)) as (r & Hr & Hrange & Hcnt); try lia.
    exists r. split; [exact Hr|]. split; [lia|].
    rewrite Hcnt, (drop_S _ _ _ Hl), count_cpu_set_cons.
    replace (S (Z.to_nat ft)) with (Z.to_nat (ft + 1)) by lia. simpl. lia.
Qed.

Lemma release_loop_succeeds (fuel : nat) (ncpus n ft : Z) (w : world) :
  length (cpus_taken (regs w)) = Z.to_nat max_cpu_count ->
  0 <= ft <= max_cpu_count -> 0 <= ncpus -> n < 4294967296 ->
  n - ncpus <= count_cpu_set (drop (Z.to_nat ft) (cpus_taken (regs w))) ->
  (Z.to_nat (n - ncpus) < fuel)%nat ->
  exists r w', release_loop env fuel ncpus n ft w = Ok r w'.
Proof.
  revert n ft w.
  induction fuel as [|fuel IH]; intros n ft w Hlen Hft Hnc Hn Hcount Hfuel; [lia|].
  rewrite release_loop_S. destruct (n >? ncpus) eqn:Hgt.
  - apply Z.gtb_lt in Hgt.
    destruct (scan_up_finds loop_fuel ft w Hlen Hft) as (r & Hr & Hrange & Hcnt).
    { rewrite loop_fuel_S. lia. }
    { lia. }
    unfold bind at 1. rewrite Hr.
    unfold bind at 1. rewrite release_cpu_succeeds by apply toggles_succeed.
    rewrite !uint_small by (rewrite max_cpu_count_eq in Hrange; lia).
    apply IH; simpl; try lia.
    + rewrite array_set_length. exact Hlen.
    + unfold array_set. rewrite drop_insert_lt by lia. lia.
  - exists n, w. reflexivity.
Qed.

End Progress.

(** ** One convergence iteration *)

Lemma apply_desired_Ok (env : environment) (d : desired_state)
    (w w' : world) (u : unit) :
  apply_desired env d w = Ok u w' ->
  exists w1,
    adjust_cpus env (cpus d mod UINT_MODULUS) (announced_target d w) = Ok tt w1 /\
    adjust_memory env (membytes d) w1 = Ok tt w'.
Proof.
  unfold apply_desired. intros H.
  apply bind_Ok in H as ([] & w0 & Hp & H). injection Hp as <-.
  apply bind_Ok in H as ([] & w1 & Hc & H).
  exists w1. destruct u. split; assumption.
Qed.

Lemma apply_desired_run (env : environment) (d : desired_state)
    (w w1 w' : world) :
  adjust_cpus env (cpus d mod UINT_MODULUS) (announced_target d w) = Ok tt w1 ->
  adjust_memory env (membytes d) w1 = Ok tt w' ->
  apply_desired env d w = Ok tt w'.
Proof.
  intros Hc Hm. unfold apply_desired.
  unfold bind at 1. unfold print, emit at 1.
  fold (logged w [EvPrint Stdout (MsgDisabling (cpus d) (membytes d))]).
  fold (announced_target d w).
  unfold bind at 1. rewrite Hc. exact Hm.
Qed.

Lemma uint_range (x : Z) : 0 <= x mod UINT_MODULUS < 4294967296.
Proof. apply Z.mod_pos_bound. reflexivity. Qed.

(** What an iteration establishes when it completes. *)
Lemma apply_desired_post (env : environment) (d : desired_state)
    (w w' : world) (u : unit) :
  well_sized (regs w) -> disjoint_sets (regs w) ->
  apply_desired env d w = Ok u w' ->
  counted (cpus d mod UINT_MODULUS) (regs w') /\
  wastebin_cpus_taken (regs w') = cpus d mod UINT_MODULUS /\
  wastebin_memory_taken (regs w') = membytes d /\
  wastebin_max_size (regs w') = wastebin_max_size (regs w).
Proof.
  intros Hsz Hd H.
  apply apply_desired_Ok in H as (w1 & Hc & Hm).
  apply adjust_cpus_post in Hc as (Hcnt & Hctr & Hmax & Hmem);
    [|apply uint_range | exact Hsz | exact Hd].
  apply adjust_memory_Ok in Hm as ->. simpl.
  split; [exact Hcnt|]. split; [exact Hctr|]. split; [reflexivity | exact Hmax].
Qed.

(** ** C7: the registries stay disjoint *)

Lemma adjust_cpus_disjoint (env : environment) (ncpus : Z) (w w' : world)
    (u : unit) :
  0 <= ncpus < UINT_MODULUS ->
  disjoint_sets (regs w) ->
  adjust_cpus env ncpus w = Ok u w' ->
  disjoint_sets (regs w').
Proof.
  intros Hnc Hd H. change UINT_MODULUS with 4294967296 in Hnc.
  apply adjust_cpus_Ok in H as (Hcnt & r1 & w1 & r2 & w2 & Htake & Hrel & ->).
  pose proof (count_cpu_set_bounds (cpus_taken (regs w))) as Hb.
  apply (take_loop_rule env (fun _ _ w => disjoint_sets (regs w))) in Htake;
    try lia; try (rewrite max_cpu_count_eq; lia).
  - destruct Htake as (lo & _ & Hd1 & _).
    apply (release_loop_rule env (fun _ _ w => disjoint_sets (regs w)))
      in Hrel; try (rewrite max_cpu_count_eq; lia).
    + destruct Hrel as (ft & _ & Hd2 & _). exact Hd2.
    + clear. intros n ft w cpu w' Hd Hlt Hft (Hcpu & _ & _ & ->).
      simpl. apply disjoint_released_state; [lia | exact Hd].
    + exact Hd1.
  - clear. intros n lo w cpu w' Hd Hn Hlo (Hcpu & _ & _ & ->).
    simpl. apply disjoint_taken_state; [lia | exact Hd].
  - unfold announced. destruct (negb _); exact Hd.
Qed.

(** C7: for every cpu index [i], after an adjustment that completes
    ([adjust_cpus] or [adjust_memory] returns), [i] is not a member of both
    [Online] and [Taken], provided the two were disjoint when the adjustment
    began. *)
Theorem adjustment_keeps_sets_disjoint (env : environment)
    (ncpus membytes : Z) (w w' : world) :
  0 <= ncpus < UINT_MODULUS ->
  disjoint_sets (regs w) ->
  adjust_cpus env ncpus w = Ok tt w' \/ adjust_memory env membytes w = Ok tt w' ->
  forall i, ~ (is_online (regs w') i /\ is_taken (regs w') i).
Proof.
  intros Hnc Hd [H|H].
  - exact (adjust_cpus_disjoint env ncpus w w' tt Hnc Hd H).
  - apply adjust_memory_Ok in H as ->. exact Hd.
Qed.

(** ** Sample machines *)

Lemma no_cpus_length : length no_cpus = Z.to_nat max_cpu_count.
Proof. unfold no_cpus. apply length_replicate. Qed.

Lemma cpu_set_length (members : list Z) :
  length (cpu_set members) = Z.to_nat max_cpu_count.
Proof.
  unfold cpu_set. generalize no_cpus_length. generalize no_cpus.
  induction members as [|i members IH]; intros a Ha; simpl; [exact Ha|].
  apply IH. rewrite array_set_length. exact Ha.
Qed.

Lemma no_cpus_get (i : Z) : array_get no_cpus i <> Some true.
Proof.
  intros H. apply array_get_Some in H as [_ H].
  unfold no_cpus in H. apply lookup_replicate in H as [H _]. discriminate.
Qed.

Lemma machine_consistent (online : list Z) (max_size : Z) :
  0 <= max_size -> consistent (regs (machine online max_size)).
Proof.
  intros Hm. split; [|split; [|split]]; simpl.
  - split; simpl; [apply cpu_set_length | apply no_cpus_length].
  - intros i [_ H]. exact (no_cpus_get i H).
  - apply count_cpu_set_replicate.
  - lia.
Qed.

Lemma eight_cpus_consistent : consistent (regs eight_cpus).
Proof. apply machine_consistent. apply Z.pow_nonneg. lia. Qed.

Lemma adjustment_keeps_sets_disjoint_witness :
  exists w', adjust_cpus env_ok 2 eight_cpus = Ok tt w' /\
             forall i, ~ (is_online (regs w') i /\ is_taken (regs w') i).
Proof.
  assert (exists w', adjust_cpus env_ok 2 eight_cpus = Ok tt w') as [w' H]
    by (vm_compute; eexists; reflexivity).
  exists w'. split; [exact H|].
  apply (adjustment_keeps_sets_disjoint env_ok 2 0 eight_cpus w').
  - split; [lia | reflexivity].
  - exact (proj1 (proj2 eight_cpus_consistent)).
  - left. exact H.
Defined.

(** ** C9: applying a target twice *)

(** C9: applying the same DesiredState a second time, right after an
    application of it completed, leaves [Online], [Taken] and
    [memory_taken] (the whole program state) as the first application left
    them, and issues no cpu toggle and no lock, unlock or discard: it only
    prints its reports and scans residency. *)
Theorem apply_desired_idempotent (env : environment) (d : desired_state)
    (w w1 : world) :
  well_sized (regs w) -> disjoint_sets (regs w) ->
  apply_desired env d w = Ok tt w1 ->
  exists w2 evs,
    apply_desired env d w1 = Ok tt w2 /\
    regs w2 = regs w1 /\
    trace w2 = trace w1 ++ evs /\
    Forall (fun e => is_transition e = false) evs.
Proof.
  intros Hsz Hd H.
  apply apply_desired_post in H as ((_ & _ & Hcnt) & Hctr & Hmem & _);
    [|exact Hsz | exact Hd].
  pose proof (adjust_cpus_noop env (cpus d mod UINT_MODULUS)
                (announced_target d w1) Hcnt Hctr) as Hc.
  pose proof (adjust_memory_succeeds env (membytes d)
                (logged (announced_target d w1) [shown_taken (announced_target d w1)]))
    as Hm.
  destruct (adjust_memory env (membytes d)
              (logged (announced_target d w1) [shown_taken (announced_target d w1)]))
    as [[] w2| | |] eqn:Hrun.
  2-4: exfalso; revert Hrun; unfold adjust_memory, bind; simpl;
       rewrite Hmem, Z.ltb_irrefl;
       (replace (membytes d >? membytes d) with false
          by (destruct (Z.gtb_spec (membytes d) (membytes d)); [lia | reflexivity]));
       discriminate.
  pose proof (adjust_memory_Ok _ _ _ _ _ Hrun) as ->.
  eexists. eexists.
  split; [exact (apply_desired_run env d w1 _ _ Hc Hrun)|].
  split.
  - simpl. unfold with_memory_taken. rewrite <- Hmem.
    destruct (regs w1); reflexivity.
  - split.
    + simpl. rewrite <- !app_assoc. reflexivity.
    + unfold memory_events. simpl. rewrite Hmem, Z.ltb_irrefl.
      replace (membytes d >? membytes d) with false
        by (destruct (Z.gtb_spec (membytes d) (membytes d)); [lia | reflexivity]).
      repeat constructor.
Qed.

Lemma apply_desired_idempotent_witness :
  exists w1 w2 evs,
    apply_desired env_ok (Desired (2 ^ 31) 2) eight_cpus = Ok tt w1 /\
    apply_desired env_ok (Desired (2 ^ 31) 2) w1 = Ok tt w2 /\
    regs w2 = regs w1 /\
    trace w2 = trace w1 ++ evs /\
    Forall (fun e => is_transition e = false) evs.
Proof.
  assert (exists w1, apply_desired env_ok (Desired (2 ^ 31) 2) eight_cpus = Ok tt w1)
    as [w1 H] by (vm_compute; eexists; reflexivity).
  destruct (apply_desired_idempotent env_ok (Desired (2 ^ 31) 2) eight_cpus w1)
    as (w2 & evs & H2).
  - exact (proj1 eight_cpus_consistent).
  - exact (proj1 (proj2 eight_cpus_consistent)).
  - exact H.
  - exists w1, w2, evs. split; [exact H | exact H2].
Defined.

(** ** C1: one convergence iteration reaches the target *)

Lemma regs_announced (ncpus : Z) (w : world) : regs (announced ncpus w) = regs w.
Proof. unfold announced. destruct (negb _); reflexivity. Qed.

Lemma adjust_cpus_succeeds (env : environment) (ncpus : Z) (w : world) :
  (forall t c b, cpu_toggle env t c b = ToggleWrote 1) ->
  well_sized (regs w) -> disjoint_sets (regs w) ->
  count_cpu_set (cpus_taken (regs w)) = wastebin_cpus_taken (regs w) ->
  0 <= ncpus <= count_cpu_set (cpus_taken (regs w)) + spare_cpus (regs w) ->
  exists w', adjust_cpus env ncpus w = Ok tt w'.
Proof.
  intros Hok Hsz Hd Hctr Hnc.
  pose proof (count_cpu_set_bounds (cpus_taken (regs w))) as Hb.
  pose proof (count_cpu_set_bounds (drop 1 (cpus_online (regs w)))) as Hb'.
  rewrite (proj2 Hsz) in Hb. rewrite length_drop, (proj1 Hsz) in Hb'.
  rewrite max_cpu_count_eq in Hb, Hb'. unfold spare_cpus in Hnc.
  destruct (take_loop_succeeds env Hok loop_fuel ncpus
              (count_cpu_set (cpus_taken (regs w))) max_cpu_count
              (announced ncpus w)) as (r1 & w1 & Htake).
  - rewrite regs_announced. exact (proj1 Hsz).
  - rewrite max_cpu_count_eq. lia.
  - lia.
  - lia.
  - rewrite regs_announced, online_above_zero_all by exact (proj1 Hsz). lia.
  - rewrite loop_fuel_S, max_cpu_count_eq. lia.
  - pose proof Htake as Hpost.
    apply (take_loop_counted env _ _ _ _ _ (regs w)) in Hpost;
      [ | lia | lia
        | exact (counted_announced ncpus _ w (conj Hsz (conj Hd eq_refl)))
        | rewrite regs_announced; split; reflexivity ].
    destruct Hpost as ((Hsz1 & Hd1 & Hc1) & _ & Hr1).
    destruct (release_loop_succeeds env Hok loop_fuel ncpus r1 0 w1)
      as (r2 & w2 & Hrel).
    + exact (proj2 Hsz1).
    + rewrite max_cpu_count_eq. lia.
    + lia.
    + lia.
    + simpl. rewrite drop_0. lia.
    + rewrite loop_fuel_S, max_cpu_count_eq. lia.
    + eexists. exact (adjust_cpus_run env ncpus w w1 w2 r1 r2 Hctr Htake Hrel).
Qed.

(** Targets within reach are reached. *)
Lemma apply_desired_converges (env : environment) (d : desired_state)
    (w : world) :
  all_succeed env -> consistent (regs w) ->
  0 <= cpus d <= count_cpu_set (cpus_taken (regs w)) + spare_cpus (regs w) ->
  0 <= membytes d <= wastebin_max_size (regs w) ->
  exists w',
    apply_desired env d w = Ok tt w' /\
    count_cpu_set (cpus_taken (regs w')) = cpus d /\
    wastebin_memory_taken (regs w') = membytes d /\
    consistent (regs w').
Proof.
  intros [Htog Hlock] (Hsz & Hd & Hctr & Hmem) Hcpus Hbytes.
  pose proof (count_cpu_set_bounds (cpus_taken (regs w))) as Hb.
  pose proof (count_cpu_set_bounds (drop 1 (cpus_online (regs w)))) as Hb'.
  rewrite (proj2 Hsz) in Hb. rewrite length_drop, (proj1 Hsz) in Hb'.
  rewrite max_cpu_count_eq in Hb, Hb'.
  assert (cpus d mod UINT_MODULUS = cpus d) as Hmod
    by (apply uint_small; unfold spare_cpus in Hcpus; lia).
  destruct (adjust_cpus_succeeds env (cpus d mod UINT_MODULUS)
              (announced_target d w) Htog Hsz Hd Hctr) as [w1 Hc].
  { rewrite Hmod. exact Hcpus. }
  pose proof (adjust_memory_succeeds env (membytes d) w1 Hlock) as Hm.
  pose proof (apply_desired_run env d w w1 _ Hc Hm) as Hrun.
  eexists. split; [exact Hrun|].
  apply apply_desired_post in Hrun as ((Hsz' & Hd' & Hcnt) & Hctr' & Hmem' & Hmax);
    [|exact Hsz | exact Hd].
  rewrite Hmod in Hcnt, Hctr'.
  split; [exact Hcnt|]. split; [exact Hmem'|].
  split; [exact Hsz'|]. split; [exact Hd'|].
  split; [congruence|]. rewrite Hmem', Hmax. exact Hbytes.
Qed.

Lemma env_ok_all_succeed : all_succeed env_ok.
Proof. split; reflexivity. Qed.

(** C1 as stated fails: with cpus 0 and 1 online, the target of 2 cpus is
    within [[0, number of online cpus]], every external operation succeeds,
    and the iteration exits with "can't exhaust online cpus" after taking
    cpu 1. *)
Lemma convergence_counterexample :
  all_succeed env_ok /\ consistent (regs two_cpus) /\
  0 <= 2 <= count_cpu_set (cpus_online (regs two_cpus)) /\
  0 <= 0 <= wastebin_max_size (regs two_cpus) /\
  exists w',
    apply_desired env_ok (Desired 0 2) two_cpus = Exit EXIT_FAILURE w' /\
    trace w' =
    [EvPrint Stdout (MsgDisabling 2 0); EvPrint Stdout (MsgAdjustCpus 2);
     EvSetCpu 1 false;
     EvPrint Stderr (MsgFailed "can't exhaust online cpus")].
Proof.
  split; [exact env_ok_all_succeed|].
  split; [apply machine_consistent; apply Z.pow_nonneg; lia|].
  split; [vm_compute; split; discriminate|].
  split; [vm_compute; split; discriminate|].
  vm_compute. eexists. split; reflexivity.
Qed.

(** ** C8: the downward scan *)

(** Once the scan has passed index 0 the unsigned index wraps to
    4294967295 and the next read is outside the array. *)
Lemma scan_down_below_zero (fuel : nat) (w : world) :
  scan_down (S fuel) 0 w = Undefined w.
Proof. reflexivity. Qed.

(** With no online cpu below [last_online], the scan runs off the array. *)
Lemma scan_down_runs_off (fuel : nat) (last_online : Z) (w : world) :
  0 <= last_online <= max_cpu_count -> (Z.to_nat last_online < fuel)%nat ->
  (forall j, 0 <= j < last_online ->
             array_get (cpus_online (regs w)) j = Some false) ->
  scan_down fuel last_online w = Undefined w.
Proof.
  revert last_online.
  induction fuel as [|fuel IH]; intros lo Hlo Hfuel Hoff; [lia|].
  destruct (Z.eq_dec lo 0) as [->|Hnz]; [apply scan_down_below_zero|].
  simpl. unfold bind; simpl.
  rewrite uint_small by (rewrite max_cpu_count_eq in Hlo; lia).
  rewrite (Hoff (lo - 1)) by lia.
  apply IH; [lia | lia |]. intros j Hj. apply Hoff. lia.
Qed.

(** C8 fails on the code: when no cpu is online (the inventory found
    none) and one cpu is to be taken, the scan passes index 0 without any
    fatal exit and reads [cpus_online] out of bounds. *)
Theorem take_scan_reads_out_of_bounds (env : environment) (max_size : Z) :
  adjust_cpus env 1 (initial_world max_size) =
  Undefined (logged (initial_world max_size) [EvPrint Stdout (MsgAdjustCpus 1)]).
Proof. vm_compute. reflexivity. Qed.

(** ** C3: a failed memory lock *)

(** C3 fails on the code: the value [mlock] returns on failure is -1, which
    is never [EPERM]; so whatever the cause in [errno], insufficient
    privilege included, [adjust_memory] exits with the generic diagnostic
    and the capability message is never printed. *)
Theorem mlock_failure_is_reported_as_generic (env : environment)
    (membytes errno : Z) (w : world) :
  wastebin_memory_taken (regs w) < membytes ->
  mlock env
    (trace w ++
     [EvPrint Stderr (MsgMlockCalled (membytes - wastebin_memory_taken (regs w)))])
    (wastebin_memory_taken (regs w))
    (membytes - wastebin_memory_taken (regs w)) = MlockError errno ->
  adjust_memory env membytes w =
  Exit EXIT_FAILURE
    (logged w (lock_failure_trace (regs w) membytes
                 "Can't lock the pages in memory
")).
Proof.
  intros Hlt Hfail. unfold adjust_memory, bind; simpl.
  apply Z.ltb_lt in Hlt. rewrite Hlt. simpl. rewrite Hfail. simpl.
  unfold logged, lock_failure_trace. rewrite <- !app_assoc. reflexivity.
Qed.

Lemma mlock_failure_is_reported_as_generic_witness :
  adjust_memory env_no_privilege 4096 eight_cpus =
  Exit EXIT_FAILURE
    (logged eight_cpus (lock_failure_trace (regs eight_cpus) 4096
                          "Can't lock the pages in memory
")).
Proof.
  apply (mlock_failure_is_reported_as_generic env_no_privilege 4096 EPERM
           eight_cpus).
  - reflexivity.
  - reflexivity.
Defined.

(** ** C10: the invocation that finds a daemon *)

(** C10: when [mkfifo] fails because the endpoint exists and the endpoint
    opens for writing, the invocation attempts one write of the
    DesiredState and exits with status 0, whatever [write] returned. *)
Theorem client_exits_with_success (fs : rendezvous_answers)
    (desired : desired_state) (w : world) :
  mkfifo fs = MkfifoError EEXIST ->
  0 <= open_wronly fs ->
  rendezvous fs desired w =
  Exit 0 (logged w [EvPipeWrite (membytes desired) (cpus desired)]).
Proof.
  intros Hmk Hfd. unfold rendezvous. rewrite Hmk. simpl.
  destruct (open_wronly fs >=? 0) eqn:Hge.
  - reflexivity.
  - exfalso. destruct (Z.geb_spec (open_wronly fs) 0); [discriminate | lia].
Qed.

Lemma client_exits_with_success_witness :
  write_nb stale_pipe < sizeof_desired /\
  rendezvous stale_pipe (Desired 4096 1) (World (initial_state 0) []) =
  Exit 0 (logged (World (initial_state 0) []) [EvPipeWrite 4096 1]).
Proof.
  split; [reflexivity|].
  apply (client_exits_with_success stale_pipe (Desired 4096 1)).
  - reflexivity.
  - discriminate.
Defined.

(** ** C2: waiting for the next target *)

Section Waiting.
Variable pipe : pipe_answers.

(** [poll_until_ready] returns only after a [poll] that reported [POLLIN],
    and changes nothing. *)
Lemma poll_until_ready_Ok (fuel : nat) (pos pos' : pipe_pos) (w w' : world) :
  poll_until_ready pipe fuel pos w = Ok pos' w' ->
  w' = w /\ reads pos' = reads pos /\ (polls pos < polls pos')%nat /\
  Z.land (poll_revents (pipe_poll pipe (pred (polls pos')))) POLLIN <> 0.
Proof.
  revert pos. induction fuel as [|fuel IH]; intros pos H; [discriminate|].
  simpl in H. unfold bind in H.
  destruct (poll_ec (pipe_poll pipe (polls pos)) <? 0); [discriminate|].
  simpl in H.
  destruct (Z.land (poll_revents (pipe_poll pipe (polls pos))) POLLIN =? 0) eqn:Hin.
  - apply IH in H as (-> & Hr & Hp & Hbit). simpl in *.
    split; [reflexivity|]. split; [exact Hr|]. split; [lia | exact Hbit].
  - injection H as <- <-. simpl. apply Z.eqb_neq in Hin.
    split; [reflexivity|]. split; [reflexivity|]. split; [lia | exact Hin].
Qed.

(** What the wait loop does with the result of one [read]. *)
Lemma wait_for_message_S (fuel : nat) (pos : pipe_pos) :
  wait_for_message pipe (S fuel) pos =
  let a := pipe_read pipe (reads pos) in
  let pos1 := PipePos (S (reads pos)) (polls pos) in
  if read_nb a =? sizeof_desired then ret (read_data a, pos1)
  else
    bind (if (read_nb a >? 0) ||
             ((read_nb a <? 0) && negb (read_errno a =? EAGAIN)) then
            bind (print Stderr (MsgPerror "debug")) (fun _ =>
            bind (print Stdout (MsgReadDebug (read_nb a) (read_errno a)))
              (fun _ => fail_exit "reading client command"))
          else ret tt) (fun _ =>
    bind (poll_until_ready pipe fuel pos1) (fun pos2 =>
    wait_for_message pipe fuel pos2)).
Proof. reflexivity. Qed.

(** A read of between 1 and 15 bytes ends the daemon. *)
Lemma short_read_is_fatal (fuel : nat) (pos : pipe_pos) (w : world) :
  0 < read_nb (pipe_read pipe (reads pos)) < sizeof_desired ->
  wait_for_message pipe (S fuel) pos w =
  Exit EXIT_FAILURE
    (logged w
       [EvPrint Stderr (MsgPerror "debug");
        EvPrint Stdout (MsgReadDebug (read_nb (pipe_read pipe (reads pos)))
                          (read_errno (pipe_read pipe (reads pos))));
        EvPrint Stderr (MsgFailed "reading client command")]).
Proof.
  intros [Hpos Hlt]. rewrite wait_for_message_S. simpl.
  destruct (Z.eqb_spec (read_nb (pipe_read pipe (reads pos))) sizeof_desired);
    [lia|].
  destruct (Z.gtb_spec (read_nb (pipe_read pipe (reads pos))) 0); [|lia].
  unfold bind, logged; simpl. rewrite <- !app_assoc. reflexivity.
Qed.

End Waiting.

(** The wait for readiness: polls that neither fail nor report readiness
    are repeated; the first poll that fails ends the daemon, the first one
    that reports readiness ends the wait. *)
Lemma poll_until_ready_fails (pipe : pipe_answers) (k : nat) :
  forall (fuel : nat) (pos : pipe_pos) (w : world),
    (k < fuel)%nat ->
    (forall j, (j < k)%nat -> idle_poll (pipe_poll pipe (polls pos + j))) ->
    poll_ec (pipe_poll pipe (polls pos + k)) < 0 ->
    poll_until_ready pipe fuel pos w =
    Exit EXIT_FAILURE
      (logged w [EvPrint Stderr (MsgFailed "polling named pipe")]).
Proof.
  induction k as [|k IH]; intros fuel pos w Hfuel Hidle Hfail;
    (destruct fuel as [|fuel]; [lia|]); cbn [poll_until_ready]; cbv zeta.
  - rewrite Nat.add_0_r in Hfail. unfold bind at 1.
    destruct (Z.ltb_spec (poll_ec (pipe_poll pipe (polls pos))) 0); [|lia].
    reflexivity.
  - destruct (Hidle 0%nat ltac:(lia)) as [Hec Hin].
    rewrite Nat.add_0_r in Hec, Hin. unfold bind at 1.
    destruct (Z.ltb_spec (poll_ec (pipe_poll pipe (polls pos))) 0); [lia|].
    unfold ret at 1. rewrite Hin. change (0 =? 0) with true. cbv iota.
    apply IH; cbn [polls]; [lia | |].
    + intros j Hj. replace (S (polls pos) + j)%nat with (polls pos + S j)%nat
        by lia. apply Hidle. lia.
    + replace (S (polls pos) + k)%nat with (polls pos + S k)%nat by lia.
      exact Hfail.
Qed.

Lemma poll_until_ready_returns (pipe : pipe_answers) (k : nat) :
  forall (fuel : nat) (pos : pipe_pos) (w : world),
    (k < fuel)%nat ->
    (forall j, (j < k)%nat -> idle_poll (pipe_poll pipe (polls pos + j))) ->
    0 <= poll_ec (pipe_poll pipe (polls pos + k)) ->
    Z.land (poll_revents (pipe_poll pipe (polls pos + k))) POLLIN <> 0 ->
    poll_until_ready pipe fuel pos w
    = Ok (PipePos (reads pos) (polls pos + S k)) w.
Proof.
  induction k as [|k IH]; intros fuel pos w Hfuel Hidle Hec Hready;
    (destruct fuel as [|fuel]; [lia|]); cbn [poll_until_ready]; cbv zeta.
  - rewrite Nat.add_0_r in Hec, Hready. unfold bind at 1.
    destruct (Z.ltb_spec (poll_ec (pipe_poll pipe (polls pos))) 0); [lia|].
    unfold ret at 1. apply Z.eqb_neq in Hready. rewrite Hready.
    unfold ret. do 2 f_equal. lia.
  - destruct (Hidle 0%nat ltac:(lia)) as [Hec0 Hin].
    rewrite Nat.add_0_r in Hec0, Hin. unfold bind at 1.
    destruct (Z.ltb_spec (poll_ec (pipe_poll pipe (polls pos))) 0); [lia|].
    unfold ret at 1. rewrite Hin. change (0 =? 0) with true. cbv iota.
    rewrite (IH fuel (PipePos (reads pos) (S (polls pos))) w); cbn [polls reads].
    + do 2 f_equal. lia.
    + lia.
    + intros j Hj. replace (S (polls pos) + j)%nat with (polls pos + S j)%nat
        by lia. apply Hidle. lia.
    + replace (S (polls pos) + k)%nat with (polls pos + S k)%nat by lia.
      exact Hec.
    + replace (S (polls pos) + k)%nat with (polls pos + S k)%nat by lia.
      exact Hready.
Qed.

Lemma empty_read_polls (pipe : pipe_answers) (fuel : nat) (pos : pipe_pos)
    (w : world) :
  empty_read (pipe_read pipe (reads pos)) ->
  wait_for_message pipe (S fuel) pos w =
  bind (poll_until_ready pipe fuel (PipePos (S (reads pos)) (polls pos)))
       (fun pos' => wait_for_message pipe fuel pos') w.
Proof.
  intros Hempty. rewrite wait_for_message_S. simpl.
  destruct (Z.eqb_spec (read_nb (pipe_read pipe (reads pos))) sizeof_desired)
    as [Heq|_].
  { unfold sizeof_desired in Heq. destruct Hempty as [?|[? _]]; lia. }
  destruct (Z.gtb_spec (read_nb (pipe_read pipe (reads pos))) 0) as [Hgt|_];
    [destruct Hempty as [?|[? _]]; lia|].
  destruct (Z.ltb_spec (read_nb (pipe_read pipe (reads pos))) 0) as [Hlt|Hge];
    simpl.
  - destruct Hempty as [H0|[_ He]]; [lia|]. rewrite He. reflexivity.
  - reflexivity.
Qed.

(** C2, amended. A read that delivers nothing (it returns 0, or -1 with
    [EAGAIN]) is "no message yet": the daemon does not exit on it and goes
    on to poll. Polls that neither fail nor report readiness are repeated.
    The first poll that reports readiness ends the wait: the registries,
    the locked extent and the trace are as before the read, and the daemon
    reads again. A poll that fails is fatal ("polling named pipe"). A read
    of 1 to 15 bytes is not "no message yet": it is fatal ("reading client
    command"). *)
Theorem empty_read_waits_and_retries (pipe : pipe_answers) (fuel : nat)
    (pos : pipe_pos) (w : world) :
  (empty_read (pipe_read pipe (reads pos)) ->
   wait_for_message pipe (S fuel) pos w =
   bind (poll_until_ready pipe fuel (PipePos (S (reads pos)) (polls pos)))
        (fun pos' => wait_for_message pipe fuel pos') w /\
   (forall k,
       (k < fuel)%nat ->
       (forall j, (j < k)%nat -> idle_poll (pipe_poll pipe (polls pos + j))) ->
       0 <= poll_ec (pipe_poll pipe (polls pos + k)) ->
       Z.land (poll_revents (pipe_poll pipe (polls pos + k))) POLLIN <> 0 ->
       poll_until_ready pipe fuel (PipePos (S (reads pos)) (polls pos)) w
       = Ok (PipePos (S (reads pos)) (polls pos + S k)) w /\
       wait_for_message pipe (S fuel) pos w
       = wait_for_message pipe fuel
           (PipePos (S (reads pos)) (polls pos + S k)) w) /\
   (forall k,
       (k < fuel)%nat ->
       (forall j, (j < k)%nat -> idle_poll (pipe_poll pipe (polls pos + j))) ->
       poll_ec (pipe_poll pipe (polls pos + k)) < 0 ->
       wait_for_message pipe (S fuel) pos w =
       Exit EXIT_FAILURE
         (logged w [EvPrint Stderr (MsgFailed "polling named pipe")])) /\
   (forall pos' w',
       poll_until_ready pipe fuel (PipePos (S (reads pos)) (polls pos)) w
       = Ok pos' w' ->
       w' = w /\ reads pos' = S (reads pos) /\ (polls pos < polls pos')%nat /\
       Z.land (poll_revents (pipe_poll pipe (pred (polls pos')))) POLLIN <> 0)) /\
  (0 < read_nb (pipe_read pipe (reads pos)) < sizeof_desired ->
   wait_for_message pipe (S fuel) pos w =
   Exit EXIT_FAILURE
     (logged w
        [EvPrint Stderr (MsgPerror "debug");
         EvPrint Stdout (MsgReadDebug (read_nb (pipe_read pipe (reads pos)))
                           (read_errno (pipe_read pipe (reads pos))));
         EvPrint Stderr (MsgFailed "reading client command")])).
Proof.
  split; [|apply short_read_is_fatal].
  intros Hempty. pose proof (empty_read_polls pipe fuel pos w Hempty) as Hwait.
  split; [exact Hwait|]. split; [|split].
  - intros k Hk Hidle Hec Hready.
    pose proof (poll_until_ready_returns pipe k fuel
                  (PipePos (S (reads pos)) (polls pos)) w Hk Hidle Hec Hready)
      as Hpoll.
    cbn [reads polls] in Hpoll. split; [exact Hpoll|].
    rewrite Hwait. unfold bind. rewrite Hpoll. reflexivity.
  - intros k Hk Hidle Hfail.
    rewrite Hwait. unfold bind.
    rewrite (poll_until_ready_fails pipe k fuel
               (PipePos (S (reads pos)) (polls pos)) w Hk Hidle Hfail).
    reflexivity.
  - intros pos' w' H. apply poll_until_ready_Ok in H. exact H.
Qed.

(** After a read of -1 with [EAGAIN], a poll that reports readiness lets
    the daemon read again, in the same world; a poll that fails ends it. *)
Lemma empty_read_waits_and_retries_witness :
  wait_for_message quiet_then_message 2 (PipePos 0 0) eight_cpus
  = wait_for_message quiet_then_message 1 (PipePos 1 1) eight_cpus /\
  wait_for_message broken_pipe 2 (PipePos 0 0) eight_cpus
  = Exit EXIT_FAILURE
      (logged eight_cpus [EvPrint Stderr (MsgFailed "polling named pipe")]).
Proof.
  split.
  - apply (proj1 (proj2 (proj1 (empty_read_waits_and_retries quiet_then_message
                                  1 (PipePos 0 0) eight_cpus)
                           (or_intror (conj eq_refl eq_refl)))) 0%nat).
    + lia.
    + intros j Hj. lia.
    + discriminate.
    + discriminate.
  - apply (proj1 (proj2 (proj2 (proj1 (empty_read_waits_and_retries broken_pipe
                                         1 (PipePos 0 0) eight_cpus)
                                  (or_intror (conj eq_refl eq_refl))))) 0%nat).
    + lia.
    + intros j Hj. lia.
    + reflexivity.
Defined.

(** C2 as stated fails: a read of 8 bytes is fewer than a complete message,
    and the daemon exits with "reading client command". *)
Lemma incomplete_read_counterexample :
  read_nb (pipe_read half_message 0) < sizeof_desired /\
  wait_for_message half_message 2 (PipePos 0 0) (World (initial_state 0) []) =
  Exit EXIT_FAILURE
    (World (initial_state 0)
       [EvPrint Stderr (MsgPerror "debug"); EvPrint Stdout (MsgReadDebug 8 0);
        EvPrint Stderr (MsgFailed "reading client command")]).
Proof. split; reflexivity. Qed.

(** ** C6: the order in which cpus are taken and released *)

Lemma first_take_app (t1 t2 : list event) :
  first_take (t1 ++ t2) =
  match first_take t1 with Some c => Some c | None => first_take t2 end.
Proof.
  induction t1 as [|e t1 IH]; simpl; [reflexivity|].
  destruct e as [cpu [|]| | | | | |]; try exact IH. reflexivity.
Qed.

Lemma last_release_app (t1 t2 : list event) :
  last_release (t1 ++ t2) =
  match last_release t2 with Some c => Some c | None => last_release t1 end.
Proof.
  induction t1 as [|e t1 IH]; simpl.
  - destruct (last_release t2); reflexivity.
  - rewrite IH. destruct (last_release t2); reflexivity.
Qed.

Lemma first_take_quiet (t : list event) :
  Forall (fun e => is_toggle e = false) t -> first_take t = None.
Proof.
  induction 1 as [|e t He _ IH]; simpl; [reflexivity|].
  destruct e as [cpu [|]| | | | | |]; try exact IH; discriminate.
Qed.

Lemma last_release_quiet (t : list event) :
  Forall (fun e => is_toggle e = false) t -> last_release t = None.
Proof.
  induction 1 as [|e t He _ IH]; simpl; [reflexivity|].
  rewrite IH. destruct e as [cpu [|]| | | | | |]; try reflexivity; discriminate.
Qed.

Lemma session_inv_frame (online0 : list bool) (w w' : world) :
  cpus_online (regs w') = cpus_online (regs w) ->
  cpus_taken (regs w') = cpus_taken (regs w) ->
  (exists evs, trace w' = trace w ++ evs /\
               Forall (fun e => is_toggle e = false) evs) ->
  session_inv online0 w -> session_inv online0 w'.
Proof.
  intros Hon Htk (evs & Ht & Hq) (Hsz & Hd & H).
  unfold session_inv, well_sized, disjoint_sets, none_taken, is_online,
    is_taken in *.
  rewrite Hon, Htk, Ht, first_take_app, last_release_app.
  rewrite (first_take_quiet evs Hq), (last_release_quiet evs Hq).
  split; [exact Hsz|]. split; [exact Hd|].
  destruct (first_take (trace w)); exact H.
Qed.

Lemma session_inv_take (online0 : list bool) (w w' : world) (lo cpu : Z) :
  session_inv online0 w ->
  (forall j, lo <= j -> ~ is_online (regs w) j) ->
  take_step w lo cpu w' ->
  session_inv online0 w' /\ (forall j, cpu <= j -> ~ is_online (regs w') j).
Proof.
  intros (Hsz & Hd & H) Habove (Hcpu & Hon & Hbetween & ->).
  assert (Hcpu_in : 0 <= cpu < max_cpu_count)
    by (apply array_get_Some in Hon as [? _]; lia).
  assert (Hhigh : forall j, cpu < j -> ~ is_online (regs w) j).
  { intros j Hj Hoj. destruct (Z_lt_ge_dec j lo) as [Hlt|Hge].
    - unfold is_online in Hoj. rewrite Hbetween in Hoj by lia. discriminate.
    - exact (Habove j ltac:(lia) Hoj). }
  assert (Hon' : forall j, is_online (taken_state (regs w) cpu) j ->
                           cpu <> j /\ is_online (regs w) j).
  { intros j Hj. exact (array_get_set_false _ _ _ Hj). }
  assert (Htk' : forall j, is_taken (taken_state (regs w) cpu) j ->
                           cpu = j \/ is_taken (regs w) j).
  { intros j Hj. apply (array_get_set_true (cpus_taken (regs w)) cpu j); [lia | exact Hj]. }
  assert (Hnow : is_taken (taken_state (regs w) cpu) cpu).
  { apply array_get_set_eq; [exact (proj2 Hsz) | exact Hcpu_in]. }
  split.
  - split; [apply well_sized_taken_state; exact Hsz|].
    split; [apply disjoint_taken_state; [lia | exact Hd]|].
    simpl trace. simpl regs. rewrite first_take_app. simpl first_take.
    destruct (first_take (trace w)) as [c|].
    + destruct H as (Hc0 & Hnone & Hc).
      split; [exact Hc0|].
      assert (cpu <= c) as Hle.
      { destruct (Z_le_gt_dec cpu c) as [Hle|Hgt]; [exact Hle|].
        exfalso. exact (proj1 (Hnone cpu ltac:(lia)) Hon). }
      split.
      * intros j Hj. split.
        -- intros Hoj. apply Hon' in Hoj as [_ Hoj].
           exact (proj1 (Hnone j Hj) Hoj).
        -- intros Htj. apply Htk' in Htj as [Heq|Htj]; [lia|].
           exact (proj2 (Hnone j Hj) Htj).
      * left. destruct Hc as [Hc|(Hempty & Hc & _)].
        -- unfold is_taken. simpl.
           rewrite array_get_set_ne; [exact Hc | lia | |].
           ++ apply array_get_Some in Hc as [? _]. lia.
           ++ intros ->. apply (Hd c). split; assumption.
        -- assert (cpu = c) as ->.
           { destruct (Z.eq_dec cpu c) as [Heq|Hne]; [exact Heq|].
             exfalso. exact (Hhigh c ltac:(lia) Hc). }
           exact Hnow.
    + destruct H as (Heq & Hempty).
      split.
      * split; [rewrite <- Heq; exact Hon|].
        intros j Hj. rewrite <- Heq. exact (Hhigh j Hj).
      * split; [|left; exact Hnow].
        intros j Hj. split.
        -- intros Hoj. apply Hon' in Hoj as [_ Hoj]. exact (Hhigh j Hj Hoj).
        -- intros Htj. apply Htk' in Htj as [Heq'|Htj]; [lia|].
           exact (Hempty j Htj).
  - intros j Hj Hoj. apply Hon' in Hoj as [Hne Hoj].
    exact (Hhigh j ltac:(lia) Hoj).
Qed.

Lemma session_inv_release (online0 : list bool) (w w' : world) (ft cpu : Z) :
  session_inv online0 w ->
  (forall j, j < ft -> ~ is_taken (regs w) j) ->
  release_step w ft cpu w' ->
  session_inv online0 w' /\ (forall j, j < cpu + 1 -> ~ is_taken (regs w') j).
Proof.
  intros (Hsz & Hd & H) Hbelow (Hcpu & Htk & Hbetween & ->).
  assert (Hcpu_in : 0 <= cpu < max_cpu_count)
    by (apply array_get_Some in Htk as [? _]; lia).
  assert (Hlow : forall j, j < cpu -> ~ is_taken (regs w) j).
  { intros j Hj Htj. destruct (Z_lt_ge_dec j ft) as [Hlt|Hge].
    - exact (Hbelow j Hlt Htj).
    - unfold is_taken in Htj. rewrite Hbetween in Htj by lia. discriminate. }
  assert (Htk' : forall j, is_taken (released_state (regs w) cpu) j ->
                           cpu <> j /\ is_taken (regs w) j).
  { intros j Hj. exact (array_get_set_false _ _ _ Hj). }
  assert (Hon' : forall j, is_online (released_state (regs w) cpu) j ->
                           cpu = j \/ is_online (regs w) j).
  { intros j Hj. apply (array_get_set_true (cpus_online (regs w)) cpu j); [lia | exact Hj]. }
  assert (Hnow : is_online (released_state (regs w) cpu) cpu).
  { apply array_get_set_eq; [exact (proj1 Hsz) | exact Hcpu_in]. }
  split.
  - split; [apply well_sized_released_state; exact Hsz|].
    split; [apply disjoint_released_state; [lia | exact Hd]|].
    simpl trace. simpl regs. rewrite first_take_app, last_release_app.
    simpl first_take. simpl last_release.
    destruct (first_take (trace w)) as [c|].
    + destruct H as (Hc0 & Hnone & Hc).
      split; [exact Hc0|].
      assert (cpu <= c) as Hle.
      { destruct (Z_le_gt_dec cpu c) as [Hle|Hgt]; [exact Hle|].
        exfalso. exact (proj2 (Hnone cpu ltac:(lia)) Htk). }
      split.
      * intros j Hj. split.
        -- intros Hoj. apply Hon' in Hoj as [Heq|Hoj]; [lia|].
           exact (proj1 (Hnone j Hj) Hoj).
        -- intros Htj. apply Htk' in Htj as [_ Htj].
           exact (proj2 (Hnone j Hj) Htj).
      * destruct Hc as [Hc|(Hempty & _ & _)]; [|exfalso; exact (Hempty cpu Htk)].
        destruct (Z.eq_dec cpu c) as [->|Hne].
        -- right. split; [|split; [exact Hnow | reflexivity]].
           intros j Htj. apply Htk' in Htj as [Hne Htj].
           destruct (Z_lt_ge_dec j c) as [Hlt|Hge].
           ++ exact (Hlow j Hlt Htj).
           ++ exact (proj2 (Hnone j ltac:(lia)) Htj).
        -- left. unfold is_taken. simpl.
           rewrite array_get_set_ne; [exact Hc | lia | lia | exact Hne].
    + exfalso. exact (proj2 H cpu Htk).
  - intros j Hj Htj. apply Htk' in Htj as [Hne Htj].
    exact (Hlow j ltac:(lia) Htj).
Qed.

Section Session.
Variable env : environment.

Lemma adjust_cpus_session_inv (online0 : list bool) (ncpus : Z)
    (w w' : world) (u : unit) :
  0 <= ncpus < 4294967296 ->
  session_inv online0 w ->
  adjust_cpus env ncpus w = Ok u w' ->
  session_inv online0 w'.
Proof.
  intros Hnc Hinv H.
  apply adjust_cpus_Ok in H as (Hcnt & r1 & w1 & r2 & w2 & Htake & Hrel & ->).
  pose proof (count_cpu_set_bounds (cpus_taken (regs w))) as Hb.
  apply (take_loop_rule env
           (fun _ lo w => session_inv online0 w /\
                          forall j, lo <= j -> ~ is_online (regs w) j))
    in Htake; try lia; try (rewrite max_cpu_count_eq; lia).
  - destruct Htake as (lo & _ & [Hinv1 _] & _).
    apply (release_loop_rule env
             (fun _ ft w => session_inv online0 w /\
                            forall j, j < ft -> ~ is_taken (regs w) j))
      in Hrel; try (rewrite max_cpu_count_eq; lia).
    + destruct Hrel as (ft & _ & [Hinv2 _] & _).
      apply (session_inv_frame online0 w2); try reflexivity; [|exact Hinv2].
      eexists. split; [reflexivity|]. repeat constructor.
    + clear. intros n ft w cpu w' [Hinv Hbelow] _ _ Hstep.
      exact (session_inv_release online0 w w' ft cpu Hinv Hbelow Hstep).
    + split; [exact Hinv1|]. intros j Hj Htj.
      apply array_get_Some in Htj as [? _]. lia.
  - clear. intros n lo w cpu w' [Hinv Habove] _ _ Hstep.
    exact (session_inv_take online0 w w' lo cpu Hinv Habove Hstep).
  - split.
    + apply (session_inv_frame online0 w);
        try (unfold announced; destruct (negb _); reflexivity); [|exact Hinv].
      unfold announced. destruct (negb _).
      * eexists. split; [reflexivity|]. repeat constructor.
      * exists []. split; [symmetry; apply app_nil_r | constructor].
    + intros j Hj Hoj. apply array_get_Some in Hoj as [? _]. lia.
Qed.

Lemma memory_events_quiet (s : state) (membytes : Z) :
  Forall (fun e => is_toggle e = false) (memory_events s membytes).
Proof.
  unfold memory_events.
  destruct (_ <? _); [|destruct (_ >? _)]; repeat constructor.
Qed.

Lemma apply_desired_session_inv (online0 : list bool) (d : desired_state)
    (w w' : world) (u : unit) :
  session_inv online0 w ->
  apply_desired env d w = Ok u w' ->
  session_inv online0 w'.
Proof.
  intros Hinv H.
  apply apply_desired_Ok in H as (w1 & Hc & Hm).
  apply (adjust_cpus_session_inv online0) in Hc; [|apply uint_range|].
  - apply adjust_memory_Ok in Hm as ->.
    apply (session_inv_frame online0 w1); try reflexivity; [|exact Hc].
    eexists. split; [reflexivity | apply memory_events_quiet].
  - apply (session_inv_frame online0 w); try reflexivity; [|exact Hinv].
    eexists. split; [reflexivity|]. repeat constructor.
Qed.

Lemma run_session_session_inv (online0 : list bool)
    (targets : list desired_state) (w w' : world) (u : unit) :
  session_inv online0 w ->
  run_session env targets w = Ok u w' ->
  session_inv online0 w'.
Proof.
  revert w. induction targets as [|d targets IH]; intros w Hinv H.
  - injection H as _ <-. exact Hinv.
  - simpl in H. apply bind_Ok in H as (u1 & w1 & Hd & H).
    apply (IH w1); [|exact H].
    exact (apply_desired_session_inv online0 d w w1 u1 Hinv Hd).
Qed.

End Session.

Lemma session_inv_start (w0 : world) :
  well_sized (regs w0) -> none_taken (regs w0) ->
  Forall (fun e => is_toggle e = false) (trace w0) ->
  session_inv (cpus_online (regs w0)) w0.
Proof.
  intros Hsz Hnone Hquiet. split; [exact Hsz|]. split.
  - intros i [_ H]. exact (Hnone i H).
  - rewrite (first_take_quiet _ Hquiet). split; [reflexivity | exact Hnone].
Qed.

Lemma toggles_snoc (t : list event) (cpu : Z) (b : bool) :
  toggles (t ++ [EvSetCpu cpu b]) = toggles t ++ [EvSetCpu cpu b].
Proof. unfold toggles. rewrite List.filter_app. reflexivity. Qed.

Lemma lookup_snoc_Some {A} (l : list A) (x y : A) (k : nat) :
  (l ++ [x]) !! k = Some y ->
  (l !! k = Some y /\ (k < length l)%nat) \/ (k = length l /\ y = x).
Proof.
  intros H. apply lookup_app_Some in H as [H|[Hk H]].
  - left. split; [exact H | exact (lookup_lt_Some _ _ _ H)].
  - right. destruct (k - length l)%nat as [|n] eqn:E; [|discriminate].
    injection H as <-. split; [lia | reflexivity].
Qed.

(** The cpus the first loop takes: each is the highest index online when it
    is taken. *)
Lemma take_loop_order (env : environment) (ncpus : Z) (s0 : state)
    (t0 : list event) :
  forall (fuel : nat) (n : Z) (w w' : world) (r : Z),
    0 <= n -> ncpus < 4294967296 ->
    regs w = s0 -> toggles (trace w) = t0 ->
    take_loop env fuel ncpus n max_cpu_count w = Ok r w' ->
    exists cs,
      toggles (trace w') = t0 ++ map (fun c => EvSetCpu c false) cs /\
      forall k c, cs !! k = Some c ->
        is_online s0 c /\
        forall j, c < j -> is_online s0 j -> j ∈ take k cs.
Proof.
  intros fuel n w w' r Hn Hnc Hregs Htog Htake.
  destruct (take_loop_rule env
              (fun _ lo w1 =>
                 exists cs,
                   toggles (trace w1) = t0 ++ map (fun c => EvSetCpu c false) cs /\
                   (forall k c, cs !! k = Some c ->
                      lo <= c /\ is_online s0 c /\
                      forall j, c < j -> is_online s0 j -> j ∈ take k cs) /\
                   (forall j, lo <= j -> is_online s0 j -> j ∈ cs) /\
                   (forall j, j < lo ->
                      array_get (cpus_online (regs w1)) j
                      = array_get (cpus_online s0) j)) ncpus)
    with (fuel := fuel) (n := n) (lo := max_cpu_count) (w := w) (r := r)
         (w' := w')
    as (lo' & _ & (cs & Ht & Hcs & _) & _);
    [| rewrite max_cpu_count_eq; lia | exact Hn | exact Hnc | | exact Htake |].
  - intros n1 lo wa cpu wb (cs & Ht & Hcs & Habove & Hsame) _ _
      (Hcpu & Hon & Hoff & ->).
    assert (forall j, cpu < j -> is_online s0 j -> j ∈ cs) as Hhigher.
    { intros j Hj Hj0. destruct (Z.lt_ge_cases j lo) as [Hlt|Hge].
      - unfold is_online in Hj0. rewrite <- Hsame in Hj0 by exact Hlt.
        rewrite Hoff in Hj0 by lia. discriminate.
      - exact (Habove j Hge Hj0). }
    exists (cs ++ [cpu]). cbn [regs trace].
    split; [rewrite toggles_snoc, Ht, map_app, <- app_assoc; reflexivity|].
    split; [|split].
    + intros k c Hk. apply lookup_snoc_Some in Hk as [[Hk Hlt]|[-> ->]].
      * destruct (Hcs k c Hk) as (Hlo & Hc0 & Hc). split; [lia|].
        split; [exact Hc0|]. rewrite take_app_le by lia. exact Hc.
      * split; [lia|]. split.
        -- unfold is_online. rewrite <- Hsame by lia. exact Hon.
        -- rewrite take_app_length. exact Hhigher.
    + intros j Hj Hj0. apply elem_of_app.
      destruct (Z.eq_dec j cpu) as [->|Hne];
        [right; apply list_elem_of_singleton; reflexivity|].
      left. apply Hhigher; [lia | exact Hj0].
    + intros j Hj. cbn [taken_state with_sets cpus_online].
      rewrite array_get_set_other by lia. apply Hsame. lia.
  - exists []. rewrite Htog, Hregs. split; [symmetry; apply app_nil_r|].
    split; [intros k c H; discriminate|]. split; [|reflexivity].
    intros j Hj Hj0. unfold is_online in Hj0.
    rewrite array_get_out in Hj0 by exact Hj. discriminate.
  - exists cs. split; [exact Ht|]. intros k c Hk.
    destruct (Hcs k c Hk) as (_ & Hc0 & Hc). split; assumption.
Qed.

(** The cpus the second loop releases: each is the lowest index taken when
    it is released. *)
Lemma release_loop_order (env : environment) (ncpus : Z) (s0 : state)
    (t0 : list event) :
  forall (fuel : nat) (n : Z) (w w' : world) (r : Z),
    regs w = s0 -> toggles (trace w) = t0 ->
    release_loop env fuel ncpus n 0 w = Ok r w' ->
    exists cs,
      toggles (trace w') = t0 ++ map (fun c => EvSetCpu c true) cs /\
      forall k c, cs !! k = Some c ->
        is_taken s0 c /\
        forall j, j < c -> is_taken s0 j -> j ∈ take k cs.
Proof.
  intros fuel n w w' r Hregs Htog Hrel.
  destruct (release_loop_rule env
              (fun _ ft w1 =>
                 exists cs,
                   toggles (trace w1) = t0 ++ map (fun c => EvSetCpu c true) cs /\
                   (forall k c, cs !! k = Some c ->
                      c < ft /\ is_taken s0 c /\
                      forall j, j < c -> is_taken s0 j -> j ∈ take k cs) /\
                   (forall j, j < ft -> is_taken s0 j -> j ∈ cs) /\
                   (forall j, ft <= j ->
                      array_get (cpus_taken (regs w1)) j
                      = array_get (cpus_taken s0) j)) ncpus)
    with (fuel := fuel) (n := n) (ft := 0) (w := w) (r := r) (w' := w')
    as (ft' & _ & (cs & Ht & Hcs & _) & _);
    [| rewrite max_cpu_count_eq; lia | | exact Hrel |].
  - intros n1 ft wa cpu wb (cs & Ht & Hcs & Hbelow & Hsame) _ Hft
      (Hcpu & Htk & Hoff & ->).
    assert (forall j, j < cpu -> is_taken s0 j -> j ∈ cs) as Hlower.
    { intros j Hj Hj0. destruct (Z.lt_ge_cases j ft) as [Hlt|Hge].
      - exact (Hbelow j Hlt Hj0).
      - unfold is_taken in Hj0. rewrite <- Hsame in Hj0 by exact Hge.
        rewrite Hoff in Hj0 by lia. discriminate. }
    exists (cs ++ [cpu]). cbn [regs trace].
    split; [rewrite toggles_snoc, Ht, map_app, <- app_assoc; reflexivity|].
    split; [|split].
    + intros k c Hk. apply lookup_snoc_Some in Hk as [[Hk Hlt]|[-> ->]].
      * destruct (Hcs k c Hk) as (Hlo & Hc0 & Hc). split; [lia|].
        split; [exact Hc0|]. rewrite take_app_le by lia. exact Hc.
      * split; [lia|]. split.
        -- unfold is_taken. rewrite <- Hsame by lia. exact Htk.
        -- rewrite take_app_length. exact Hlower.
    + intros j Hj Hj0. apply elem_of_app.
      destruct (Z.eq_dec j cpu) as [->|Hne];
        [right; apply list_elem_of_singleton; reflexivity|].
      left. apply Hlower; [lia | exact Hj0].
    + intros j Hj. cbn [released_state with_sets cpus_taken].
      rewrite array_get_set_other by lia. apply Hsame. lia.
  - exists []. rewrite Htog, Hregs. split; [symmetry; apply app_nil_r|].
    split; [intros k c H; discriminate|]. split; [|reflexivity].
    intros j Hj Hj0. pose proof (proj1 (array_get_Some _ _ _) Hj0) as [Hj1 _]. lia.
  - exists cs. split; [exact Ht|]. intros k c Hk.
    destruct (Hcs k c Hk) as (_ & Hc0 & Hc). split; assumption.
Qed.

(** A call of [adjust_cpus] either takes or releases, and in this order. *)
Lemma adjust_cpus_order (env : environment) (ncpus : Z) (w w' : world) :
  0 <= ncpus < UINT_MODULUS ->
  adjust_cpus env ncpus w = Ok tt w' ->
  exists cs,
    toggles (trace w') =
    toggles (trace w) ++
    map (fun c => EvSetCpu c (ncpus <? count_cpu_set (cpus_taken (regs w)))) cs /\
    (count_cpu_set (cpus_taken (regs w)) <= ncpus ->
     forall k c, cs !! k = Some c ->
       is_online (regs w) c /\
       forall j, c < j -> is_online (regs w) j -> j ∈ take k cs) /\
    (ncpus < count_cpu_set (cpus_taken (regs w)) ->
     forall k c, cs !! k = Some c ->
       is_taken (regs w) c /\
       forall j, j < c -> is_taken (regs w) j -> j ∈ take k cs).
Proof.
  intros Hn H. change UINT_MODULUS with 4294967296 in Hn.
  apply adjust_cpus_Ok in H as (_ & r1 & w1 & r2 & w2 & Htake & Hrel & ->).
  pose proof (count_cpu_set_bounds (cpus_taken (regs w))) as [Hc0 _].
  set (n0 := count_cpu_set (cpus_taken (regs w))) in *.
  assert (toggles (trace (announced ncpus w)) = toggles (trace w)) as Hann.
  { unfold announced. destruct (negb _); [|reflexivity].
    cbn [logged trace]. unfold toggles. rewrite List.filter_app. apply app_nil_r. }
  assert (toggles (trace w2 ++ [shown_taken w2]) = toggles (trace w2)) as Hshown.
  { unfold toggles. rewrite List.filter_app. apply app_nil_r. }
  cbn [trace]. rewrite Hshown.
  destruct (Z.ltb_spec ncpus n0) as [Hlt|Hge].
  - rewrite loop_fuel_S, take_loop_S in Htake.
    destruct (Z.ltb_spec n0 ncpus) as [|_]; [lia|]. injection Htake as <- <-.
    destruct (release_loop_order env ncpus (regs w) (toggles (trace w))
                loop_fuel n0 (announced ncpus w) w2 r2
                (regs_announced ncpus w) Hann Hrel) as (cs & Ht & Hcs).
    exists cs. split; [exact Ht|]. split; [lia | intros _; exact Hcs].
  - destruct (take_loop_order env ncpus (regs w) (toggles (trace w))
                loop_fuel n0 (announced ncpus w) w1 r1 Hc0 ltac:(lia)
                (regs_announced ncpus w) Hann Htake) as (cs & Ht & Hcs).
    assert (r1 = ncpus) as ->.
    { destruct (take_loop_rule env (fun _ _ _ => True) ncpus) with
        (fuel := loop_fuel) (n := n0) (lo := max_cpu_count)
        (w := announced ncpus w) (r := r1) (w' := w1) as (_ & _ & _ & Hr);
        [trivial | rewrite max_cpu_count_eq; lia | exact Hc0 | lia | trivial
         | exact Htake | lia]. }
    rewrite loop_fuel_S, release_loop_S in Hrel.
    destruct (Z.gtb_spec ncpus ncpus) as [|_]; [lia|]. injection Hrel as _ <-.
    exists cs. split; [exact Ht|]. split; [intros _; exact Hcs | lia].
Qed.

(** C6. Cpus are taken from the highest online index downward and released
    from the lowest taken index upward: a call of [adjust_cpus] that returns
    has written to the control files of the cpus [cs], in that order, and to
    no other; when the target is at least [|Taken|] the writes are takes, and
    each cpu taken was online at the call and is below every cpu that was
    online and is not taken before it; when the target is below [|Taken|]
    the writes are releases, and each cpu released was taken at the call
    and is above every cpu that was taken and is not released before it.
    Consequently, in every session of successive adjustments that starts
    with nothing taken (and no cpu toggled yet) and ends with all cpus
    released, the first cpu ever taken, which is the highest one online at
    the start, is the last one released. *)
Theorem first_taken_is_last_released (env : environment) :
  (forall (ncpus : Z) (w w' : world),
      0 <= ncpus < UINT_MODULUS ->
      adjust_cpus env ncpus w = Ok tt w' ->
      exists cs,
        toggles (trace w') =
        toggles (trace w) ++
        map (fun c => EvSetCpu c (ncpus <? count_cpu_set (cpus_taken (regs w))))
          cs /\
        (count_cpu_set (cpus_taken (regs w)) <= ncpus ->
         forall k c, cs !! k = Some c ->
           is_online (regs w) c /\
           forall j, c < j -> is_online (regs w) j -> j ∈ take k cs) /\
        (ncpus < count_cpu_set (cpus_taken (regs w)) ->
         forall k c, cs !! k = Some c ->
           is_taken (regs w) c /\
           forall j, j < c -> is_taken (regs w) j -> j ∈ take k cs)) /\
  (forall (w0 : world) (targets : list desired_state) (w' : world) (c : Z),
      well_sized (regs w0) -> none_taken (regs w0) ->
      Forall (fun e => is_toggle e = false) (trace w0) ->
      run_session env targets w0 = Ok tt w' ->
      count_cpu_set (cpus_taken (regs w')) = 0 ->
      first_take (trace w') = Some c ->
      last_release (trace w') = Some c /\
      highest_online (cpus_online (regs w0)) c).
Proof.
  split; [exact (adjust_cpus_order env)|].
  intros w0 targets w' c Hsz Hnone Hquiet Hrun Hzero Hfirst.
  pose proof (run_session_session_inv env _ targets _ w' tt
                (session_inv_start w0 Hsz Hnone Hquiet) Hrun)
    as (_ & _ & H).
  rewrite Hfirst in H. destruct H as (Hhigh & _ & [Htk|(_ & _ & Hlast)]).
  - exfalso. apply array_get_Some in Htk as [_ Htk].
    exact (proj1 (count_cpu_set_zero _) Hzero _ Htk).
  - split; [exact Hlast | exact Hhigh].
Qed.

(** The scenario of the specification: (2 GiB, 2) then (0, 0) on the
    machine with cpus 0 to 7: cpu 7 is taken first and released last. *)
Lemma first_taken_is_last_released_witness :
  (exists w1 cs,
     adjust_cpus env_ok 2 eight_cpus = Ok tt w1 /\
     toggles (trace w1) = map (fun c => EvSetCpu c false) cs /\
     forall k c, cs !! k = Some c ->
       is_online (regs eight_cpus) c /\
       forall j, c < j -> is_online (regs eight_cpus) j -> j ∈ take k cs) /\
  (exists w',
     run_session env_ok [Desired (2 ^ 31) 2; Desired 0 0] eight_cpus = Ok tt w' /\
     filter (fun e => is_toggle e) (trace w') =
     [EvSetCpu 7 false; EvSetCpu 6 false; EvSetCpu 6 true; EvSetCpu 7 true] /\
     last_release (trace w') = Some 7 /\
     highest_online (cpu_set [0; 1; 2; 3; 4; 5; 6; 7]) 7).
Proof.
  split.
  - assert (exists w1, adjust_cpus env_ok 2 eight_cpus = Ok tt w1) as [w1 H1]
      by (vm_compute; eexists; reflexivity).
    destruct (proj1 (first_taken_is_last_released env_ok) 2 eight_cpus w1)
      as (cs & Htoggles & Htakes & _).
    + split; [lia | reflexivity].
    + exact H1.
    + exists w1, cs. split; [exact H1|]. split; [exact Htoggles|].
      apply Htakes. vm_compute. discriminate.
  - assert (exists w',
      run_session env_ok [Desired (2 ^ 31) 2; Desired 0 0] eight_cpus = Ok tt w' /\
      filter (fun e => is_toggle e) (trace w') =
      [EvSetCpu 7 false; EvSetCpu 6 false; EvSetCpu 6 true; EvSetCpu 7 true] /\
      count_cpu_set (cpus_taken (regs w')) = 0 /\
      first_take (trace w') = Some 7) as (w' & Hrun & Htoggles & Hzero & Hfirst)
      by (vm_compute; eexists; repeat split; reflexivity).
    exists w'. split; [exact Hrun|]. split; [exact Htoggles|].
    apply (proj2 (first_taken_is_last_released env_ok) eight_cpus
             [Desired (2 ^ 31) 2; Desired 0 0] w' 7).
    + exact (proj1 eight_cpus_consistent).
    + intros j H. exact (no_cpus_get j H).
    + constructor.
    + exact Hrun.
    + exact Hzero.
    + exact Hfirst.
Defined.

(** ** Range-list texts *)

Lemma ascii_code_digit_char (d : Z) :
  0 <= d <= 9 -> ascii_code (digit_char d) = 48 + d.
Proof.
  intros Hd. unfold ascii_code, digit_char.
  rewrite N_ascii_embedding by lia. lia.
Qed.

Lemma is_digit_code (c : ascii) :
  is_digit c = true <-> 48 <= ascii_code c <= 57.
Proof. unfold is_digit. rewrite andb_true_iff, !Z.leb_le. reflexivity. Qed.

Lemma digits_decimal_digits (fuel : nat) (n : Z) (low : list ascii) :
  0 <= n ->
  Forall (fun c => is_digit c = true) low ->
  Forall (fun c => is_digit c = true) (decimal_digits fuel n low).
Proof.
  revert n low. induction fuel as [|fuel IH]; intros n low Hn Hlow; simpl.
  - exact Hlow.
  - assert (is_digit (digit_char (n mod 10)) = true) as Hd.
    { apply is_digit_code. rewrite ascii_code_digit_char;
        pose proof (Z.mod_pos_bound n 10 ltac:(lia)); lia. }
    destruct (n <? 10).
    + constructor; assumption.
    + apply IH; [apply Z.div_pos; lia | constructor; assumption].
Qed.

Lemma value_of_decimal_digits (fuel : nat) (n : Z) (low : list ascii) :
  0 <= n < 2 ^ Z.of_nat fuel ->
  value_of 0 (decimal_digits fuel n low) = value_of n low.
Proof.
  revert n low. induction fuel as [|fuel IH]; intros n low Hn.
  - simpl in Hn. assert (n = 0) as -> by lia. reflexivity.
  - simpl decimal_digits.
    pose proof (Z.mod_pos_bound n 10 ltac:(lia)) as Hm.
    assert (digit_value (digit_char (n mod 10)) = n mod 10) as Hd.
    { unfold digit_value. rewrite ascii_code_digit_char; lia. }
    destruct (Z.ltb_spec n 10) as [Hlt|Hge].
    + unfold value_of. simpl. rewrite Hd, Z.mod_small by lia. reflexivity.
    + rewrite IH.
      * unfold value_of. simpl. rewrite Hd.
        rewrite <- (Z.div_mod n 10) by lia. reflexivity.
      * split; [apply Z.div_pos; lia|].
        rewrite Nat2Z.inj_succ, Z.pow_succ_r in Hn by lia.
        apply Z.div_lt_upper_bound; lia.
Qed.

Lemma decimal_digits_nonempty (fuel : nat) (n : Z) (low : list ascii) :
  decimal_digits (S fuel) n low <> [].
Proof.
  revert n low. induction fuel as [|fuel IH]; intros n low.
  - simpl. destruct (n <? 10); discriminate.
  - change (decimal_digits (S (S fuel)) n low)
      with (if n <? 10 then digit_char (n mod 10) :: low
            else decimal_digits (S fuel) (n / 10) (digit_char (n mod 10) :: low)).
    destruct (n <? 10); [discriminate | apply IH].
Qed.

Lemma decimal_digits_are_digits (n : Z) :
  0 <= n -> Forall (fun c => is_digit c = true) (decimal n).
Proof. intros Hn. apply digits_decimal_digits; [exact Hn | constructor]. Qed.

Lemma decimal_nonempty (n : Z) : decimal n <> [].
Proof. apply decimal_digits_nonempty. Qed.

Lemma decimal_value (n : Z) : 0 <= n -> value_of 0 (decimal n) = n.
Proof.
  intros Hn. unfold decimal. rewrite value_of_decimal_digits; [reflexivity|].
  split; [exact Hn|].
  destruct (Z.eq_dec n 0) as [->|Hnz]; [reflexivity|].
  rewrite Nat2Z.inj_succ, Z2Nat.id by apply Z.log2_nonneg.
  apply Z.log2_spec. lia.
Qed.

(** *** Reading a numeral back *)

Lemma scan_digits_app (acc : Z) (ds rest : list ascii) :
  Forall (fun c => is_digit c = true) ds -> no_digit_next rest ->
  scan_digits acc (ds ++ rest) = (value_of acc ds, length ds, rest).
Proof.
  intros Hds Hrest. revert acc.
  induction Hds as [|c ds Hc _ IH]; intros acc; cbn [scan_digits app].
  - destruct rest as [|c rest]; [reflexivity|].
    cbn [no_digit_next] in Hrest. cbn [scan_digits]. rewrite Hrest. reflexivity.
  - rewrite Hc, IH. reflexivity.
Qed.

Lemma digit_is_plain (c : ascii) :
  is_digit c = true ->
  is_space c = false /\ (ascii_code c =? 0) = false /\
  (ascii_code c =? 45) = false /\ (ascii_code c =? 43) = false /\
  (ascii_code c =? 44) = false /\ (ascii_code c =? 10) = false.
Proof.
  intros H. apply is_digit_code in H. unfold is_space.
  repeat split; try (apply Z.eqb_neq; lia).
  apply orb_false_iff. split; [apply Z.eqb_neq; lia|].
  apply andb_false_iff. right. apply Z.leb_gt. lia.
Qed.

Lemma scan_unsigned_decimal (n : Z) (rest : list ascii) :
  0 <= n < UINT_MODULUS -> no_digit_next rest ->
  scan_unsigned (decimal n ++ rest) = ConvOk n (length (decimal n)) rest.
Proof.
  intros Hn Hrest.
  pose proof (decimal_digits_are_digits n (proj1 Hn)) as Hds.
  pose proof (decimal_nonempty n) as Hne.
  pose proof (decimal_value n (proj1 Hn)) as Hval.
  pose proof (scan_digits_app 0 (decimal n) rest Hds Hrest) as Hscan.
  destruct (decimal n) as [|c ds] eqn:Hdec; [congruence|].
  pose proof (Forall_inv Hds) as Hc. simpl in Hc.
  destruct (digit_is_plain c Hc) as (Hsp & H0 & H45 & H43 & _).
  unfold scan_unsigned. simpl app. simpl skip_space. rewrite Hsp.
  rewrite H0, H45, H43. simpl app in Hscan. rewrite Hscan.
  simpl length. rewrite Hval.
  destruct (Z.ltb_spec n UINT_MODULUS); [reflexivity | lia].
Qed.

Lemma at_end_no_digit (tail : list ascii) : at_end tail -> no_digit_next tail.
Proof.
  destruct tail as [|c tail]; simpl; [trivial|].
  intros H. unfold is_digit. rewrite H. reflexivity.
Qed.

Lemma sscanf_u_sep_end (n : Z) (tail : list ascii) :
  0 <= n < UINT_MODULUS -> at_end tail ->
  sscanf_u_sep (decimal n ++ tail) = Scan1 n (length (decimal n)).
Proof.
  intros Hn Htail. unfold sscanf_u_sep.
  rewrite scan_unsigned_decimal; [|exact Hn | apply at_end_no_digit; exact Htail].
  destruct tail as [|c tail]; [reflexivity|].
  simpl in Htail. rewrite Htail. reflexivity.
Qed.

(** *** The loop, one group at a time *)

Lemma parse_loop_S (fuel : nat) (buf : list ascii) (nxt : nat)
    (cpu_states : list bool) :
  parse_loop (S fuel) buf nxt cpu_states =
  let continue nxt cpu_states :=
    if more_to_parse buf nxt then parse_loop fuel buf nxt cpu_states
    else ret (cpu_states, ParsedAll) in
  match sscanf_u_sep (drop nxt buf) with
  | ScanEOF | Scan0 => report_invalid buf nxt cpu_states
  | ScanUndefined => undefined
  | Scan1 u nd => continue (nxt + nd)%nat (mark_cpu cpu_states u)
  | Scan2 u nd c end_ =>
      let nxt := (nxt + end_)%nat in
      if ascii_code c =? 45 then
        match sscanf_u_commas (drop nxt buf) with
        | ScanEOF | Scan0 => report_invalid buf nxt cpu_states
        | ScanUndefined => undefined
        | Scan1 ul nl => continue (nxt + nl)%nat (mark_range cpu_states u ul)
        | Scan2 ul nl _ nle =>
            continue (nxt + nle)%nat (mark_range cpu_states u ul)
        end
      else continue nxt (mark_cpu cpu_states u)
  end.
Proof. reflexivity. Qed.



(** *** What the marked array holds *)


Lemma mark_all_length (l : list Z) (a : list bool) :
  length (fold_left (fun a i => array_set a i true) l a) = length a.
Proof.
  revert a. induction l as [|x l IH]; intros a; simpl; [reflexivity|].
  rewrite IH. apply array_set_length.
Qed.

Lemma mark_range_length (a : list bool) (u ul : Z) :
  length (mark_range a u ul) = length a.
Proof.
  unfold mark_range. destruct (_ && _); [apply mark_all_length | reflexivity].
Qed.





(** *** Ids separated by spaces *)










(** ** C4: ids at or beyond [max_cpu_count] *)




(** ** C5: a separator overflows its variable *)

(** C5, a defect of the code. A text that starts with a number followed by
    a comma or a dash, as "0-3,garbage" does, never reaches its anomaly:
    the first [sscanf] stores the separator and a NUL into the one-byte
    [char c], and the behaviour of [parse_sysfs_cpu_set] is undefined from
    there. *)
Theorem parse_overflows_at_separator (n : Z) (sep : ascii)
    (more : list ascii) (a : list bool) (w : world) :
  0 <= n < UINT_MODULUS -> sep = ","%char \/ sep = "-"%char ->
  (length (decimal n ++ sep :: more) < sizeof_buf)%nat ->
  parse_sysfs_cpu_set (ReadBytes (decimal n ++ sep :: more)) a w = Undefined w.
Proof.
  intros Hn Hsep Hsize. unfold parse_sysfs_cpu_set.
  destruct (Nat.eqb_spec (length (decimal n ++ sep :: more)) sizeof_buf); [lia|].
  rewrite parse_loop_S. cbv zeta. rewrite drop_0. unfold sscanf_u_sep.
  rewrite scan_unsigned_decimal;
    [| exact Hn | destruct Hsep as [-> | ->]; reflexivity].
  destruct Hsep as [-> | ->]; reflexivity.
Qed.

(** The scenario of the specification, "0-3,garbage". *)
Lemma parse_overflows_at_separator_witness :
  parse_sysfs_cpu_set (ReadBytes (list_ascii_of_string "0-3,garbage"))
    no_cpus (World (initial_state 0) [])
  = Undefined (World (initial_state 0) []).
Proof.
  apply (parse_overflows_at_separator 0 "-"%char
           (list_ascii_of_string "3,garbage") no_cpus
           (World (initial_state 0) [])).
  - unfold UINT_MODULUS. lia.
  - right. reflexivity.
  - vm_compute. lia.
Defined.

(** ** The fuel of the loops is enough *)

Section Fuel.
Variable env : environment.

Lemma scan_down_fuel (fuel : nat) (lo : Z) (w : world) :
  0 <= lo <= max_cpu_count -> (Z.to_nat lo < fuel)%nat ->
  scan_down fuel lo w <> OutOfFuel.
Proof.
  revert lo. induction fuel as [|fuel IH]; intros lo Hlo Hfuel; [lia|].
  destruct (Z.eq_dec lo 0) as [->|Hnz];
    [rewrite scan_down_below_zero; discriminate|].
  simpl. unfold bind; simpl.
  rewrite uint_small by (rewrite max_cpu_count_eq in Hlo; lia).
  destruct (array_get (cpus_online (regs w)) (lo - 1)) as [[|]|];
    try discriminate.
  apply IH; lia.
Qed.

Lemma scan_up_fuel (fuel : nat) (ft : Z) (w : world) :
  0 <= ft <= max_cpu_count -> (Z.to_nat (max_cpu_count - ft) < fuel)%nat ->
  scan_up fuel ft w <> OutOfFuel.
Proof.
  revert ft. induction fuel as [|fuel IH]; intros ft Hft Hfuel; [lia|].
  simpl. unfold bind; simpl.
  destruct (array_get (cpus_taken (regs w)) ft) as [[|]|] eqn:Hg;
    try discriminate.
  apply array_get_Some in Hg as [Hr _].
  rewrite uint_small by (rewrite max_cpu_count_eq in Hr; lia).
  apply IH; lia.
Qed.

Lemma take_cpu_fuel (cpu : Z) (w : world) : take_cpu env cpu w <> OutOfFuel.
Proof.
  unfold take_cpu, set_cpu_online_state, bind; simpl.
  destruct (cpu_toggle env (trace w) cpu false) as [|nb]; simpl;
    try discriminate.
  destruct (nb mod SIZE_MODULUS <? 1); discriminate.
Qed.

Lemma release_cpu_fuel (cpu : Z) (w : world) :
  release_cpu env cpu w <> OutOfFuel.
Proof.
  unfold release_cpu, set_cpu_online_state, bind; simpl.
  destruct (cpu_toggle env (trace w) cpu true) as [|nb]; simpl;
    try discriminate.
  destruct (nb mod SIZE_MODULUS <? 1); discriminate.
Qed.

Lemma take_loop_fuel (fuel : nat) (ncpus n lo : Z) (w : world) :
  0 <= lo <= max_cpu_count -> (Z.to_nat lo < fuel)%nat ->
  take_loop env fuel ncpus n lo w <> OutOfFuel.
Proof.
  revert n lo w. induction fuel as [|fuel IH]; intros n lo w Hlo Hfuel; [lia|].
  rewrite take_loop_S. destruct (n <? ncpus); [|discriminate].
  unfold bind at 1.
  destruct (scan_down loop_fuel lo w) as [cpu w1| | |] eqn:Hscan;
    try discriminate.
  - apply scan_down_Ok in Hscan as (-> & Hcpu & _); [|exact Hlo].
    unfold bind at 1. destruct (cpu =? 0); [discriminate|].
    unfold ret at 1. unfold bind at 1.
    pose proof (take_cpu_fuel cpu w) as Htk.
    destruct (take_cpu env cpu w) as [u w2| | |]; try discriminate;
      [|congruence].
    apply IH; lia.
  - exfalso. revert Hscan. apply scan_down_fuel; [exact Hlo|].
    rewrite loop_fuel_S. lia.
Qed.

Lemma release_loop_fuel (fuel : nat) (ncpus n ft : Z) (w : world) :
  0 <= ft <= max_cpu_count -> (Z.to_nat (max_cpu_count - ft) < fuel)%nat ->
  release_loop env fuel ncpus n ft w <> OutOfFuel.
Proof.
  revert n ft w. induction fuel as [|fuel IH]; intros n ft w Hft Hfuel; [lia|].
  rewrite release_loop_S. destruct (n >? ncpus); [|discriminate].
  unfold bind at 1.
  destruct (scan_up loop_fuel ft w) as [cpu w1| | |] eqn:Hscan;
    try discriminate.
  - apply scan_up_Ok in Hscan as (-> & Hcpu & _); [|exact Hft].
    unfold bind at 1.
    pose proof (release_cpu_fuel cpu w) as Hrl.
    destruct (release_cpu env cpu w) as [u w2| | |]; try discriminate;
      [|congruence].
    rewrite (uint_small (cpu + 1)) by (rewrite max_cpu_count_eq in Hcpu; lia).
    apply IH; lia.
  - exfalso. revert Hscan. apply scan_up_fuel; [exact Hft|].
    rewrite loop_fuel_S. lia.
Qed.

(** [adjust_cpus] never stops for lack of fuel: every run of the model is a
    run of the code. *)
Lemma adjust_cpus_fuel_suffices (ncpus : Z) (w : world) :
  adjust_cpus env ncpus w <> OutOfFuel.
Proof.
  unfold adjust_cpus, bind; simpl.
  destruct (negb (count_cpu_set (cpus_taken (regs w)) =?
                  wastebin_cpus_taken (regs w))); simpl; [discriminate|].
  assert (exists w0, (if negb (ncpus =? count_cpu_set (cpus_taken (regs w)))
                      then print Stdout (MsgAdjustCpus ncpus) else ret tt) w
                     = Ok tt w0) as [w0 ->]
    by (destruct (negb _); eexists; reflexivity).
  pose proof (take_loop_fuel loop_fuel ncpus
                (count_cpu_set (cpus_taken (regs w))) max_cpu_count w0) as Htk.
  destruct (take_loop env loop_fuel ncpus _ max_cpu_count w0) as [r1 w1| | |];
    try discriminate.
  - pose proof (release_loop_fuel loop_fuel ncpus r1 0 w1) as Hrl.
    destruct (release_loop env loop_fuel ncpus r1 0 w1) as [r2 w2| | |];
      try discriminate.
    exfalso. apply Hrl; [rewrite max_cpu_count_eq; lia | | reflexivity].
    rewrite loop_fuel_S. lia.
  - exfalso. apply Htk; [rewrite max_cpu_count_eq; lia | | reflexivity].
    rewrite loop_fuel_S. lia.
Qed.

End Fuel.

(** ** The states of a session are consistent *)

Lemma session_states_consistent (env : environment) (w0 : world)
    (targets : list desired_state) (w' : world) :
  well_sized (regs w0) -> none_taken (regs w0) ->
  Forall (fun e => is_toggle e = false) (trace w0) ->
  run_session env targets w0 = Ok tt w' ->
  well_sized (regs w') /\ disjoint_sets (regs w').
Proof.
  intros Hsz Hnone Hquiet Hrun.
  pose proof (run_session_session_inv env _ targets _ w' tt
                (session_inv_start w0 Hsz Hnone Hquiet) Hrun)
    as (Hsz' & Hd & _).
  split; assumption.
Qed.

(** ** The parser only adds memberships *)

Lemma extends_refl (a : list bool) : extends a a.
Proof. split; [reflexivity | trivial]. Qed.

Lemma extends_trans (a b c : list bool) :
  extends a b -> extends b c -> extends a c.
Proof.
  intros [H1 H2] [H3 H4]. split; [congruence | auto].
Qed.

Lemma extends_array_set (a : list bool) (u : Z) :
  extends a (array_set a u true).
Proof.
  split; [apply array_set_length|]. intros i Hi. unfold array_set.
  destruct (decide (Z.to_nat u = i)) as [<-|Hne].
  - apply list_lookup_insert_eq. apply lookup_lt_Some in Hi. exact Hi.
  - rewrite list_lookup_insert_ne by exact Hne. exact Hi.
Qed.

Lemma extends_mark_cpu (a : list bool) (u : Z) : extends a (mark_cpu a u).
Proof.
  unfold mark_cpu. destruct (u <? max_cpu_count);
    [apply extends_array_set | apply extends_refl].
Qed.

Lemma extends_mark_range (a : list bool) (u ul : Z) :
  extends a (mark_range a u ul).
Proof.
  unfold mark_range. destruct (_ && _); [|apply extends_refl].
  generalize (seqZ u (ul - u + 1)). intros l. revert a.
  induction l as [|x l IH]; intros a; simpl; [apply extends_refl|].
  exact (extends_trans _ _ _ (extends_array_set a x) (IH _)).
Qed.

(** Whatever the text, the memberships already marked are retained. *)
Lemma parse_loop_extends (fuel : nat) (buf : list ascii) :
  forall (nxt : nat) (a : list bool) (w w' : world) (a' : list bool)
         (e : parse_end),
    parse_loop fuel buf nxt a w = Ok (a', e) w' -> extends a a'.
Proof.
  induction fuel as [|fuel IH]; intros nxt a w w' a' e H; [discriminate|].
  assert (forall nxt1 a1,
             (if more_to_parse buf nxt1 then parse_loop fuel buf nxt1 a1
              else ret (a1, ParsedAll)) w = Ok (a', e) w' ->
             extends a1 a') as Hcont.
  { intros nxt1 a1 H1. destruct (more_to_parse buf nxt1).
    - exact (IH _ _ _ _ _ _ H1).
    - injection H1 as <- _ _. apply extends_refl. }
  assert (forall nxt1, report_invalid buf nxt1 a w = Ok (a', e) w' ->
                       extends a a') as Hrep.
  { intros nxt1 H1. unfold report_invalid, bind in H1; simpl in H1.
    injection H1 as <- _ _. apply extends_refl. }
  rewrite parse_loop_S in H. cbv zeta in H.
  destruct (sscanf_u_sep (drop nxt buf)) as [| | |u nd|u nd c end_];
    try discriminate; try exact (Hrep _ H).
  - exact (extends_trans _ _ _ (extends_mark_cpu a u) (Hcont _ _ H)).
  - destruct (ascii_code c =? 45).
    + destruct (sscanf_u_commas (drop (nxt + end_) buf))
        as [| | |ul nl|ul nl c' nle];
        try discriminate; try exact (Hrep _ H);
        exact (extends_trans _ _ _ (extends_mark_range a u ul) (Hcont _ _ H)).
    + exact (extends_trans _ _ _ (extends_mark_cpu a u) (Hcont _ _ H)).
Qed.

(** ** From [main] to sessions *)

(** The parser changes no program variable and toggles no cpu. *)
Lemma parse_loop_world (fuel : nat) (buf : list ascii) :
  forall (nxt : nat) (a : list bool) (w w' : world)
         (r : list bool * parse_end),
    parse_loop fuel buf nxt a w = Ok r w' ->
    regs w' = regs w /\
    exists evs, trace w' = trace w ++ evs /\
                Forall (fun e => is_toggle e = false) evs.
Proof.
  induction fuel as [|fuel IH]; intros nxt a w w' r H; [discriminate|].
  assert (forall nxt1 a1,
             (if more_to_parse buf nxt1 then parse_loop fuel buf nxt1 a1
              else ret (a1, ParsedAll)) w = Ok r w' ->
             regs w' = regs w /\
             exists evs, trace w' = trace w ++ evs /\
                         Forall (fun e => is_toggle e = false) evs) as Hcont.
  { intros nxt1 a1 H1. destruct (more_to_parse buf nxt1).
    - exact (IH _ _ _ _ _ H1).
    - injection H1 as _ <-. split; [reflexivity|].
      exists []. split; [symmetry; apply app_nil_r | constructor]. }
  assert (forall nxt1, report_invalid buf nxt1 a w = Ok r w' ->
             regs w' = regs w /\
             exists evs, trace w' = trace w ++ evs /\
                         Forall (fun e => is_toggle e = false) evs) as Hrep.
  { intros nxt1 H1. unfold report_invalid, bind in H1; simpl in H1.
    injection H1 as _ <-. split; [reflexivity|].
    eexists. split; [reflexivity|]. repeat constructor. }
  rewrite parse_loop_S in H. cbv zeta in H.
  destruct (sscanf_u_sep (drop nxt buf)) as [| | |u nd|u nd c end_];
    try discriminate; try exact (Hrep _ H).
  - exact (Hcont _ _ H).
  - destruct (ascii_code c =? 45); [|exact (Hcont _ _ H)].
    destruct (sscanf_u_commas (drop (nxt + end_) buf))
      as [| | |ul nl|ul nl c' nle];
      try discriminate; try exact (Hrep _ H); exact (Hcont _ _ H).
Qed.

(** After its inventory the daemon has well-sized arrays, nothing taken and
    no cpu toggled: a session can start. *)
Lemma inventory_cpus_start (file : file_read) (max_size : Z) (w0 : world)
    (u : unit) :
  inventory_cpus file (initial_world max_size) = Ok u w0 ->
  well_sized (regs w0) /\ none_taken (regs w0) /\
  Forall (fun e => is_toggle e = false) (trace w0).
Proof.
  unfold inventory_cpus. intros H.
  apply bind_Ok in H as (s & w1 & Hget & H). injection Hget as <- <-.
  apply bind_Ok in H as ([a e] & w1 & Hparse & H).
  unfold bind in H; simpl in H. injection H as _ <-.
  assert (extends no_cpus a /\ regs w1 = initial_state max_size /\
          Forall (fun e => is_toggle e = false) (trace w1))
    as ((Hlen & _) & Hregs & Hquiet).
  { unfold parse_sysfs_cpu_set in Hparse.
    change (cpus_online (regs (initial_world max_size))) with no_cpus in Hparse.
    destruct file as [| |buf]; [| discriminate |].
    - injection Hparse as <- _ <-.
      split; [apply extends_refl|]. split; [reflexivity | constructor].
    - destruct (Nat.eqb (length buf) sizeof_buf).
      + injection Hparse as <- _ <-.
        split; [apply extends_refl|]. split; [reflexivity | constructor].
      + split; [exact (parse_loop_extends _ _ _ _ _ _ _ _ Hparse)|].
        apply parse_loop_world in Hparse as (Hregs & evs & Ht & Hq).
        split; [exact Hregs|]. rewrite Ht. exact Hq. }
  simpl. rewrite Hregs. simpl.
  split; [split; simpl; [rewrite Hlen|]; apply no_cpus_length|].
  split.
  - intros j Hj. exact (no_cpus_get j Hj).
  - apply Forall_app. split; [exact Hquiet | repeat constructor].
Qed.

Section MainLoop.
Variable env : environment.
Variable pipe : pipe_answers.



End MainLoop.

(** ** Invariants of a session *)

(** A property of worlds that every step of [adjust_cpus] and every effect
    of [adjust_memory] keeps, is kept by a session. *)
Section Invariant.
Variable env : environment.
Variable I : world -> Prop.
Hypothesis I_take :
  forall w lo cpu w', I w -> take_step w lo cpu w' -> I w'.
Hypothesis I_release :
  forall w ft cpu w', I w -> release_step w ft cpu w' -> I w'.
Hypothesis I_print : forall w s m, I w -> I (logged w [EvPrint s m]).
Hypothesis I_counter :
  forall w n, I w -> I (World (with_cpus_taken (regs w) n) (trace w)).
Hypothesis I_memory :
  forall w membytes,
    I w -> I (World (with_memory_taken (regs w) membytes)
                (trace w ++ memory_events (regs w) membytes)).

Lemma adjust_cpus_invariant (ncpus : Z) (w w' : world) (u : unit) :
  0 <= ncpus < 4294967296 -> I w -> adjust_cpus env ncpus w = Ok u w' -> I w'.
Proof.
  intros Hn HI H.
  apply adjust_cpus_Ok in H as (_ & r1 & w1 & r2 & w2 & Htake & Hrel & ->).
  pose proof (count_cpu_set_bounds (cpus_taken (regs w))) as [Hcount _].
  assert (I (announced ncpus w)) as HI0.
  { unfold announced. destruct (negb _); [apply I_print|]; exact HI. }
  assert (I w1) as HI1.
  { destruct (take_loop_rule env (fun _ _ w => I w) ncpus) with
      (fuel := loop_fuel) (n := count_cpu_set (cpus_taken (regs w)))
      (lo := max_cpu_count) (w := announced ncpus w) (r := r1) (w' := w1)
      as (lo' & _ & HI1 & _);
      [|rewrite max_cpu_count_eq; lia | exact Hcount | lia | exact HI0
       | exact Htake | exact HI1].
    intros n lo wa cpu wb Ha _ _ Hstep. exact (I_take _ _ _ _ Ha Hstep). }
  assert (I w2) as HI2.
  { destruct (release_loop_rule env (fun _ _ w => I w) ncpus) with
      (fuel := loop_fuel) (n := r1) (ft := 0) (w := w1) (r := r2) (w' := w2)
      as (ft' & _ & HI2 & _);
      [|rewrite max_cpu_count_eq; lia | exact HI1 | exact Hrel | exact HI2].
    intros n ft wa cpu wb Ha _ _ Hstep. exact (I_release _ _ _ _ Ha Hstep). }
  exact (I_print _ Stdout _ (I_counter w2 ncpus HI2)).
Qed.

Lemma apply_desired_invariant (d : desired_state) (w w' : world) (u : unit) :
  I w -> apply_desired env d w = Ok u w' -> I w'.
Proof.
  intros HI H. destruct u.
  apply apply_desired_Ok in H as (w1 & Hcpus & Hmem).
  apply adjust_cpus_invariant in Hcpus;
    [| apply uint_range | apply I_print; exact HI].
  apply adjust_memory_Ok in Hmem as ->. apply I_memory. exact Hcpus.
Qed.

Lemma run_session_invariant (targets : list desired_state) (w w' : world)
    (u : unit) :
  I w -> run_session env targets w = Ok u w' -> I w'.
Proof.
  revert w. induction targets as [|d targets IH]; intros w HI H.
  - injection H as _ <-. exact HI.
  - simpl in H. apply bind_Ok in H as (u1 & w1 & Happly & H).
    exact (IH _ (apply_desired_invariant _ _ _ _ HI Happly) H).
Qed.

End Invariant.

(** ** Cpu 0 is never taken *)

(** When cpu 0 is online and no cpu between it and [last_online] is, the
    scan stops at index 0. *)
Lemma scan_down_stops_at_zero (fuel : nat) (last_online : Z) (w : world) :
  0 < last_online <= max_cpu_count -> (Z.to_nat last_online <= fuel)%nat ->
  array_get (cpus_online (regs w)) 0 = Some true ->
  (forall j, 0 < j < last_online ->
             array_get (cpus_online (regs w)) j = Some false) ->
  scan_down fuel last_online w = Ok 0 w.
Proof.
  revert last_online.
  induction fuel as [|fuel IH]; intros lo Hlo Hfuel Hzero Hoff; [lia|].
  cbn [scan_down]. unfold bind at 1. unfold get at 1. cbv beta iota.
  rewrite uint_small by (rewrite max_cpu_count_eq in Hlo; lia).
  destruct (Z.eq_dec lo 1) as [->|Hne].
  - change (1 - 1) with 0. rewrite Hzero. reflexivity.
  - rewrite (Hoff (lo - 1)) by lia.
    apply IH; [lia | lia | exact Hzero |]. intros j Hj. apply Hoff. lia.
Qed.

(** Then the first loop ends the daemon instead of taking cpu 0. *)
Lemma take_loop_refuses_cpu_zero (env : environment) (fuel : nat)
    (ncpus n_taken last_online : Z) (w : world) :
  n_taken < ncpus -> 0 < last_online <= max_cpu_count ->
  array_get (cpus_online (regs w)) 0 = Some true ->
  (forall j, 0 < j < last_online ->
             array_get (cpus_online (regs w)) j = Some false) ->
  take_loop env (S fuel) ncpus n_taken last_online w =
  Exit EXIT_FAILURE
    (logged w [EvPrint Stderr (MsgFailed "can't exhaust online cpus")]).
Proof.
  intros Hn Hlo Hzero Hoff. rewrite take_loop_S.
  apply Z.ltb_lt in Hn. rewrite Hn.
  unfold bind at 1.
  rewrite (scan_down_stops_at_zero loop_fuel last_online w Hlo);
    [reflexivity | | exact Hzero | exact Hoff].
  rewrite loop_fuel_S. lia.
Qed.

Lemma online_above_zero_none (a : list bool) (lo : Z) :
  length a = Z.to_nat max_cpu_count -> 0 <= lo <= max_cpu_count ->
  online_above_zero a lo = 0 ->
  forall j, 0 < j < lo -> array_get a j = Some false.
Proof.
  intros Hlen Hlo Hzero j Hj. unfold online_above_zero in Hzero.
  destruct (array_get_in a j Hlen ltac:(lia)) as [b Hb].
  destruct b; [exfalso | exact Hb].
  apply array_get_Some in Hb as [_ Hb].
  apply (proj1 (count_cpu_set_zero _) Hzero (Z.to_nat j - 1)%nat).
  rewrite lookup_drop, lookup_take_lt by lia.
  replace (1 + (Z.to_nat j - 1))%nat with (Z.to_nat j) by lia. exact Hb.
Qed.

Lemma online_above_zero_nonneg (a : list bool) (lo : Z) :
  0 <= online_above_zero a lo.
Proof. unfold online_above_zero. apply count_cpu_set_bounds. Qed.

Section Exhaustion.
Variable env : environment.
Hypothesis toggles_succeed : forall t c b, cpu_toggle env t c b = ToggleWrote 1.

Lemma take_loop_exhausts (ncpus : Z) :
  ncpus < 4294967296 ->
  forall (fuel : nat) (n lo : Z) (w : world),
    length (cpus_online (regs w)) = Z.to_nat max_cpu_count ->
    0 < lo <= max_cpu_count -> 0 <= n ->
    array_get (cpus_online (regs w)) 0 = Some true ->
    (forall j, lo <= j -> array_get (cpus_online (regs w)) j <> Some true) ->
    n + online_above_zero (cpus_online (regs w)) lo < ncpus ->
    (Z.to_nat (online_above_zero (cpus_online (regs w)) lo) < fuel)%nat ->
    exists w',
      take_loop env fuel ncpus n lo w = Exit EXIT_FAILURE w' /\
      array_get (cpus_online (regs w')) 0 = Some true /\
      (forall j, 0 < j -> array_get (cpus_online (regs w')) j <> Some true) /\
      exists evs,
        trace w' = trace w ++ evs ++
                   [EvPrint Stderr (MsgFailed "can't exhaust online cpus")] /\
        Z.of_nat (length evs) = online_above_zero (cpus_online (regs w)) lo /\
        Forall (fun e => exists cpu, 0 < cpu /\ e = EvSetCpu cpu false) evs.
Proof.
  intros Hnc.
  induction fuel as [|fuel IH]; intros n lo w Hlen Hlo Hn Hzero Habove Hcount Hfuel;
    [lia|].
  pose proof (online_above_zero_nonneg (cpus_online (regs w)) lo) as Hnn.
  destruct (Z.eq_dec (online_above_zero (cpus_online (regs w)) lo) 0) as [Hnone|Hsome].
  - pose proof (online_above_zero_none _ lo Hlen ltac:(lia) Hnone) as Hoff.
    rewrite (take_loop_refuses_cpu_zero env fuel ncpus n lo w)
      by (assumption || lia).
    eexists. split; [reflexivity|]. cbn [logged regs trace].
    split; [exact Hzero|]. split.
    + intros j Hj. destruct (Z.lt_ge_cases j lo) as [Hlt|Hge].
      * rewrite Hoff by lia. discriminate.
      * apply Habove. exact Hge.
    + exists []. split; [reflexivity|].
      split; [rewrite Hnone; reflexivity | constructor].
  - rewrite take_loop_S.
    destruct (Z.ltb_spec n ncpus) as [_|]; [|lia].
    destruct (scan_down_finds loop_fuel lo w Hlen ltac:(lia))
      as (r & Hr & Hrange & Hcnt); [rewrite loop_fuel_S; lia | lia |].
    pose proof (scan_down_Ok loop_fuel lo w w r ltac:(lia) Hr)
      as (_ & _ & _ & Hbetween).
    unfold bind at 1. rewrite Hr.
    unfold bind at 1. destruct (r =? 0) eqn:Hz; [apply Z.eqb_eq in Hz; lia|].
    unfold ret at 1.
    unfold bind at 1. rewrite take_cpu_succeeds by apply toggles_succeed.
    rewrite uint_small by lia.
    destruct (IH (n + 1) r
                (World (taken_state (regs w) r) (trace w ++ [EvSetCpu r false])))
      as (w' & Hexit & Hzero' & Habove' & evs & Htrace & Hlenevs & Hevs).
    + cbn [regs trace taken_state with_sets cpus_online]. rewrite array_set_length. exact Hlen.
    + lia.
    + lia.
    + cbn [regs trace taken_state with_sets cpus_online]. rewrite array_get_set_ne by lia. exact Hzero.
    + cbn [regs trace taken_state with_sets cpus_online]. intros j Hj Hget.
      apply array_get_set_false in Hget as [Hne Hget].
      destruct (Z.lt_ge_cases j lo) as [Hlt|Hge].
      * rewrite Hbetween in Hget by lia. discriminate.
      * exact (Habove j Hge Hget).
    + cbn [regs trace taken_state with_sets cpus_online]. rewrite online_above_zero_set by lia. lia.
    + cbn [regs trace taken_state with_sets cpus_online]. rewrite online_above_zero_set by lia. lia.
    + exists w'. split; [exact Hexit|]. split; [exact Hzero'|].
      split; [exact Habove'|].
      exists (EvSetCpu r false :: evs). split; [|split].
      * rewrite Htrace. cbn [trace]. rewrite <- app_assoc. reflexivity.
      * cbn [length]. rewrite Nat2Z.inj_succ, Hlenevs.
        cbn [regs trace taken_state with_sets cpus_online].
        rewrite online_above_zero_set by lia. lia.
      * constructor; [exists r; split; [lia | reflexivity] | exact Hevs].
Qed.

End Exhaustion.

(** With cpu 0 online, a target beyond what can be spared takes every
    other online cpu and ends in the refusal to take cpu 0. *)
Lemma adjust_cpus_exhausts (env : environment)
    (ncpus : Z) (w : world) :
  (forall t c b, cpu_toggle env t c b = ToggleWrote 1) ->
  well_sized (regs w) ->
  count_cpu_set (cpus_taken (regs w)) = wastebin_cpus_taken (regs w) ->
  is_online (regs w) 0 ->
  count_cpu_set (cpus_taken (regs w)) + spare_cpus (regs w) < ncpus ->
  ncpus < UINT_MODULUS ->
  exists w' evs,
    adjust_cpus env ncpus w = Exit EXIT_FAILURE w' /\
    is_online (regs w') 0 /\
    (forall j, 0 < j -> ~ is_online (regs w') j) /\
    trace w' = trace w ++ EvPrint Stdout (MsgAdjustCpus ncpus) :: evs ++
               [EvPrint Stderr (MsgFailed "can't exhaust online cpus")] /\
    Z.of_nat (length evs) = spare_cpus (regs w) /\
    Forall (fun e => exists cpu, 0 < cpu /\ e = EvSetCpu cpu false) evs.
Proof.
  intros Htoggle [Hon Htk] Hcnt Hzero Hmore Hnc.
  pose proof (count_cpu_set_bounds (cpus_taken (regs w))) as [Hc0 _].
  pose proof (count_cpu_set_bounds (drop 1 (cpus_online (regs w)))) as [Hs0 Hs1].
  rewrite length_drop, Hon, max_cpu_count_eq in Hs1.
  unfold spare_cpus in *.
  assert (announced ncpus w = logged w [EvPrint Stdout (MsgAdjustCpus ncpus)])
    as Hann.
  { unfold announced. destruct (Z.eqb_spec ncpus (count_cpu_set (cpus_taken (regs w))));
      [lia | reflexivity]. }
  destruct (take_loop_exhausts env Htoggle ncpus Hnc loop_fuel
              (count_cpu_set (cpus_taken (regs w))) max_cpu_count
              (announced ncpus w))
    as (w' & Hexit & Hzero' & Habove' & evs & Htrace & Hlen & Hevs).
  - rewrite regs_announced. exact Hon.
  - rewrite max_cpu_count_eq. lia.
  - exact Hc0.
  - rewrite regs_announced. exact Hzero.
  - intros j Hj. rewrite array_get_out by exact Hj. discriminate.
  - rewrite regs_announced, online_above_zero_all by exact Hon. lia.
  - rewrite regs_announced, online_above_zero_all by exact Hon.
    rewrite loop_fuel_S, max_cpu_count_eq. lia.
  - rewrite regs_announced, online_above_zero_all in Hlen by exact Hon.
    exists w', evs. split; [|split; [exact Hzero'|split; [exact Habove'|]]].
    + unfold adjust_cpus, bind; simpl.
      rewrite <- Hcnt, Z.eqb_refl; simpl.
      assert ((if negb (ncpus =? count_cpu_set (cpus_taken (regs w)))
               then print Stdout (MsgAdjustCpus ncpus) else ret tt) w
              = Ok tt (announced ncpus w)) as ->.
      { unfold announced. destruct (negb _); reflexivity. }
      rewrite Hexit. reflexivity.
    + split; [|split; [exact Hlen | exact Hevs]].
      rewrite Htrace, Hann. cbn [logged trace].
      rewrite <- app_assoc. reflexivity.
Qed.

Lemma apply_desired_keeps_cpu_zero (env : environment) (d : desired_state)
    (w w' : world) :
  cpu_zero_kept w -> apply_desired env d w = Ok tt w' -> cpu_zero_kept w'.
Proof.
  apply (apply_desired_invariant env cpu_zero_kept).
  - intros w1 lo cpu w2 [Htk Htr] (Hcpu & _ & _ & ->). split.
    + unfold is_taken in *. cbn [regs]. unfold taken_state, with_sets.
      cbn [cpus_taken]. rewrite array_get_set_other by lia. exact Htk.
    + cbn [trace]. intros [H|H]%elem_of_app; [exact (Htr H)|].
      apply list_elem_of_singleton in H. injection H as H. lia.
  - intros w1 ft cpu w2 [Htk Htr] (_ & _ & _ & ->). split.
    + unfold is_taken in *. cbn [regs]. unfold released_state, with_sets.
      cbn [cpus_taken]. intros H. apply array_get_set_false in H as [_ H].
      exact (Htk H).
    + cbn [trace]. intros [H|H]%elem_of_app; [exact (Htr H)|].
      apply list_elem_of_singleton in H. discriminate.
  - intros w1 s m [Htk Htr]. split; [exact Htk|].
    cbn [logged trace]. intros [H|H]%elem_of_app; [exact (Htr H)|].
    apply list_elem_of_singleton in H. discriminate.
  - intros w1 n H. exact H.
  - intros w1 m [Htk Htr]. split; [exact Htk|].
    cbn [trace]. intros [H|H]%elem_of_app; [exact (Htr H)|].
    pose proof (memory_events_quiet (regs w1) m) as Hq.
    rewrite Forall_forall in Hq. specialize (Hq _ H). discriminate.
Qed.

Lemma apply_desired_exhausts (env : environment) (d : desired_state)
    (w : world) :
  (forall t c b, cpu_toggle env t c b = ToggleWrote 1) ->
  consistent (regs w) -> is_online (regs w) 0 ->
  count_cpu_set (cpus_taken (regs w)) + spare_cpus (regs w) < cpus d ->
  cpus d < UINT_MODULUS ->
  exists w' t,
    apply_desired env d w = Exit EXIT_FAILURE w' /\
    trace w' = trace w ++ t ++
               [EvPrint Stderr (MsgFailed "can't exhaust online cpus")] /\
    is_online (regs w') 0.
Proof.
  intros Htog (Hsz & _ & Hctr & _) Hzero Hmore Hlt.
  pose proof (count_cpu_set_bounds (cpus_taken (regs w))) as [Hc0 _].
  pose proof (count_cpu_set_bounds (drop 1 (cpus_online (regs w)))) as [Hs0 _].
  fold (spare_cpus (regs w)) in Hs0.
  assert (cpus d mod UINT_MODULUS = cpus d) as Hmod
    by (apply uint_small; change UINT_MODULUS with 4294967296 in Hlt; lia).
  destruct (adjust_cpus_exhausts env (cpus d) (announced_target d w) Htog
              Hsz Hctr Hzero Hmore Hlt)
    as (w' & evs & Hexit & Hzero' & _ & Htrace & _).
  exists w', (EvPrint Stdout (MsgDisabling (cpus d) (membytes d))
              :: EvPrint Stdout (MsgAdjustCpus (cpus d)) :: evs).
  split; [|split; [|exact Hzero']].
  - unfold apply_desired. unfold bind at 1. unfold print, emit at 1.
    fold (logged w [EvPrint Stdout (MsgDisabling (cpus d) (membytes d))]).
    fold (announced_target d w). unfold bind at 1.
    rewrite Hmod, Hexit. reflexivity.
  - rewrite Htrace. unfold announced_target. cbn [logged trace].
    rewrite <- app_assoc. reflexivity.
Qed.

(** ** C1: targets within reach, cpu 0, and targets beyond reach *)

(** C1, amended. From every consistent state, when every cpu toggle and
    every memory lock succeeds, one convergence iteration for a target
    [(membytes, cpus)] returns with [|Taken| = cpus] and
    [memory_taken = membytes], for every [membytes] in
    [[0, wastebin_max_size]] and every [cpus >= 0] that does not ask for
    more additional cpus than there are online cpus other than cpu 0
    ([cpus <= |Taken| + spare_cpus]); the state it leaves is consistent.
    Cpu 0 is never taken: an iteration that returns, whatever the
    environment and the target, has neither put cpu 0 in [Taken] nor
    written '0' to its control file. And when cpu 0 is online, a target
    that would need it ([cpus > |Taken| + spare_cpus]) ends the daemon with
    "can't exhaust online cpus", cpu 0 still online. *)
Theorem convergence_reaches_target (env : environment) (d : desired_state)
    (w : world) :
  (all_succeed env -> consistent (regs w) ->
   0 <= cpus d <= count_cpu_set (cpus_taken (regs w)) + spare_cpus (regs w) ->
   0 <= membytes d <= wastebin_max_size (regs w) ->
   exists w',
     apply_desired env d w = Ok tt w' /\
     count_cpu_set (cpus_taken (regs w')) = cpus d /\
     wastebin_memory_taken (regs w') = membytes d /\
     consistent (regs w')) /\
  (forall w',
     apply_desired env d w = Ok tt w' ->
     ~ is_taken (regs w) 0 -> EvSetCpu 0 false ∉ trace w ->
     ~ is_taken (regs w') 0 /\ EvSetCpu 0 false ∉ trace w') /\
  (all_succeed env -> consistent (regs w) -> is_online (regs w) 0 ->
   count_cpu_set (cpus_taken (regs w)) + spare_cpus (regs w) < cpus d ->
   cpus d < UINT_MODULUS ->
   exists w' t,
     apply_desired env d w = Exit EXIT_FAILURE w' /\
     trace w' = trace w ++ t ++
                [EvPrint Stderr (MsgFailed "can't exhaust online cpus")] /\
     is_online (regs w') 0).
Proof.
  split; [exact (apply_desired_converges env d w)|]. split.
  - intros w' Hrun Htk Htr.
    exact (apply_desired_keeps_cpu_zero env d w w' (conj Htk Htr) Hrun).
  - intros [Htog _]. exact (apply_desired_exhausts env d w Htog).
Qed.

Lemma convergence_reaches_target_witness :
  (exists w',
     apply_desired env_ok (Desired (2 ^ 31) 2) eight_cpus = Ok tt w' /\
     (count_cpu_set (cpus_taken (regs w')) = 2 /\
      wastebin_memory_taken (regs w') = 2 ^ 31 /\
      consistent (regs w')) /\
     ~ is_taken (regs w') 0 /\ EvSetCpu 0 false ∉ trace w') /\
  (exists w' t,
     apply_desired env_ok (Desired 0 2) two_cpus = Exit EXIT_FAILURE w' /\
     trace w' = trace two_cpus ++ t ++
                [EvPrint Stderr (MsgFailed "can't exhaust online cpus")] /\
     is_online (regs w') 0).
Proof.
  split.
  - destruct (proj1 (convergence_reaches_target env_ok (Desired (2 ^ 31) 2)
                       eight_cpus))
      as (w' & Hrun & Hpost).
    + exact env_ok_all_succeed.
    + exact eight_cpus_consistent.
    + vm_compute. split; discriminate.
    + vm_compute. split; discriminate.
    + exists w'. split; [exact Hrun|]. split; [exact Hpost|].
      apply (proj1 (proj2 (convergence_reaches_target env_ok
                             (Desired (2 ^ 31) 2) eight_cpus)) w' Hrun).
      * intros H. exact (no_cpus_get 0 H).
      * apply not_elem_of_nil.
  - apply (proj2 (proj2 (convergence_reaches_target env_ok (Desired 0 2)
                           two_cpus))).
    + exact env_ok_all_succeed.
    + exact (machine_consistent [0; 1] (2 ^ 33) ltac:(lia)).
    + vm_compute. reflexivity.
    + vm_compute. reflexivity.
    + vm_compute. reflexivity.
Defined.

(** * Further properties *)

(** ** Command-line arguments *)

Lemma to_long_small (x : Z) : 0 <= x <= LONG_MAX -> to_long x = x.
Proof.
  intros H. unfold to_long. destruct (Z.leb_spec x LONG_MAX); [reflexivity | lia].
Qed.

Lemma to_long_range (x : Z) :
  0 <= x <= ULONG_MAX -> - LONG_MAX - 1 <= to_long x <= LONG_MAX.
Proof.
  intros H. unfold to_long, ULONG_MAX, LONG_MAX, SIZE_MODULUS in *.
  destruct (Z.leb_spec x (2 ^ 63 - 1)); lia.
Qed.

Lemma page_round_spec (n : Z) :
  page_round n mod 4096 = 0 /\ n <= page_round n < n + 4096.
Proof.
  unfold page_round. split.
  - apply Z.mod_mul. lia.
  - pose proof (Z.div_mod (n + 4095) 4096 ltac:(lia)) as Hdm.
    pose proof (Z.mod_pos_bound (n + 4095) 4096 ltac:(lia)) as Hm. lia.
Qed.

(** Masking with [~0xfffUL] clears the twelve low bits. *)
Lemma land_page_mask (x : Z) :
  0 <= x < SIZE_MODULUS -> Z.land x (SIZE_MODULUS - 4096) = x / 4096 * 4096.
Proof.
  intros Hx.
  change (SIZE_MODULUS - 4096) with (Z.ldiff (Z.ones 64) (Z.ones 12)).
  change 4096 with (2 ^ 12).
  rewrite <- Z.shiftr_div_pow2, <- Z.shiftl_mul_pow2 by lia.
  rewrite <- Z.ldiff_ones_r by lia.
  apply Z.bits_inj'. intros k Hk.
  rewrite Z.land_spec, !Z.ldiff_spec.
  destruct (Z.ltb_spec k 64) as [Hlt|Hge].
  - rewrite (Z.ones_spec_low 64 k) by lia. rewrite andb_true_l. reflexivity.
  - assert (Z.testbit x k = false) as ->; [|reflexivity].
    destruct (Z.eq_dec x 0) as [->|Hnz]; [apply Z.bits_0|].
    apply Z.bits_above_log2; [lia|].
    apply Z.lt_le_trans with 64; [|exact Hge].
    apply Z.log2_lt_pow2; [lia|]. exact (proj2 Hx).
Qed.

Lemma scale_ok_rounds (value : Z) :
  0 <= value <= LONG_MAX - 4095 -> scale_ok 0 value = Some (page_round value).
Proof.
  intros Hv. unfold scale_ok. change (negb (0 =? 0)) with false. cbv iota.
  destruct (Z.leb_spec (value + 4095) LONG_MAX) as [_|Hgt]; [|lia].
  assert (LONG_MAX < SIZE_MODULUS) as Hlt by reflexivity.
  rewrite Z.mod_small by lia.
  rewrite land_page_mask by lia.
  fold (page_round value).
  pose proof (page_round_spec value) as [_ Hr].
  rewrite to_long_small by lia. reflexivity.
Qed.

Lemma scale_ok_cases (mbz value v : Z) :
  0 <= value -> scale_ok mbz value = Some v ->
  v = -1 \/ (mbz = 0 /\ v = page_round value /\ v <= LONG_MAX).
Proof.
  intros Hv H. unfold scale_ok in H.
  destruct (Z.eqb_spec mbz 0) as [->|Hne]; cbn [negb] in H.
  - destruct (Z.leb_spec (value + 4095) LONG_MAX) as [Hle|Hgt]; [|discriminate].
    fold (scale_ok 0 value) in H.
    assert (scale_ok 0 value = Some v) as H'.
    { unfold scale_ok. change (negb (0 =? 0)) with false. cbv iota.
      destruct (Z.leb_spec (value + 4095) LONG_MAX); [exact H | lia]. }
    rewrite scale_ok_rounds in H' by lia. injection H' as <-.
    right. pose proof (page_round_spec value). lia.
  - injection H as <-. left. reflexivity.
Qed.

(** *** [strtoul] *)

Lemma scan_digits_nonneg (s : list ascii) (acc : Z) :
  0 <= acc -> 0 <= fst (fst (scan_digits acc s)).
Proof.
  revert acc. induction s as [|c s IH]; intros acc Hacc; cbn [scan_digits].
  - exact Hacc.
  - destruct (is_digit c) eqn:Hc; [|exact Hacc].
    apply is_digit_code in Hc.
    specialize (IH (10 * acc + digit_value c)).
    destruct (scan_digits (10 * acc + digit_value c) s) as [[v n] s'].
    apply IH. unfold digit_value. lia.
Qed.

Lemma strtoul_range (arg : list ascii) : 0 <= fst (strtoul arg) <= ULONG_MAX.
Proof.
  unfold strtoul. destruct (skip_space arg) as [nsp s1].
  set (sg := match s1 with
             | c :: rest =>
                 if ascii_code c =? 45 then (true, rest)
                 else if ascii_code c =? 43 then (false, rest)
                 else (false, s1)
             | [] => (false, s1)
             end).
  destruct sg as [negative s2].
  pose proof (scan_digits_nonneg s2 0 ltac:(lia)) as Hv.
  destruct (scan_digits 0 s2) as [[v n] endp]. cbn [fst] in *.
  destruct n as [|n]; cbn [fst]; [unfold ULONG_MAX; lia|].
  destruct (Z.leb_spec v ULONG_MAX) as [Hle|Hgt]; [|unfold ULONG_MAX; lia].
  destruct negative; [|lia].
  pose proof (Z.mod_pos_bound (- v) SIZE_MODULUS ltac:(reflexivity)).
  unfold ULONG_MAX, SIZE_MODULUS in *. lia.
Qed.

Lemma strtoul_decimal (n : Z) (rest : list ascii) :
  0 <= n -> no_digit_next rest ->
  strtoul (decimal n ++ rest) =
  (if n <=? ULONG_MAX then n else ULONG_MAX, rest).
Proof.
  intros Hn Hrest.
  pose proof (decimal_digits_are_digits n Hn) as Hds.
  pose proof (decimal_nonempty n) as Hne.
  pose proof (decimal_value n Hn) as Hval.
  pose proof (scan_digits_app 0 (decimal n) rest Hds Hrest) as Hscan.
  destruct (decimal n) as [|c ds] eqn:Hdec; [congruence|].
  pose proof (Forall_inv Hds) as Hc. simpl in Hc.
  destruct (digit_is_plain c Hc) as (Hsp & H0 & H45 & H43 & _).
  unfold strtoul. simpl app. simpl skip_space. rewrite Hsp.
  rewrite H45, H43. simpl app in Hscan. rewrite Hscan.
  simpl length. rewrite Hval. reflexivity.
Qed.

Lemma char_at_decimal (n : Z) (rest : list ascii) :
  0 <= n -> (char_at (decimal n ++ rest) =? 0) = false.
Proof.
  intros Hn.
  pose proof (decimal_digits_are_digits n Hn) as Hds.
  pose proof (decimal_nonempty n) as Hne.
  destruct (decimal n) as [|c ds]; [congruence|].
  pose proof (Forall_inv Hds) as Hc. simpl in Hc.
  destruct (digit_is_plain c Hc) as (_ & H0 & _). exact H0.
Qed.

(** X1. [str2ul] reads back the decimal numeral of every number that a
    [long int] holds: the number of cpus asked for is the number written. A
    larger number is refused with -1. *)
Theorem str2ul_reads_decimal (n : Z) :
  0 <= n -> str2ul (decimal n) = if n <=? LONG_MAX then n else -1.
Proof.
  intros Hn. unfold str2ul.
  pose proof (strtoul_decimal n [] Hn I) as Hs.
  pose proof (char_at_decimal n [] Hn) as Hc.
  rewrite app_nil_r in Hs, Hc. rewrite Hs, Hc.
  cbn [char_at negb andb]. change (0 =? 0) with true. cbn [andb].
  unfold to_long, ULONG_MAX, LONG_MAX, SIZE_MODULUS.
  destruct (Z.leb_spec n (2 ^ 63 - 1)) as [Hle|Hgt].
  - destruct (Z.leb_spec n (2 ^ 64 - 1)); [|lia].
    destruct (Z.leb_spec n (2 ^ 63 - 1)); [|lia].
    destruct (Z.geb_spec n 0); [reflexivity | lia].
  - destruct (Z.leb_spec n (2 ^ 64 - 1)).
    + destruct (Z.leb_spec n (2 ^ 63 - 1)); [lia|].
      destruct (Z.geb_spec (n - 2 ^ 64) 0); [lia | reflexivity].
    + reflexivity.
Qed.

Lemma str2ul_reads_decimal_witness :
  str2ul (decimal 3) = 3 /\ str2ul (decimal (2 ^ 63)) = -1.
Proof.
  split.
  - apply (str2ul_reads_decimal 3). lia.
  - apply (str2ul_reads_decimal (2 ^ 63)). lia.
Defined.

Lemma str2ul_range (arg : list ascii) :
  str2ul arg = -1 \/ 0 <= str2ul arg <= LONG_MAX.
Proof.
  unfold str2ul. pose proof (strtoul_range arg) as Hr.
  destruct (strtoul arg) as [u endp]. cbn [fst] in Hr.
  pose proof (to_long_range u Hr) as Hl.
  destruct ((char_at endp =? 0) && negb (char_at arg =? 0)); cbn [andb];
    [|left; reflexivity].
  destruct (Z.geb_spec (to_long u) 0); [right; lia | left; reflexivity].
Qed.

(** X2. [str2ul] returns -1 for a numeral followed by anything that is not
    a digit: the whole argument has to be the number. *)
Theorem str2ul_rejects_trailing_text (n : Z) (c : ascii) (rest : list ascii) :
  0 <= n -> is_digit c = false -> ascii_code c <> 0 ->
  str2ul (decimal n ++ c :: rest) = -1.
Proof.
  intros Hn Hc Hnul. unfold str2ul.
  rewrite strtoul_decimal by assumption.
  cbn [char_at]. apply Z.eqb_neq in Hnul. rewrite Hnul. reflexivity.
Qed.

Lemma str2ul_rejects_trailing_text_witness :
  str2ul (decimal 4 ++ list_ascii_of_string "x") = -1.
Proof.
  apply (str2ul_rejects_trailing_text 4 "x"%char []); [lia | reflexivity |].
  vm_compute. discriminate.
Defined.

Lemma strtoul_minus_decimal (n : Z) (rest : list ascii) :
  0 <= n -> no_digit_next rest ->
  strtoul ("-"%char :: decimal n ++ rest) =
  (if n <=? ULONG_MAX then (- n) mod SIZE_MODULUS else ULONG_MAX, rest).
Proof.
  intros Hn Hrest.
  pose proof (decimal_digits_are_digits n Hn) as Hds.
  pose proof (decimal_nonempty n) as Hne.
  pose proof (decimal_value n Hn) as Hval.
  pose proof (scan_digits_app 0 (decimal n) rest Hds Hrest) as Hscan.
  unfold strtoul. cbn [skip_space].
  change (is_space "-"%char) with false. cbv iota.
  change (ascii_code "-"%char =? 45) with true. cbv iota.
  rewrite Hscan, Hval.
  destruct (decimal n) as [|c ds]; [congruence|]. reflexivity.
Qed.

(** X3. A minus sign is not what makes [str2ul] reject an argument: the
    number is negated in [unsigned long] and the result read as a
    [long int]. So [-n] is refused for [n] from 1 to [2^63], while [-0] is
    0 and [-n] for a larger [n] is accepted as [2^64 - n]. *)
Theorem str2ul_minus_sign (n : Z) :
  0 <= n <= ULONG_MAX ->
  str2ul ("-"%char :: decimal n) =
  if n =? 0 then 0 else if n <=? LONG_MAX + 1 then -1 else SIZE_MODULUS - n.
Proof.
  intros Hn. unfold str2ul.
  pose proof (strtoul_minus_decimal n [] (proj1 Hn) I) as Hs.
  rewrite app_nil_r in Hs. rewrite Hs.
  destruct (Z.leb_spec n ULONG_MAX) as [_|?]; [|lia].
  cbn [char_at]. change (0 =? 0) with true.
  change (ascii_code "-"%char =? 0) with false. cbn [negb andb].
  unfold ULONG_MAX, LONG_MAX, SIZE_MODULUS in *.
  destruct (Z.eqb_spec n 0) as [->|Hnz]; [reflexivity|].
  assert ((- n) mod 2 ^ 64 = 2 ^ 64 - n) as ->.
  { symmetry. apply (Z.mod_unique_pos _ _ (-1)); lia. }
  unfold to_long, LONG_MAX, SIZE_MODULUS.
  destruct (Z.leb_spec n (2 ^ 63 - 1 + 1)) as [Hle|Hgt].
  - destruct (Z.leb_spec (2 ^ 64 - n) (2 ^ 63 - 1)); [lia|].
    destruct (Z.geb_spec (2 ^ 64 - n - 2 ^ 64) 0); [lia | reflexivity].
  - destruct (Z.leb_spec (2 ^ 64 - n) (2 ^ 63 - 1)); [|lia].
    destruct (Z.geb_spec (2 ^ 64 - n) 0); [reflexivity | lia].
Qed.

Lemma str2ul_minus_sign_witness :
  str2ul ("-"%char :: decimal 2) = -1 /\
  str2ul ("-"%char :: decimal 18446744073709551615) = 1.
Proof.
  split.
  - apply (str2ul_minus_sign 2). unfold ULONG_MAX. lia.
  - apply (str2ul_minus_sign 18446744073709551615). unfold ULONG_MAX. lia.
Defined.

(** *** [strm2ul] *)

Lemma unit_shift_cases (u : ascii) (k : Z) :
  unit_shift u = Some k ->
  is_digit u = false /\ is_space u = false /\ (ascii_code u =? 0) = false /\
  (ascii_code u =? 45) = false /\ (ascii_code u =? 43) = false /\
  (k = 10 \/ k = 20 \/ k = 30 \/ k = 40).
Proof.
  destruct u as [[] [] [] [] [] [] [] []]; vm_compute; intros H;
    try discriminate H; injection H as <-;
    repeat split; auto.
Qed.

Lemma strm2ul_unit (value : Z) (u : ascii) (k : Z) (after : list ascii) :
  unit_shift u = Some k -> 0 <= value <= LONG_MAX ->
  strm2ul (decimal value ++ u :: after) =
  match shift_left_long value k with
  | Some v => scale_ok (char_at after) v
  | None => None
  end.
Proof.
  intros Hu Hv. pose proof (unit_shift_cases u k Hu) as (Hd & _ & H0 & _).
  unfold strm2ul. rewrite strtoul_decimal by (lia || exact Hd).
  rewrite char_at_decimal by lia.
  assert (LONG_MAX <= ULONG_MAX) by (unfold LONG_MAX, ULONG_MAX; lia).
  destruct (Z.leb_spec value ULONG_MAX); [|lia].
  rewrite to_long_small by lia.
  destruct (Z.geb_spec value 0); [|lia]. cbn [negb andb char_at tail].
  rewrite H0. unfold unit_shift in Hu.
  destruct ((ascii_code u =? 107) || (ascii_code u =? 75));
    [injection Hu as <-; reflexivity|].
  destruct ((ascii_code u =? 109) || (ascii_code u =? 77));
    [injection Hu as <-; reflexivity|].
  destruct ((ascii_code u =? 103) || (ascii_code u =? 71));
    [injection Hu as <-; reflexivity|].
  destruct ((ascii_code u =? 116) || (ascii_code u =? 84));
    [injection Hu as <-; reflexivity | discriminate].
Qed.

Lemma shift_left_long_fits (value k : Z) :
  value * 2 ^ k <= LONG_MAX -> shift_left_long value k = Some (value * 2 ^ k).
Proof.
  intros H. unfold shift_left_long.
  destruct (Z.leb_spec (value * 2 ^ k) LONG_MAX); [reflexivity | lia].
Qed.

(** X4. [strm2ul] reads an amount of memory: a decimal number alone is a
    number of bytes, and followed by one of the letters k, m, g, t in
    either case it is multiplied by 2^10, 2^20, 2^30 or 2^40; the result is
    rounded up to whole pages of 4096 bytes. *)
Theorem strm2ul_reads_amount (n : Z) :
  0 <= n ->
  (n + 4095 <= LONG_MAX -> strm2ul (decimal n) = Some (page_round n)) /\
  forall (u : ascii) (k : Z),
    unit_shift u = Some k -> n * 2 ^ k + 4095 <= LONG_MAX ->
    strm2ul (decimal n ++ [u]) = Some (page_round (n * 2 ^ k)).
Proof.
  intros Hn. split.
  - intros Hfit. unfold strm2ul.
    pose proof (strtoul_decimal n [] Hn I) as Hs.
    pose proof (char_at_decimal n [] Hn) as Hc.
    rewrite app_nil_r in Hs, Hc. rewrite Hs, Hc.
    unfold LONG_MAX, ULONG_MAX in *.
    destruct (Z.leb_spec n (2 ^ 64 - 1)); [|lia].
    rewrite to_long_small by (unfold LONG_MAX; lia).
    destruct (Z.geb_spec n 0); [|lia]. cbn [negb andb char_at].
    change (0 =? 0) with true. cbv iota.
    apply scale_ok_rounds. unfold LONG_MAX. lia.
  - intros u k Hu Hfit.
    pose proof (unit_shift_cases u k Hu) as (_ & _ & _ & _ & _ & Hk).
    assert (1 <= 2 ^ k) by (destruct Hk as [->|[->|[->| ->]]]; lia).
    assert (0 <= n * 2 ^ k) by nia.
    assert (n <= n * 2 ^ k) by nia.
    rewrite strm2ul_unit with (k := k) by (assumption || lia).
    rewrite shift_left_long_fits by lia.
    cbn [char_at]. apply scale_ok_rounds. lia.
Qed.

Lemma strm2ul_reads_amount_witness :
  strm2ul (decimal 3 ++ list_ascii_of_string "G") = Some (3 * 2 ^ 30) /\
  strm2ul (decimal 5000) = Some 8192.
Proof.
  split.
  - apply (proj2 (strm2ul_reads_amount 3 ltac:(lia)) "G"%char 30);
      [reflexivity | unfold LONG_MAX; lia].
  - apply (proj1 (strm2ul_reads_amount 5000 ltac:(lia))). unfold LONG_MAX. lia.
Defined.

(** X5. Behind a unit letter the argument has to end: anything after it
    makes [strm2ul] return -1. *)
Theorem strm2ul_rejects_text_after_unit (n : Z) (u c : ascii) (k : Z)
    (rest : list ascii) :
  0 <= n -> unit_shift u = Some k -> n * 2 ^ k <= LONG_MAX ->
  ascii_code c <> 0 ->
  strm2ul (decimal n ++ u :: c :: rest) = Some (-1).
Proof.
  intros Hn Hu Hfit Hc.
  pose proof (unit_shift_cases u k Hu) as (_ & _ & _ & _ & _ & Hk).
  assert (1 <= 2 ^ k) by (destruct Hk as [->|[->|[->| ->]]]; lia).
  assert (n <= n * 2 ^ k) by nia.
  rewrite strm2ul_unit with (k := k) by (assumption || lia).
  rewrite shift_left_long_fits by lia.
  cbn [char_at]. unfold scale_ok.
  apply Z.eqb_neq in Hc. rewrite Hc. reflexivity.
Qed.

Lemma strm2ul_rejects_text_after_unit_witness :
  strm2ul (decimal 2 ++ list_ascii_of_string "GB") = Some (-1).
Proof.
  apply (strm2ul_rejects_text_after_unit 2 "G"%char "B"%char 30 []);
    [lia | reflexivity | unfold LONG_MAX; lia | vm_compute; discriminate].
Defined.

(** X6. [strm2ul] does not check the multiplication: an amount that,
    with its unit, does not fit a [long int] is not refused; the shift
    overflows, which the C standard leaves undefined. *)
Theorem strm2ul_overflow_is_unchecked (n : Z) (u : ascii) (k : Z) :
  0 <= n <= LONG_MAX -> unit_shift u = Some k -> LONG_MAX < n * 2 ^ k ->
  strm2ul (decimal n ++ [u]) = None.
Proof.
  intros Hn Hu Hbig. rewrite strm2ul_unit with (k := k) by assumption.
  unfold shift_left_long.
  destruct (Z.leb_spec (n * 2 ^ k) LONG_MAX); [lia | reflexivity].
Qed.

Lemma strm2ul_overflow_is_unchecked_witness :
  strm2ul (decimal 8388608 ++ list_ascii_of_string "t") = None.
Proof.
  apply (strm2ul_overflow_is_unchecked 8388608 "t"%char 40);
    [unfold LONG_MAX; lia | reflexivity | unfold LONG_MAX; lia].
Defined.

(** X7. [strm2ul] does not ask for a digit: a unit letter alone is taken
    as 0 bytes. *)
Theorem strm2ul_accepts_bare_unit (u : ascii) (k : Z) :
  unit_shift u = Some k -> strm2ul [u] = Some 0.
Proof.
  destruct u as [[] [] [] [] [] [] [] []]; vm_compute; intros H;
    try discriminate H; reflexivity.
Qed.

Lemma strm2ul_accepts_bare_unit_witness :
  strm2ul (list_ascii_of_string "K") = Some 0.
Proof. apply (strm2ul_accepts_bare_unit "K"%char 10). reflexivity. Defined.

Lemma strm2ul_cases (arg : list ascii) (v : Z) :
  strm2ul arg = Some v -> v = -1 \/ (0 <= v <= LONG_MAX /\ v mod 4096 = 0).
Proof.
  unfold strm2ul. pose proof (strtoul_range arg) as Hr.
  destruct (strtoul arg) as [u endp]. cbn [fst] in Hr.
  destruct (negb (char_at arg =? 0)); cbn [andb];
    [|intros H; injection H as <-; left; reflexivity].
  destruct (Z.geb_spec (to_long u) 0) as [Hge|Hlt];
    [|intros H; injection H as <-; left; reflexivity].
  assert (forall mbz value, 0 <= value -> scale_ok mbz value = Some v ->
            v = -1 \/ (0 <= v <= LONG_MAX /\ v mod 4096 = 0)) as Hscale.
  { intros mbz value Hval H.
    destruct (scale_ok_cases mbz value v Hval H) as [->|(_ & -> & Hle)];
      [left; reflexivity | right].
    pose proof (page_round_spec value). lia. }
  assert (forall k, 0 <= k ->
            match shift_left_long (to_long u) k with
            | Some v0 => scale_ok (char_at (tail endp)) v0
            | None => None
            end = Some v ->
            v = -1 \/ (0 <= v <= LONG_MAX /\ v mod 4096 = 0)) as Hshift.
  { intros k Hk H. unfold shift_left_long in H.
    destruct (to_long u * 2 ^ k <=? LONG_MAX); [|discriminate].
    apply Hscale in H; [exact H|].
    apply Z.mul_nonneg_nonneg; [lia | apply Z.pow_nonneg; lia]. }
  destruct (char_at endp =? 0); [apply Hscale; lia|].
  destruct ((char_at endp =? 107) || (char_at endp =? 75));
    [apply Hshift; lia|].
  destruct ((char_at endp =? 109) || (char_at endp =? 77));
    [apply Hshift; lia|].
  destruct ((char_at endp =? 103) || (char_at endp =? 71));
    [apply Hshift; lia|].
  destruct ((char_at endp =? 116) || (char_at endp =? 84));
    [apply Hshift; lia|].
  intros H; injection H as <-; left; reflexivity.
Qed.

(** X8. Whatever the arguments, a target that [main] goes on with is
    valid: there are one or two arguments, the number of cpus is in
    [[0, LONG_MAX]] and the amount of memory is a whole number of pages in
    [[0, LONG_MAX]]. *)
Theorem main_arguments_target_is_valid (argv : list (list ascii))
    (d : desired_state) :
  main_arguments argv = Target d ->
  (2 <= length argv <= 3)%nat /\
  0 <= cpus d <= LONG_MAX /\
  0 <= membytes d <= LONG_MAX /\ membytes d mod 4096 = 0.
Proof.
  unfold main_arguments.
  destruct argv as [|cmdstr [|memarg rest]]; try discriminate.
  destruct (String.eqb "-h" (c_string memarg)); [discriminate|].
  destruct (Z.gtb_spec (Z.of_nat (length (cmdstr :: memarg :: rest))) 3)
    as [|Hargc]; [discriminate|].
  set (cpuarg := match rest with
                 | arg :: _ => arg
                 | [] => list_ascii_of_string "0"
                 end).
  destruct (Z.ltb_spec (str2ul cpuarg) 0) as [|Hcpus]; [discriminate|].
  destruct (strm2ul memarg) as [m|] eqn:Hmem; [|discriminate].
  destruct (Z.ltb_spec m 0) as [|Hm]; [discriminate|].
  intros H. injection H as <-. cbn [cpus membytes].
  split; [cbn [length] in *; lia|].
  split; [destruct (str2ul_range cpuarg); lia|].
  destruct (strm2ul_cases memarg m Hmem) as [->|[? ?]]; [lia|].
  split; assumption.
Qed.

Lemma main_arguments_target_is_valid_witness :
  main_arguments
    [list_ascii_of_string "wastebin"; list_ascii_of_string "1g";
     list_ascii_of_string "2"] = Target (Desired (2 ^ 30) 2) /\
  (2 <= 3 <= 3)%nat /\ 0 <= 2 <= LONG_MAX /\
  0 <= 2 ^ 30 <= LONG_MAX /\ 2 ^ 30 mod 4096 = 0.
Proof.
  assert (main_arguments
            [list_ascii_of_string "wastebin"; list_ascii_of_string "1g";
             list_ascii_of_string "2"] = Target (Desired (2 ^ 30) 2)) as H
    by (vm_compute; reflexivity).
  split; [exact H|].
  exact (main_arguments_target_is_valid _ _ H).
Defined.

(** X9. [scale_ok] with a zero [mbz] rounds a byte count up to the next
    multiple of the page size, by less than a page; with any other [mbz]
    it gives -1. *)
Theorem scale_ok_rounds_up_to_pages (value : Z) :
  0 <= value <= LONG_MAX - 4095 ->
  (exists r, scale_ok 0 value = Some r /\
             r mod 4096 = 0 /\ value <= r < value + 4096) /\
  forall mbz, mbz <> 0 -> scale_ok mbz value = Some (-1).
Proof.
  intros Hv. split.
  - exists (page_round value). split; [apply scale_ok_rounds; exact Hv|].
    apply page_round_spec.
  - intros mbz Hmbz. unfold scale_ok. apply Z.eqb_neq in Hmbz.
    rewrite Hmbz. reflexivity.
Qed.

Lemma scale_ok_rounds_up_to_pages_witness :
  (exists r, scale_ok 0 4097 = Some r /\
             r mod 4096 = 0 /\ 4097 <= r < 4097 + 4096) /\
  forall mbz, mbz <> 0 -> scale_ok mbz 4097 = Some (-1).
Proof. apply (scale_ok_rounds_up_to_pages 4097). unfold LONG_MAX. lia. Defined.

(** ** What [show_cpu_set] prints *)

Lemma members_from_spec (a : list bool) (idx i : Z) :
  i ∈ members_from idx a <->
  idx <= i /\ a !! Z.to_nat (i - idx) = Some true.
Proof.
  revert idx. induction a as [|b a IH]; intros idx; cbn [members_from].
  - split; [intros H; inversion H | intros [_ H]; discriminate].
  - assert (i ∈ members_from (idx + 1) a <->
            idx < i /\ (b :: a) !! Z.to_nat (i - idx) = Some true) as Hrest.
    { rewrite IH. split; intros [Hle Hget]; (split; [lia|]).
      - replace (Z.to_nat (i - idx)) with (S (Z.to_nat (i - (idx + 1)))) by lia.
        exact Hget.
      - replace (Z.to_nat (i - idx)) with (S (Z.to_nat (i - (idx + 1))))
          in Hget by lia.
        exact Hget. }
    destruct b.
    + rewrite elem_of_cons, Hrest. split.
      * intros [->|[Hlt Hget]]; [|split; [lia | exact Hget]].
        split; [lia|]. rewrite Z.sub_diag. reflexivity.
      * intros [Hle Hget]. destruct (Z.eq_dec i idx) as [->|Hne];
          [left; reflexivity | right; split; [lia | exact Hget]].
    + rewrite Hrest. split.
      * intros [Hlt Hget]. split; [lia | exact Hget].
      * intros [Hle Hget]. split; [|exact Hget].
        destruct (Z.eq_dec i idx) as [->|Hne]; [|lia].
        rewrite Z.sub_diag in Hget. discriminate.
Qed.

Lemma members_from_length (a : list bool) (idx : Z) :
  Z.of_nat (length (members_from idx a)) = count_cpu_set a.
Proof.
  revert idx. induction a as [|b a IH]; intros idx; cbn [members_from].
  - reflexivity.
  - rewrite count_cpu_set_cons. destruct b; cbn [length Z.b2z].
    + rewrite Nat2Z.inj_succ, IH. lia.
    + rewrite IH. lia.
Qed.

Lemma members_from_sorted (a : list bool) (idx : Z) :
  StronglySorted Z.lt (members_from idx a).
Proof.
  revert idx. induction a as [|b a IH]; intros idx; cbn [members_from].
  - constructor.
  - destruct b; [|apply IH].
    constructor; [apply IH|].
    apply Forall_forall. intros i Hi.
    apply members_from_spec in Hi. lia.
Qed.

(** X10. [show_cpu_set] prints the members of the set and nothing else,
    each once and in increasing order; there are as many as
    [count_cpu_set] counts. *)
Theorem show_cpu_set_lists_the_members (syscpuset : string)
    (cpu_states : list bool) (w : world) :
  length cpu_states = Z.to_nat max_cpu_count ->
  exists members,
    show_cpu_set syscpuset cpu_states w =
    Ok tt (logged w [EvPrint Stdout (MsgCpuSet syscpuset members)]) /\
    (forall i, i ∈ members <-> array_get cpu_states i = Some true) /\
    StronglySorted Z.lt members /\
    Z.of_nat (length members) = count_cpu_set cpu_states.
Proof.
  intros Hlen. exists (members_from 0 cpu_states).
  split; [reflexivity|]. split; [|split].
  - intros i. rewrite members_from_spec, array_get_Some, Z.sub_0_r.
    split; [|intros [[? _] ?]; split; assumption].
    intros [Hi Hget]. split; [|exact Hget]. split; [exact Hi|].
    apply lookup_lt_Some in Hget. lia.
  - apply members_from_sorted.
  - apply members_from_length.
Qed.

Lemma show_cpu_set_lists_the_members_witness :
  exists members,
    show_cpu_set "taken" (cpu_set [2; 5]) (initial_world 0) =
    Ok tt (logged (initial_world 0) [EvPrint Stdout (MsgCpuSet "taken" members)]) /\
    (forall i, i ∈ members <-> array_get (cpu_set [2; 5]) i = Some true) /\
    StronglySorted Z.lt members /\
    Z.of_nat (length members) = count_cpu_set (cpu_set [2; 5]).
Proof.
  apply (show_cpu_set_lists_the_members "taken" (cpu_set [2; 5])).
  apply cpu_set_length.
Defined.

(** ** The residency scan *)

Lemma incore_step_eq : incore_step = 16777216.
Proof. reflexivity. Qed.

Lemma count_resident_acc (l : list Z) (acc : Z) :
  acc <= fold_left (fun pages b => if Z.land b 1 =? 0 then pages else pages + 1)
           l acc <= acc + Z.of_nat (length l).
Proof.
  revert acc. induction l as [|b l IH]; intros acc; cbn [fold_left length].
  - lia.
  - destruct (Z.land b 1 =? 0).
    + specialize (IH acc). lia.
    + specialize (IH (acc + 1)). lia.
Qed.

Lemma count_resident_bounds (ic_vec : list Z) (npgs : Z) :
  0 <= npgs -> 0 <= count_resident ic_vec npgs <= npgs.
Proof.
  intros Hn. unfold count_resident.
  pose proof (count_resident_acc (take (Z.to_nat npgs) ic_vec) 0) as H.
  rewrite length_take in H. lia.
Qed.

Lemma incore_scan_covers (mincore : Z -> Z -> mincore_result) (max_size : Z) :
  forall (fuel : nat) (scanp pages : Z),
    scanp <= max_size ->
    (Z.to_nat ((max_size - scanp) / incore_step) + 2 <= fuel)%nat ->
    exists calls pages',
      incore_scan fuel mincore max_size scanp incore_step pages
      = Some (calls, pages') /\
      tiles scanp calls max_size /\
      pages <= pages' <= pages + (max_size - scanp) / 4096.
Proof.
  induction fuel as [|fuel IH]; intros scanp pages Hle Hfuel; [lia|].
  cbn [incore_scan].
  destruct (Z.ltb_spec scanp max_size) as [Hlt|Hge].
  - destruct (Z.gtb_spec (scanp + incore_step) max_size) as [Hclip|Hfull].
    + destruct fuel as [|fuel]; [lia|]. cbn [incore_scan].
      replace (scanp + (max_size - scanp)) with max_size by lia.
      rewrite Z.ltb_irrefl.
      eexists _, _. split; [reflexivity|]. split.
      * cbn [tiles]. repeat split; try lia. intros H. congruence.
      * assert (0 <= (max_size - scanp) / 4096) by (apply Z.div_pos; lia).
        destruct (mincore scanp (max_size - scanp)) as [|ic_vec]; [lia|].
        rewrite Z.shiftr_div_pow2 by lia. change (2 ^ 12) with 4096.
        pose proof (count_resident_bounds ic_vec ((max_size - scanp) / 4096)
                      ltac:(lia)).
        lia.
    + assert ((max_size - scanp) / incore_step
              = (max_size - (scanp + incore_step)) / incore_step + 1) as Hdiv.
      { rewrite <- Z.div_add by (rewrite incore_step_eq; lia).
        f_equal. lia. }
      assert ((max_size - scanp) / 4096
              = (max_size - (scanp + incore_step)) / 4096 + 4096) as Hpg.
      { rewrite <- Z.div_add by lia. f_equal. rewrite incore_step_eq. lia. }
      assert (0 <= (max_size - (scanp + incore_step)) / incore_step) as Hnn
        by (pose proof incore_step_eq; apply Z.div_pos; lia).
      set (pages1 := match mincore scanp incore_step with
                     | MincoreFails => pages
                     | MincoreVec ic_vec =>
                         pages + count_resident ic_vec (Z.shiftr incore_step 12)
                     end).
      assert (pages <= pages1 <= pages + 4096) as Hp1.
      { subst pages1. destruct (mincore scanp incore_step) as [|ic_vec]; [lia|].
        change (Z.shiftr incore_step 12) with 4096.
        pose proof (count_resident_bounds ic_vec 4096 ltac:(lia)). lia. }
      assert (Z.to_nat ((max_size - (scanp + incore_step)) / incore_step) + 2
              <= fuel)%nat as Hfuel'.
      { rewrite Hdiv in Hfuel. rewrite Z2Nat.inj_add in Hfuel by lia.
        change (Z.to_nat 1) with 1%nat in Hfuel. lia. }
      destruct (IH (scanp + incore_step) pages1 Hfull Hfuel')
        as (calls & pages' & Hscan & Htiles & Hpages).
      rewrite Hscan. eexists _, _. split; [reflexivity|]. split.
      * cbn [tiles]. rewrite incore_step_eq in *. repeat split; try lia.
        exact Htiles.
      * lia.
  - assert (scanp = max_size) as -> by lia.
    eexists _, _. split; [reflexivity|]. split; [reflexivity|].
    rewrite Z.sub_diag. change (0 / 4096) with 0. lia.
Qed.

(** X11. The residency scan asks [mincore] about the whole reservation,
    once: its windows follow one another from offset 0 to
    [wastebin_max_size], each of 16 MiB except a shorter last one. *)
Theorem incore_scan_covers_the_reservation
    (mincore : Z -> Z -> mincore_result) (max_size : Z) :
  0 <= max_size ->
  exists calls pages,
    incore_windows mincore max_size = Some (calls, pages) /\
    tiles 0 calls max_size.
Proof.
  intros Hmax. unfold incore_windows.
  destruct (incore_scan_covers mincore max_size
              (S (S (Z.to_nat (max_size / incore_step)))) 0 0 Hmax)
    as (calls & pages & Hscan & Htiles & _).
  { rewrite Z.sub_0_r. lia. }
  exists calls, pages. split; assumption.
Qed.

Lemma incore_scan_covers_the_reservation_witness :
  exists calls pages,
    incore_windows (fun _ _ => MincoreFails) (2 ^ 25 + 4096)
    = Some (calls, pages) /\
    tiles 0 calls (2 ^ 25 + 4096).
Proof.
  apply (incore_scan_covers_the_reservation (fun _ _ => MincoreFails)). lia.
Defined.

(** X12. Whatever [mincore] answers, the number of bytes reported as
    wasted is a whole number of pages between 0 and
    [wastebin_max_size]. *)
Theorem incore_report_is_bounded
    (mincore : Z -> Z -> mincore_result) (max_size : Z)
    (calls : list (Z * Z)) (pages : Z) :
  0 <= max_size ->
  incore_windows mincore max_size = Some (calls, pages) ->
  0 <= now_wasting pages <= max_size /\ now_wasting pages mod 4096 = 0.
Proof.
  intros Hmax H. unfold incore_windows in H.
  destruct (incore_scan_covers mincore max_size
              (S (S (Z.to_nat (max_size / incore_step)))) 0 0 Hmax)
    as (calls' & pages' & Hscan & _ & Hpages).
  { rewrite Z.sub_0_r. lia. }
  rewrite Hscan in H. injection H as _ <-.
  rewrite Z.sub_0_r in Hpages. unfold now_wasting.
  rewrite Z.shiftl_mul_pow2 by lia. change (2 ^ 12) with 4096.
  pose proof (Z.mul_div_le max_size 4096 ltac:(lia)).
  split; [nia | apply Z.mod_mul; lia].
Qed.

Lemma incore_report_is_bounded_witness :
  0 <= now_wasting 2 <= 3 * 4096 /\ now_wasting 2 mod 4096 = 0.
Proof.
  apply (incore_report_is_bounded
           (fun _ _ => MincoreVec [1; 0; 1]) (3 * 4096) [(0, 3 * 4096)] 2);
    [lia | reflexivity].
Defined.

(** ** The inventory *)

Lemma parse_sysfs_cpu_set_world (file : file_read) (a : list bool)
    (w w' : world) (r : list bool * parse_end) :
  parse_sysfs_cpu_set file a w = Ok r w' ->
  regs w' = regs w /\ extends a (fst r) /\
  exists evs, trace w' = trace w ++ evs /\
              Forall (fun e => is_toggle e = false) evs.
Proof.
  unfold parse_sysfs_cpu_set. intros H.
  assert (ret (a, NothingParsed) w = Ok r w' ->
          regs w' = regs w /\ extends a (fst r) /\
          exists evs, trace w' = trace w ++ evs /\
                      Forall (fun e => is_toggle e = false) evs) as Hret.
  { intros H1. injection H1 as <- <-.
    split; [reflexivity|]. split; [apply extends_refl|].
    exists []. split; [symmetry; apply app_nil_r | constructor]. }
  destruct file as [| |buf]; [exact (Hret H) | discriminate |].
  destruct (Nat.eqb (length buf) sizeof_buf); [exact (Hret H)|].
  destruct r as [a' e]. split; [|split].
  - exact (proj1 (parse_loop_world _ _ _ _ _ _ _ H)).
  - exact (parse_loop_extends _ _ _ _ _ _ _ _ H).
  - exact (proj2 (parse_loop_world _ _ _ _ _ _ _ H)).
Qed.

Lemma inventory_cpus_Ok (file : file_read) (w w' : world) (u : unit) :
  inventory_cpus file w = Ok u w' ->
  exists a,
    extends (cpus_online (regs w)) a /\
    regs w' = with_sets (regs w) a (cpus_taken (regs w)) /\
    exists evs, trace w' = trace w ++ evs /\
                Forall (fun e => is_toggle e = false) evs.
Proof.
  unfold inventory_cpus. intros H.
  apply bind_Ok in H as (s & w1 & Hget & H). injection Hget as <- <-.
  apply bind_Ok in H as ([a e] & w1 & Hparse & H).
  unfold bind in H; simpl in H. injection H as _ <-.
  apply parse_sysfs_cpu_set_world in Hparse as (Hregs & Hext & evs & Ht & Hq).
  exists a. split; [exact Hext|]. simpl. rewrite Hregs.
  split; [reflexivity|].
  exists (evs ++ [EvPrint Stdout (MsgCpuSet "online" (members_from 0 a))]).
  split; [rewrite Ht, app_assoc; reflexivity|].
  apply Forall_app. split; [exact Hq | repeat constructor].
Qed.

Lemma inventory_memory_Ok (phys_pages : Z) (mmap_failed : bool)
    (w w' : world) (u : unit) :
  inventory_memory phys_pages mmap_failed w = Ok u w' ->
  0 <= phys_pages /\ phys_pages * 4096 <= LONG_MAX /\ mmap_failed = false /\
  w' = World (State (cpus_online (regs w)) (cpus_taken (regs w))
                (wastebin_cpus_taken (regs w)) (phys_pages * 4096) 0)
         (trace w ++ [EvMincore; EvPrint Stdout MsgNowWasting]).
Proof.
  unfold inventory_memory. intros H.
  apply bind_Ok in H as (u1 & w1 & H1 & H).
  unfold set_wastebin_max_size, bind in H1; simpl in H1. injection H1 as _ <-.
  apply bind_Ok in H as (u2 & w2 & H2 & H).
  destruct (Z.ltb_spec phys_pages 0) as [|Hpos]; [discriminate|].
  injection H2 as _ <-.
  apply bind_Ok in H as (u3 & w3 & H3 & H).
  change (2 ^ 12) with 4096 in H3.
  destruct (Z.leb_spec (phys_pages * 4096) LONG_MAX) as [Hfit|]; [|discriminate].
  unfold set_wastebin_max_size, bind in H3; simpl in H3. injection H3 as _ <-.
  apply bind_Ok in H as (u4 & w4 & H4 & H).
  destruct mmap_failed; [discriminate|]. injection H4 as _ <-.
  unfold bind in H; simpl in H. injection H as _ <-.
  repeat split; try assumption.
  rewrite <- app_assoc. reflexivity.
Qed.

(** X13. When the two inventories return, the daemon's state is
    consistent: the arrays have their size, nothing is taken and the
    counter is 0, nothing is locked, and the reservation has the size of
    physical memory, [phys_pages] pages. No cpu has been toggled. *)
Theorem inventory_gives_a_consistent_state (file : file_read)
    (phys_pages : Z) (mmap_failed : bool) (w0 : world) :
  inventory file phys_pages mmap_failed (initial_world 0) = Ok tt w0 ->
  consistent (regs w0) /\ none_taken (regs w0) /\
  wastebin_cpus_taken (regs w0) = 0 /\ wastebin_memory_taken (regs w0) = 0 /\
  wastebin_max_size (regs w0) = phys_pages * 4096 /\
  Forall (fun e => is_toggle e = false) (trace w0).
Proof.
  unfold inventory. intros H.
  apply bind_Ok in H as (u1 & w1 & Hcpus & Hmem).
  apply inventory_cpus_Ok in Hcpus as (a & [Hlen _] & Hregs & evs & Ht & Hq).
  apply inventory_memory_Ok in Hmem as (Hpos & _ & _ & ->).
  rewrite Hregs, Ht. cbn.
  assert (forall j, array_get no_cpus j <> Some true) as Hnone
    by exact no_cpus_get.
  split; [|split; [exact Hnone|]].
  - split; [split; cbn; [rewrite Hlen|]; apply no_cpus_length|].
    split; [intros i [_ Hi]; exact (Hnone i Hi)|].
    split; [apply count_cpu_set_replicate | cbn; lia].
  - repeat split.
    apply Forall_app. split; [exact Hq | repeat constructor].
Qed.

Lemma inventory_gives_a_consistent_state_witness :
  exists w0,
    inventory (ReadBytes (list_ascii_of_string "0 1 2 3")) 1024 false
      (initial_world 0) = Ok tt w0 /\
    consistent (regs w0) /\ none_taken (regs w0) /\
    wastebin_cpus_taken (regs w0) = 0 /\ wastebin_memory_taken (regs w0) = 0 /\
    wastebin_max_size (regs w0) = 1024 * 4096 /\
    Forall (fun e => is_toggle e = false) (trace w0).
Proof.
  assert (exists w0,
             inventory (ReadBytes (list_ascii_of_string "0 1 2 3")) 1024 false
               (initial_world 0) = Ok tt w0) as [w0 H]
    by (vm_compute; eexists; reflexivity).
  exists w0. split; [exact H|].
  exact (inventory_gives_a_consistent_state _ _ _ _ H).
Defined.

(** ** The managed cpus *)

Lemma is_managed_taken_state (s : state) (cpu : Z) :
  well_sized s -> is_online s cpu ->
  forall i, is_managed (taken_state s cpu) i <-> is_managed s i.
Proof.
  intros [Hon Htk] Hcpu i.
  pose proof (proj1 (array_get_Some _ _ _) Hcpu) as [Hrange _].
  unfold is_managed, is_online, is_taken, taken_state, with_sets.
  cbn [cpus_online cpus_taken].
  destruct (Z.eq_dec cpu i) as [<-|Hne].
  - rewrite !array_get_set_eq by assumption.
    split; [intros _; left; exact Hcpu | intros _; right; reflexivity].
  - rewrite !array_get_set_other by lia. reflexivity.
Qed.

Lemma is_managed_released_state (s : state) (cpu : Z) :
  well_sized s -> is_taken s cpu ->
  forall i, is_managed (released_state s cpu) i <-> is_managed s i.
Proof.
  intros [Hon Htk] Hcpu i.
  pose proof (proj1 (array_get_Some _ _ _) Hcpu) as [Hrange _].
  unfold is_managed, is_online, is_taken, released_state, with_sets.
  cbn [cpus_online cpus_taken].
  destruct (Z.eq_dec cpu i) as [<-|Hne].
  - rewrite !array_get_set_eq by assumption.
    split; [intros _; right; exact Hcpu | intros _; left; reflexivity].
  - rewrite !array_get_set_other by lia. reflexivity.
Qed.

Lemma managed_cpus_kept (env : environment) (w0 : world)
    (targets : list desired_state) (w' : world) :
  well_sized (regs w0) ->
  run_session env targets w0 = Ok tt w' ->
  well_sized (regs w') /\
  forall i, is_managed (regs w') i <-> is_managed (regs w0) i.
Proof.
  intros Hsized Hrun.
  apply (run_session_invariant env
           (fun w => well_sized (regs w) /\
                     forall i, is_managed (regs w) i <-> is_managed (regs w0) i))
    with (targets := targets) (w := w0) (u := tt);
    [| | | | | split; [exact Hsized | reflexivity] | exact Hrun].
  - intros w lo cpu w1 [Hs Hm] (_ & Hon & _ & ->). cbn [regs].
    split; [apply well_sized_taken_state; exact Hs|].
    intros i. rewrite is_managed_taken_state by assumption. apply Hm.
  - intros w ft cpu w1 [Hs Hm] (_ & Htk & _ & ->). cbn [regs].
    split; [apply well_sized_released_state; exact Hs|].
    intros i. rewrite is_managed_released_state by assumption. apply Hm.
  - intros w s m H. exact H.
  - intros w n H. exact H.
  - intros w membytes H. exact H.
Qed.

(** X14. A session never gains or loses a cpu: at its end the cpus that
    are online or taken are those that were online or taken at its start.
    Cpus only move between the two sets. *)
Theorem session_keeps_the_managed_cpus (env : environment) (w0 : world)
    (targets : list desired_state) (w' : world) :
  well_sized (regs w0) ->
  run_session env targets w0 = Ok tt w' ->
  well_sized (regs w') /\
  forall i, is_managed (regs w') i <-> is_managed (regs w0) i.
Proof. exact (managed_cpus_kept env w0 targets w'). Qed.

Lemma session_keeps_the_managed_cpus_witness :
  exists w',
    run_session env_ok [Desired 0 2; Desired 0 1] eight_cpus = Ok tt w' /\
    well_sized (regs w') /\
    forall i, is_managed (regs w') i <-> is_managed (regs eight_cpus) i.
Proof.
  assert (exists w', run_session env_ok [Desired 0 2; Desired 0 1] eight_cpus
                     = Ok tt w') as [w' H]
    by (vm_compute; eexists; reflexivity).
  exists w'. split; [exact H|].
  exact (session_keeps_the_managed_cpus env_ok eight_cpus _ w'
           (proj1 eight_cpus_consistent) H).
Defined.

Lemma bool_lists_equal (a b : list bool) :
  length a = Z.to_nat max_cpu_count -> length b = Z.to_nat max_cpu_count ->
  (forall i, array_get a i = Some true <-> array_get b i = Some true) ->
  a = b.
Proof.
  intros Ha Hb H. apply list_eq. intros k.
  destruct (Nat.lt_ge_cases k (Z.to_nat max_cpu_count)) as [Hlt|Hge].
  - destruct (lookup_lt_is_Some_2 a k ltac:(lia)) as [x Hx].
    destruct (lookup_lt_is_Some_2 b k ltac:(lia)) as [y Hy].
    specialize (H (Z.of_nat k)). rewrite !array_get_Some, Nat2Z.id in H.
    rewrite Hx, Hy in *.
    assert (0 <= Z.of_nat k < max_cpu_count) as Hk by lia.
    destruct x, y; try reflexivity.
    + destruct H as [H _]. destruct (H (conj Hk eq_refl)) as [_ H'].
      discriminate H'.
    + destruct H as [_ H]. destruct (H (conj Hk eq_refl)) as [_ H'].
      discriminate H'.
  - rewrite !lookup_ge_None_2 by lia. reflexivity.
Qed.

Lemma none_taken_count (s : state) :
  count_cpu_set (cpus_taken s) = 0 -> none_taken s.
Proof.
  intros H j Hj. apply array_get_Some in Hj as [_ Hj].
  exact (proj1 (count_cpu_set_zero _) H _ Hj).
Qed.

Lemma online_set_restored (env : environment) (w0 : world)
    (targets : list desired_state) (w' : world) :
  well_sized (regs w0) -> none_taken (regs w0) ->
  run_session env targets w0 = Ok tt w' ->
  count_cpu_set (cpus_taken (regs w')) = 0 ->
  cpus_online (regs w') = cpus_online (regs w0).
Proof.
  intros Hsized Hnone Hrun Hzero.
  destruct (managed_cpus_kept env w0 targets w' Hsized Hrun)
    as [Hsized' Hm].
  apply none_taken_count in Hzero.
  apply bool_lists_equal;
    [exact (proj1 Hsized') | exact (proj1 Hsized) |].
  intros i. specialize (Hm i). unfold is_managed in Hm.
  split; intros H.
  - destruct (proj1 Hm (or_introl H)) as [Hon|Htk];
      [exact Hon | destruct (Hnone i Htk)].
  - destruct (proj2 Hm (or_introl H)) as [Hon|Htk];
      [exact Hon | destruct (Hzero i Htk)].
Qed.

(** X15. Taking and releasing is a round trip: a session that starts with
    nothing taken and ends with nothing taken ends with exactly the cpus
    online that were online at its start. *)
Theorem session_restores_the_online_set (env : environment) (w0 : world)
    (targets : list desired_state) (w' : world) :
  well_sized (regs w0) -> none_taken (regs w0) ->
  run_session env targets w0 = Ok tt w' ->
  count_cpu_set (cpus_taken (regs w')) = 0 ->
  cpus_online (regs w') = cpus_online (regs w0).
Proof. exact (online_set_restored env w0 targets w'). Qed.

Lemma session_restores_the_online_set_witness :
  exists w',
    run_session env_ok [Desired 0 2; Desired 0 0] eight_cpus = Ok tt w' /\
    cpus_online (regs w') = cpus_online (regs eight_cpus).
Proof.
  assert (exists w', run_session env_ok [Desired 0 2; Desired 0 0] eight_cpus
                     = Ok tt w' /\
                     count_cpu_set (cpus_taken (regs w')) = 0) as (w' & H & Hz)
    by (vm_compute; eexists; split; reflexivity).
  exists w'. split; [exact H|].
  exact (session_restores_the_online_set env_ok eight_cpus _ w'
           (proj1 eight_cpus_consistent) (fun j Hj => no_cpus_get j Hj) H Hz).
Defined.

(** ** The registries and the control files *)

Lemma last_toggle_app (cpu : Z) (t1 t2 : list event) (st : option bool) :
  last_toggle cpu (t1 ++ t2) st = last_toggle cpu t2 (last_toggle cpu t1 st).
Proof.
  revert st. induction t1 as [|e t1 IH]; intros st; [reflexivity|].
  destruct e; cbn [app last_toggle]; apply IH.
Qed.

Lemma last_toggle_quiet (cpu : Z) (t : list event) (st : option bool) :
  Forall (fun e => is_toggle e = false) t -> last_toggle cpu t st = st.
Proof.
  intros H. revert st. induction H as [|e t He _ IH]; intros st; [reflexivity|].
  destruct e; try discriminate He; cbn [last_toggle]; apply IH.
Qed.

Lemma registries_follow_toggles (env : environment) (w0 : world)
    (targets : list desired_state) (w' : world) :
  well_sized (regs w0) -> none_taken (regs w0) ->
  Forall (fun e => is_toggle e = false) (trace w0) ->
  run_session env targets w0 = Ok tt w' ->
  forall i,
    (is_taken (regs w') i <-> last_toggle i (trace w') None = Some false) /\
    (last_toggle i (trace w') None = Some true -> is_online (regs w') i).
Proof.
  intros Hsized Hnone Hquiet Hrun.
  apply (run_session_invariant env
           (fun w =>
              well_sized (regs w) /\
              forall i,
                (is_taken (regs w) i <-> last_toggle i (trace w) None = Some false) /\
                (last_toggle i (trace w) None = Some true -> is_online (regs w) i)))
    with (targets := targets) (w := w0) (u := tt); [| | | | | | exact Hrun].
  - intros w lo cpu w1 [[Hon Htk] Hm] (_ & Hcpu & _ & ->).
    cbn [regs trace].
    split; [apply well_sized_taken_state; split; assumption|].
    pose proof (proj1 (array_get_Some _ _ _) Hcpu) as [Hrange _].
    intros i. rewrite last_toggle_app. cbn [last_toggle].
    unfold is_taken, is_online, taken_state, with_sets.
    cbn [cpus_online cpus_taken].
    destruct (Z.eqb_spec cpu i) as [<-|Hne].
    + rewrite array_get_set_eq by assumption.
      split; [split; reflexivity | discriminate].
    + rewrite !array_get_set_other by lia. apply Hm.
  - intros w ft cpu w1 [[Hon Htk] Hm] (_ & Hcpu & _ & ->).
    cbn [regs trace].
    split; [apply well_sized_released_state; split; assumption|].
    pose proof (proj1 (array_get_Some _ _ _) Hcpu) as [Hrange _].
    intros i. rewrite last_toggle_app. cbn [last_toggle].
    unfold is_taken, is_online, released_state, with_sets.
    cbn [cpus_online cpus_taken].
    destruct (Z.eqb_spec cpu i) as [<-|Hne].
    + rewrite !array_get_set_eq by assumption.
      split; [split; discriminate | reflexivity].
    + rewrite !array_get_set_other by lia. apply Hm.
  - intros w s m [Hs Hm]. split; [exact Hs|]. intros i.
    cbn [logged regs trace]. rewrite last_toggle_app. apply Hm.
  - intros w n H. exact H.
  - intros w membytes [Hs Hm]. split; [exact Hs|]. intros i.
    cbn [regs trace]. rewrite last_toggle_app.
    rewrite (last_toggle_quiet i (memory_events _ _)) by apply memory_events_quiet.
    apply Hm.
  - split; [exact Hsized|]. intros i.
    rewrite last_toggle_quiet by exact Hquiet.
    split; [|discriminate].
    split; [intros H; destruct (Hnone i H) | discriminate].
Qed.

(** X16. The registries agree with what the daemon wrote to the control
    files. In a session that starts with nothing taken and no cpu toggled,
    a cpu is in [Taken] exactly when the last write to its control file was
    a '0', and a cpu whose last write was a '1' is online. *)
Theorem registries_match_the_writes (env : environment) (w0 : world)
    (targets : list desired_state) (w' : world) :
  well_sized (regs w0) -> none_taken (regs w0) ->
  Forall (fun e => is_toggle e = false) (trace w0) ->
  run_session env targets w0 = Ok tt w' ->
  forall i,
    (is_taken (regs w') i <-> last_toggle i (trace w') None = Some false) /\
    (last_toggle i (trace w') None = Some true -> is_online (regs w') i).
Proof. exact (registries_follow_toggles env w0 targets w'). Qed.

Lemma registries_match_the_writes_witness :
  exists w',
    run_session env_ok [Desired 0 2; Desired 0 1] eight_cpus = Ok tt w' /\
    forall i,
      (is_taken (regs w') i <-> last_toggle i (trace w') None = Some false) /\
      (last_toggle i (trace w') None = Some true -> is_online (regs w') i).
Proof.
  assert (exists w', run_session env_ok [Desired 0 2; Desired 0 1] eight_cpus
                     = Ok tt w') as [w' H]
    by (vm_compute; eexists; reflexivity).
  exists w'. split; [exact H|].
  exact (registries_match_the_writes env_ok eight_cpus _ w'
           (proj1 eight_cpus_consistent) (fun j Hj => no_cpus_get j Hj)
           ltac:(constructor) H).
Defined.

(** ** The locked extent *)




Lemma locked_within_app (max_size : Z) (t1 t2 : list event) (extent : Z) :
  locked_within max_size (t1 ++ t2) extent =
  match locked_within max_size t1 extent with
  | Some extent' => locked_within max_size t2 extent'
  | None => None
  end.
Proof.
  revert extent. induction t1 as [|e t1 IH]; intros extent; [reflexivity|].
  destruct e; cbn [app locked_within]; try apply IH.
  - destruct (_ && _); [apply IH | reflexivity].
  - destruct (_ && _); [apply IH | reflexivity].
Qed.

Lemma locked_within_memory_events (s : state) (membytes : Z) :
  0 <= wastebin_memory_taken s <= wastebin_max_size s ->
  0 <= membytes <= wastebin_max_size s ->
  locked_within (wastebin_max_size s) (memory_events s membytes)
    (wastebin_memory_taken s)
  = Some membytes.
Proof.
  intros Htaken Hbytes. unfold memory_events.
  destruct (Z.ltb_spec (wastebin_memory_taken s) membytes) as [Hlt|Hge].
  - cbn [app locked_within]. rewrite Z.eqb_refl.
    destruct (Z.leb_spec 0 (membytes - wastebin_memory_taken s)); [|lia].
    destruct (Z.leb_spec (wastebin_memory_taken s
                          + (membytes - wastebin_memory_taken s))
                (wastebin_max_size s)); [|lia].
    cbn [andb]. f_equal. lia.
  - destruct (Z.gtb_spec (wastebin_memory_taken s) membytes) as [Hgt|Hle].
    + cbn [app locked_within].
      replace (membytes + (wastebin_memory_taken s - membytes))
        with (wastebin_memory_taken s) by lia.
      rewrite Z.eqb_refl.
      destruct (Z.leb_spec 0 (wastebin_memory_taken s - membytes)); [|lia].
      destruct (Z.leb_spec 0 membytes); [|lia].
      reflexivity.
    + cbn [app locked_within]. f_equal. lia.
Qed.

Lemma adjust_cpus_ledger (env : environment) (max_size ncpus : Z)
    (w w' : world) :
  0 <= ncpus < 4294967296 -> ledger_ok max_size w ->
  adjust_cpus env ncpus w = Ok tt w' -> ledger_ok max_size w'.
Proof.
  apply (adjust_cpus_invariant env (ledger_ok max_size)).
  - intros w1 lo cpu w2 (H & Hb & Hm) (_ & _ & _ & ->).
    split; [|split; assumption]. cbn [regs trace].
    rewrite locked_within_app, H. reflexivity.
  - intros w1 ft cpu w2 (H & Hb & Hm) (_ & _ & _ & ->).
    split; [|split; assumption]. cbn [regs trace].
    rewrite locked_within_app, H. reflexivity.
  - intros w1 s m (H & Hb & Hm). split; [|split; assumption].
    cbn [logged regs trace]. rewrite locked_within_app, H. reflexivity.
  - intros w1 n H. exact H.
Qed.

Lemma run_session_ledger (env : environment) (max_size : Z)
    (targets : list desired_state) :
  Forall (fun d => 0 <= membytes d <= max_size) targets ->
  forall w w', ledger_ok max_size w ->
               run_session env targets w = Ok tt w' -> ledger_ok max_size w'.
Proof.
  induction 1 as [|d targets Hd _ IH]; intros w w' Hw Hrun.
  - injection Hrun as <-. exact Hw.
  - simpl in Hrun. apply bind_Ok in Hrun as ([] & w1 & Happly & Hrun).
    apply (IH w1 w'); [|exact Hrun].
    apply apply_desired_Ok in Happly as (w2 & Hcpus & Hmem).
    apply (adjust_cpus_ledger env max_size) in Hcpus; [|apply uint_range|].
    + destruct Hcpus as (H & Hb & Hm).
      apply adjust_memory_Ok in Hmem as ->.
      split; [|split; [exact Hd | exact Hm]]. cbn [regs trace].
      rewrite locked_within_app, H, <- Hm.
      apply locked_within_memory_events; rewrite Hm; assumption.
    + destruct Hw as (H & Hb & Hm). split; [|split; assumption].
      unfold announced_target. cbn [logged regs trace].
      rewrite locked_within_app, H. reflexivity.
Qed.

(** X17. The locked pages are always one prefix of the reservation, and
    the ledger says how long it is. In a session whose targets lie in
    [[0, wastebin_max_size]] (a hypothesis: the code checks no target
    against the reservation), every [mlock] starts where the
    locked extent ends and stays inside the reservation, every [munlock]
    gives back the end of the extent and no more, and after them the extent
    ends at [wastebin_memory_taken], which lies in
    [[0, wastebin_max_size]]. *)
Theorem ledger_matches_the_lock_calls (env : environment) (w0 : world)
    (targets : list desired_state) (w' : world) :
  0 <= wastebin_memory_taken (regs w0) <= wastebin_max_size (regs w0) ->
  Forall (fun d => 0 <= membytes d <= wastebin_max_size (regs w0)) targets ->
  locked_within (wastebin_max_size (regs w0)) (trace w0) 0
  = Some (wastebin_memory_taken (regs w0)) ->
  run_session env targets w0 = Ok tt w' ->
  locked_within (wastebin_max_size (regs w0)) (trace w') 0
  = Some (wastebin_memory_taken (regs w')) /\
  0 <= wastebin_memory_taken (regs w') <= wastebin_max_size (regs w0) /\
  wastebin_max_size (regs w') = wastebin_max_size (regs w0).
Proof.
  intros Hb Htargets Hstart Hrun.
  exact (run_session_ledger env _ targets Htargets w0 w'
           (conj Hstart (conj Hb eq_refl)) Hrun).
Qed.

Lemma ledger_matches_the_lock_calls_witness :
  exists w',
    run_session env_ok [Desired 8192 0; Desired 4096 0] eight_cpus = Ok tt w' /\
    locked_within (2 ^ 33) (trace w') 0
    = Some (wastebin_memory_taken (regs w')) /\
    0 <= wastebin_memory_taken (regs w') <= 2 ^ 33 /\
    wastebin_max_size (regs w') = 2 ^ 33.
Proof.
  assert (exists w', run_session env_ok [Desired 8192 0; Desired 4096 0]
                       eight_cpus = Ok tt w') as [w' H]
    by (vm_compute; eexists; reflexivity).
  exists w'. split; [exact H|].
  apply (ledger_matches_the_lock_calls env_ok eight_cpus
           [Desired 8192 0; Desired 4096 0] w').
  - vm_compute. split; discriminate.
  - repeat constructor; vm_compute; discriminate.
  - reflexivity.
  - exact H.
Defined.

(** ** Fatal errors *)

Create HintDb exits.

Lemma exits_diagnosed_bind {A B} (m : M A) (k : A -> M B) :
  exits_diagnosed m -> (forall a, exits_diagnosed (k a)) ->
  exits_diagnosed (bind m k).
Proof.
  intros Hm Hk w status w' H. unfold bind in H.
  destruct (m w) as [a w1|status1 w1|w1|] eqn:Hmw; try discriminate.
  - exact (Hk a w1 status w' H).
  - injection H as <- <-. exact (Hm w status1 w1 Hmw).
Qed.

Lemma exits_diagnosed_ret {A} (a : A) : exits_diagnosed (ret a).
Proof. intros w status w' H. discriminate. Qed.

Lemma exits_diagnosed_get : exits_diagnosed get.
Proof. intros w status w' H. discriminate. Qed.

Lemma exits_diagnosed_put (s : state) : exits_diagnosed (put s).
Proof. intros w status w' H. discriminate. Qed.

Lemma exits_diagnosed_history : exits_diagnosed history.
Proof. intros w status w' H. discriminate. Qed.

Lemma exits_diagnosed_emit (e : event) : exits_diagnosed (emit e).
Proof. intros w status w' H. discriminate. Qed.

Lemma exits_diagnosed_print (s : stream) (m : message) :
  exits_diagnosed (print s m).
Proof. intros w status w' H. discriminate. Qed.

Lemma exits_diagnosed_undefined {A} : exits_diagnosed (@undefined A).
Proof. intros w status w' H. discriminate. Qed.

Lemma exits_diagnosed_out_of_fuel {A} : exits_diagnosed (@out_of_fuel A).
Proof. intros w status w' H. discriminate. Qed.

Lemma exits_diagnosed_perror {A} (m : message) :
  is_diagnostic m ->
  exits_diagnosed (bind (print Stderr m) (fun _ => @exit A EXIT_FAILURE)).
Proof.
  intros Hm w status w' H. injection H as <- <-.
  split; [reflexivity|]. exists (trace w), m. split; [reflexivity | exact Hm].
Qed.

Lemma exits_diagnosed_fail_exit {A} (msg : string) :
  exits_diagnosed (@fail_exit A msg).
Proof. apply exits_diagnosed_perror. exact I. Qed.

#[local] Hint Resolve exits_diagnosed_ret exits_diagnosed_get
  exits_diagnosed_put exits_diagnosed_history exits_diagnosed_emit
  exits_diagnosed_print exits_diagnosed_undefined exits_diagnosed_out_of_fuel
  exits_diagnosed_fail_exit : exits.
#[local] Hint Resolve exits_diagnosed_bind | 2 : exits.
#[local] Hint Extern 1 (exits_diagnosed (bind (print Stderr _) (fun _ => exit _))) =>
  apply exits_diagnosed_perror; exact I : exits.
#[local] Hint Extern 3 (exits_diagnosed (if ?b then _ else _)) =>
  destruct b : exits.
#[local] Hint Extern 3 (exits_diagnosed (match ?x with _ => _ end)) =>
  destruct x : exits.

Section Exits.
Variable env : environment.
Variable pipe : pipe_answers.

Lemma exits_diagnosed_set_cpu_online_state (cpu : Z) (b : bool) :
  exits_diagnosed (set_cpu_online_state env cpu b).
Proof.
  unfold set_cpu_online_state.
  apply exits_diagnosed_bind; [auto with exits | intros t].
  apply exits_diagnosed_bind; [auto with exits | intros _].
  destruct (cpu_toggle env t cpu b) as [|nb]; [auto with exits|].
  destruct (nb mod SIZE_MODULUS <? 1); auto with exits.
Qed.

Lemma exits_diagnosed_scan_down (fuel : nat) (last_online : Z) :
  exits_diagnosed (scan_down fuel last_online).
Proof.
  revert last_online. induction fuel as [|fuel IH]; intros lo; cbn [scan_down];
    [auto with exits|].
  apply exits_diagnosed_bind; [auto with exits | intros s].
  destruct (array_get _ _) as [[|]|]; auto with exits.
Qed.

Lemma exits_diagnosed_scan_up (fuel : nat) (first_taken : Z) :
  exits_diagnosed (scan_up fuel first_taken).
Proof.
  revert first_taken. induction fuel as [|fuel IH]; intros ft; cbn [scan_up];
    [auto with exits|].
  apply exits_diagnosed_bind; [auto with exits | intros s].
  destruct (array_get _ _) as [[|]|]; auto with exits.
Qed.

Lemma exits_diagnosed_take_cpu (cpu : Z) : exits_diagnosed (take_cpu env cpu).
Proof.
  pose proof exits_diagnosed_set_cpu_online_state.
  unfold take_cpu, set_online, set_taken. auto 12 with exits.
Qed.

Lemma exits_diagnosed_release_cpu (cpu : Z) :
  exits_diagnosed (release_cpu env cpu).
Proof.
  pose proof exits_diagnosed_set_cpu_online_state.
  unfold release_cpu, set_online, set_taken. auto 12 with exits.
Qed.

Lemma exits_diagnosed_take_loop (fuel : nat) (ncpus n_taken last_online : Z) :
  exits_diagnosed (take_loop env fuel ncpus n_taken last_online).
Proof.
  revert n_taken last_online.
  induction fuel as [|fuel IH]; intros n lo; [apply exits_diagnosed_out_of_fuel|].
  rewrite take_loop_S.
  pose proof exits_diagnosed_scan_down. pose proof exits_diagnosed_take_cpu.
  destruct (n <? ncpus); [|auto with exits].
  apply exits_diagnosed_bind; [auto with exits | intros lo'].
  apply exits_diagnosed_bind; [destruct (lo' =? 0); auto with exits | intros _].
  apply exits_diagnosed_bind; [auto with exits | intros _]. apply IH.
Qed.

Lemma exits_diagnosed_release_loop (fuel : nat) (ncpus n_taken first_taken : Z) :
  exits_diagnosed (release_loop env fuel ncpus n_taken first_taken).
Proof.
  revert n_taken first_taken.
  induction fuel as [|fuel IH]; intros n ft; [apply exits_diagnosed_out_of_fuel|].
  rewrite release_loop_S.
  pose proof exits_diagnosed_scan_up. pose proof exits_diagnosed_release_cpu.
  destruct (n >? ncpus); [|auto with exits].
  apply exits_diagnosed_bind; [auto with exits | intros ft'].
  apply exits_diagnosed_bind; [auto with exits | intros _]. apply IH.
Qed.

Lemma exits_diagnosed_adjust_cpus (ncpus : Z) :
  exits_diagnosed (adjust_cpus env ncpus).
Proof.
  pose proof exits_diagnosed_take_loop. pose proof exits_diagnosed_release_loop.
  unfold adjust_cpus, set_wastebin_cpus_taken, show_cpu_set.
  apply exits_diagnosed_bind; [auto with exits | intros s].
  apply exits_diagnosed_bind; [destruct (negb _); auto with exits | intros _].
  apply exits_diagnosed_bind; [destruct (negb _); auto with exits | intros _].
  auto 12 with exits.
Qed.

Lemma exits_diagnosed_adjust_memory (membytes : Z) :
  exits_diagnosed (adjust_memory env membytes).
Proof.
  unfold adjust_memory, show_incore_memory, set_wastebin_memory_taken.
  apply exits_diagnosed_bind; [auto with exits | intros s].
  apply exits_diagnosed_bind; [|auto with exits].
  destruct (wastebin_memory_taken s <? membytes).
  - apply exits_diagnosed_bind; [auto with exits | intros _].
    apply exits_diagnosed_bind; [auto with exits | intros t].
    apply exits_diagnosed_bind; [auto with exits | intros _].
    apply exits_diagnosed_bind; [auto with exits | intros _].
    apply exits_diagnosed_bind; [|auto 8 with exits].
    destruct (_ =? 0); [auto with exits|].
    destruct (_ =? EPERM); auto with exits.
  - destruct (wastebin_memory_taken s >? membytes); auto 12 with exits.
Qed.

Lemma exits_diagnosed_apply_desired (d : desired_state) :
  exits_diagnosed (apply_desired env d).
Proof.
  pose proof exits_diagnosed_adjust_cpus. pose proof exits_diagnosed_adjust_memory.
  unfold apply_desired. auto with exits.
Qed.

Lemma exits_diagnosed_poll_until_ready (fuel : nat) (pos : pipe_pos) :
  exits_diagnosed (poll_until_ready pipe fuel pos).
Proof.
  revert pos. induction fuel as [|fuel IH]; intros pos; cbn [poll_until_ready];
    [auto with exits|].
  cbv zeta.
  apply exits_diagnosed_bind; [destruct (_ <? 0); auto with exits | intros _].
  destruct (_ =? 0); auto with exits.
Qed.

Lemma exits_diagnosed_wait_for_message (fuel : nat) (pos : pipe_pos) :
  exits_diagnosed (wait_for_message pipe fuel pos).
Proof.
  revert pos. induction fuel as [|fuel IH]; intros pos;
    [apply exits_diagnosed_out_of_fuel|].
  rewrite wait_for_message_S. cbv zeta.
  pose proof exits_diagnosed_poll_until_ready.
  destruct (_ =? sizeof_desired); [auto with exits|].
  apply exits_diagnosed_bind; [destruct (_ || _); auto 8 with exits | intros _].
  apply exits_diagnosed_bind; [auto with exits | intros pos']. apply IH.
Qed.

Lemma exits_diagnosed_daemon_loop (fuel : nat) (desired : desired_state)
    (pos : pipe_pos) :
  exits_diagnosed (daemon_loop env pipe fuel desired pos).
Proof.
  revert desired pos. induction fuel as [|fuel IH]; intros d pos;
    [apply exits_diagnosed_out_of_fuel|].
  cbn [daemon_loop].
  pose proof exits_diagnosed_apply_desired.
  pose proof exits_diagnosed_wait_for_message.
  apply exits_diagnosed_bind; [auto with exits | intros _].
  apply exits_diagnosed_bind; [auto with exits | intros s].
  destruct (_ && _); [auto with exits|].
  apply exits_diagnosed_bind; [auto with exits | intros r]. apply IH.
Qed.

End Exits.

Lemma exits_diagnosed_parse_loop (fuel : nat) (buf : list ascii) :
  forall (nxt : nat) (a : list bool), exits_diagnosed (parse_loop fuel buf nxt a).
Proof.
  induction fuel as [|fuel IH]; intros nxt a;
    [apply exits_diagnosed_out_of_fuel|].
  rewrite parse_loop_S. cbv zeta.
  assert (forall nxt1 a1,
             exits_diagnosed
               (if more_to_parse buf nxt1 then parse_loop fuel buf nxt1 a1
                else ret (a1, ParsedAll))) as Hcont.
  { intros nxt1 a1. destruct (more_to_parse buf nxt1); auto with exits. }
  assert (forall nxt1, exits_diagnosed (report_invalid buf nxt1 a)) as Hrep.
  { intros nxt1. unfold report_invalid. auto with exits. }
  destruct (sscanf_u_sep (drop nxt buf)) as [| | |u nd|u nd c end_];
    auto with exits.
Qed.

Lemma exits_diagnosed_inventory (file : file_read) (phys_pages : Z)
    (mmap_failed : bool) :
  exits_diagnosed (inventory file phys_pages mmap_failed).
Proof.
  pose proof exits_diagnosed_parse_loop.
  unfold inventory. apply exits_diagnosed_bind; [|intros _].
  - unfold inventory_cpus, set_online, show_cpu_set.
    apply exits_diagnosed_bind; [auto with exits | intros s].
    apply exits_diagnosed_bind; [|auto 8 with exits].
    unfold parse_sysfs_cpu_set. destruct file as [| |buf]; auto with exits.
  - unfold inventory_memory, set_wastebin_max_size, set_wastebin_memory_taken,
      show_incore_memory.
    apply exits_diagnosed_bind; [auto with exits | intros _].
    apply exits_diagnosed_bind; [destruct (_ <? 0); auto with exits | intros _].
    apply exits_diagnosed_bind; [destruct (_ <=? _); auto with exits | intros _].
    apply exits_diagnosed_bind; [destruct mmap_failed; auto with exits | intros _].
    auto 8 with exits.
Qed.

(** X18. The daemon never calls [exit] silently. Whenever its inventory or
    its convergence loop ends the process by a call of [exit], the status
    is [EXIT_FAILURE] and the last thing the process did was to write a
    diagnostic to [stderr]. This is about the calls of [exit] only: a run
    that leaves the defined behaviour of C, like the scan of the take loop
    below index 0, ends with no diagnostic at all and is not covered. *)
Theorem daemon_exits_are_diagnosed (env : environment) (pipe : pipe_answers)
    (file : file_read) (phys_pages : Z) (mmap_failed : bool)
    (fuel : nat) (desired : desired_state) (pos : pipe_pos)
    (w : world) (status : Z) (w' : world) :
  inventory file phys_pages mmap_failed w = Exit status w' \/
  daemon_loop env pipe fuel desired pos w = Exit status w' ->
  status = EXIT_FAILURE /\
  exists t m, trace w' = t ++ [EvPrint Stderr m] /\ is_diagnostic m.
Proof.
  intros [H|H].
  - exact (exits_diagnosed_inventory _ _ _ _ _ _ H).
  - exact (exits_diagnosed_daemon_loop _ _ _ _ _ _ _ _ H).
Qed.

Lemma daemon_exits_are_diagnosed_witness :
  exists w',
    daemon_loop env_ok quiet_then_message 1 (Desired 0 2) (PipePos 0 0) two_cpus
    = Exit EXIT_FAILURE w' /\
    exists t m, trace w' = t ++ [EvPrint Stderr m] /\ is_diagnostic m.
Proof.
  assert (exists w',
             daemon_loop env_ok quiet_then_message 1 (Desired 0 2) (PipePos 0 0)
               two_cpus = Exit EXIT_FAILURE w') as [w' H]
    by (vm_compute; eexists; reflexivity).
  exists w'. split; [exact H|].
  exact (proj2 (daemon_exits_are_diagnosed env_ok quiet_then_message OpenFails 0
                  false 1 (Desired 0 2) (PipePos 0 0) two_cpus EXIT_FAILURE w'
                  (or_intror H))).
Defined.

(** ** A write that fails *)

(** X19. A failed write to a control file goes unnoticed. [write] returns
    -1, which the test [nb < sizeof(digit)] compares as a [size_t]: the
    daemon carries on and records the cpu as taken although nothing was
    written. *)
Theorem failed_toggle_write_goes_unnoticed (env : environment) (cpu : Z)
    (w : world) :
  cpu_toggle env (trace w) cpu false = ToggleWrote (-1) ->
  take_cpu env cpu w =
  Ok tt (World (taken_state (regs w) cpu) (trace w ++ [EvSetCpu cpu false])).
Proof.
  intros H. unfold take_cpu, set_cpu_online_state, bind; simpl.
  rewrite H. reflexivity.
Qed.

Lemma failed_toggle_write_goes_unnoticed_witness :
  take_cpu env_write_fails 7 eight_cpus =
  Ok tt (World (taken_state (regs eight_cpus) 7)
           (trace eight_cpus ++ [EvSetCpu 7 false])).
Proof.
  apply (failed_toggle_write_goes_unnoticed env_write_fails 7 eight_cpus).
  reflexivity.
Defined.

(** ** Waiting for a target *)

Section WaitLoop.
Variable pipe : pipe_answers.

(** X20. When the wait for a target returns, it returns the first
    complete message: the read that delivered it gave the full 16 bytes,
    every read before it since the wait began delivered nothing, and the
    wait changed neither the state nor the trace. *)
Theorem wait_returns_the_first_complete_message (fuel : nat) (pos : pipe_pos)
    (w : world) (d : desired_state) (pos' : pipe_pos) (w' : world) :
  wait_for_message pipe fuel pos w = Ok (d, pos') w' ->
  w' = w /\ (reads pos < reads pos')%nat /\
  read_nb (pipe_read pipe (pred (reads pos'))) = sizeof_desired /\
  d = read_data (pipe_read pipe (pred (reads pos'))) /\
  forall k, (reads pos <= k < pred (reads pos'))%nat ->
            empty_read (pipe_read pipe k).
Proof.
  revert pos w d pos' w'.
  induction fuel as [|fuel IH]; intros pos w d pos' w' H; [discriminate|].
  rewrite wait_for_message_S in H. cbv zeta in H.
  destruct (Z.eqb_spec (read_nb (pipe_read pipe (reads pos))) sizeof_desired)
    as [Hnb|Hnb].
  - injection H as <- <- <-. cbn [reads pred].
    split; [reflexivity|]. split; [lia|]. split; [exact Hnb|].
    split; [reflexivity|]. intros k Hk. lia.
  - apply bind_Ok in H as (u & w1 & Hchk & H).
    destruct (_ || _) eqn:Hbad; [discriminate|]. injection Hchk as _ <-.
    apply orb_false_iff in Hbad as [Hpos Hneg].
    apply bind_Ok in H as (pos2 & w2 & Hpoll & H).
    apply poll_until_ready_Ok in Hpoll as (-> & Hreads & _).
    cbn [reads] in Hreads.
    apply IH in H as (-> & Hlt & Hfull & Hd & Hempty).
    rewrite Hreads in Hlt, Hempty.
    split; [reflexivity|]. split; [lia|]. split; [exact Hfull|].
    split; [exact Hd|]. intros k Hk.
    destruct (Nat.eq_dec k (reads pos)) as [->|Hne]; [|apply Hempty; lia].
    unfold empty_read.
    destruct (Z.gtb_spec (read_nb (pipe_read pipe (reads pos))) 0);
      [discriminate|].
    destruct (Z.ltb_spec (read_nb (pipe_read pipe (reads pos))) 0);
      [|left; lia].
    right. split; [assumption|].
    cbn [andb] in Hneg. apply negb_false_iff, Z.eqb_eq in Hneg. exact Hneg.
Qed.

End WaitLoop.

Lemma wait_returns_the_first_complete_message_witness :
  wait_for_message quiet_then_message 2 (PipePos 0 0) (initial_world 0)
  = Ok (Desired 0 0, PipePos 2 1) (initial_world 0) /\
  (0 < 2)%nat /\
  read_nb (pipe_read quiet_then_message 1) = sizeof_desired /\
  Desired 0 0 = read_data (pipe_read quiet_then_message 1) /\
  forall k, (0 <= k < 1)%nat -> empty_read (pipe_read quiet_then_message k).
Proof.
  assert (wait_for_message quiet_then_message 2 (PipePos 0 0) (initial_world 0)
          = Ok (Desired 0 0, PipePos 2 1) (initial_world 0)) as H
    by reflexivity.
  split; [exact H|].
  exact (proj2 (wait_returns_the_first_complete_message quiet_then_message 2
                  (PipePos 0 0) (initial_world 0) (Desired 0 0) (PipePos 2 1)
                  (initial_world 0) H)).
Defined.

(** ** The end of the daemon *)





Lemma adjust_memory_release (env : environment) (membytes : Z) (w : world) :
  membytes <= wastebin_memory_taken (regs w) ->
  adjust_memory env membytes w =
  Ok tt (World (with_memory_taken (regs w) membytes)
           (trace w ++ memory_events (regs w) membytes)).
Proof.
  intros Hle.
  assert ((wastebin_memory_taken (regs w) <? membytes) = false) as Hlt
    by (apply Z.ltb_ge; exact Hle).
  destruct (adjust_memory env membytes w) as [[] w'| | |] eqn:H.
  - apply adjust_memory_Ok in H. rewrite H. reflexivity.
  - exfalso. revert H. unfold adjust_memory, bind; simpl. rewrite Hlt.
    destruct (_ >? _); discriminate.
  - exfalso. revert H. unfold adjust_memory, bind; simpl. rewrite Hlt.
    destruct (_ >? _); discriminate.
  - exfalso. revert H. unfold adjust_memory, bind; simpl. rewrite Hlt.
    destruct (_ >? _); discriminate.
Qed.

(** X22. The target (0, 0) always ends the daemon in good order. From any
    consistent state, provided the writes to the control files succeed,
    the loop returns after this one target: every cpu that was online or
    taken is online, nothing is taken and nothing is locked. No lock is
    asked for, so [mlock] cannot fail. *)
Theorem zero_target_releases_everything (env : environment)
    (pipe : pipe_answers) (fuel : nat) (pos : pipe_pos) (w : world) :
  (forall t c b, cpu_toggle env t c b = ToggleWrote 1) ->
  consistent (regs w) ->
  exists w',
    daemon_loop env pipe (S fuel) (Desired 0 0) pos w = Ok tt w' /\
    none_taken (regs w') /\
    wastebin_cpus_taken (regs w') = 0 /\ wastebin_memory_taken (regs w') = 0 /\
    forall i, is_online (regs w') i <-> is_managed (regs w) i.
Proof.
  intros Htoggle (Hsized & Hdisj & Hcount & Hmem).
  pose proof (count_cpu_set_bounds (cpus_taken (regs w))) as [Hc0 _].
  pose proof (count_cpu_set_bounds (drop 1 (cpus_online (regs w)))) as [Hs0 _].
  destruct (adjust_cpus_succeeds env 0 (announced_target (Desired 0 0) w)
              Htoggle Hsized Hdisj Hcount) as [w1 Hcpus].
  { unfold spare_cpus. cbn [announced_target logged regs]. lia. }
  assert (apply_desired env (Desired 0 0) w
          = Ok tt (World (with_memory_taken (regs w1) 0)
                     (trace w1 ++ memory_events (regs w1) 0))) as Happly.
  { apply (apply_desired_run env (Desired 0 0) w w1); [exact Hcpus|].
    apply adjust_memory_release. cbn [membytes].
    destruct (adjust_cpus_post env 0 (announced_target (Desired 0 0) w) w1 tt
                ltac:(lia) Hsized Hdisj Hcpus) as (_ & _ & _ & Hledger).
    rewrite Hledger. cbn [announced_target logged regs]. lia. }
  set (w2 := World (with_memory_taken (regs w1) 0)
               (trace w1 ++ memory_events (regs w1) 0)) in *.
  destruct (apply_desired_post env (Desired 0 0) w w2 tt Hsized Hdisj Happly)
    as ((Hs2 & _ & Hcount2) & Hcounter2 & Hmem2 & _).
  change (cpus (Desired 0 0) mod UINT_MODULUS) with 0 in *.
  cbn [membytes] in Hmem2.
  exists w2. split; [|split; [exact (none_taken_count _ Hcount2)|]].
  - cbn [daemon_loop]. unfold bind at 1. rewrite Happly.
    unfold bind at 1, get. rewrite Hcounter2, Hmem2. reflexivity.
  - split; [exact Hcounter2|]. split; [exact Hmem2|].
    assert (run_session env [Desired 0 0] w = Ok tt w2) as Hrun.
    { simpl. unfold bind. rewrite Happly. reflexivity. }
    destruct (managed_cpus_kept env w _ w2 Hsized Hrun) as [_ Hm].
    intros i. rewrite <- Hm. unfold is_managed. split; [left; assumption|].
    intros [Hon|Htk]; [exact Hon|].
    destruct (none_taken_count _ Hcount2 i Htk).
Qed.

Lemma zero_target_releases_everything_witness :
  exists w',
    daemon_loop env_ok quiet_then_message 1 (Desired 0 0) (PipePos 0 0)
      eight_cpus = Ok tt w' /\
    none_taken (regs w') /\
    wastebin_cpus_taken (regs w') = 0 /\ wastebin_memory_taken (regs w') = 0 /\
    forall i, is_online (regs w') i <-> is_managed (regs eight_cpus) i.
Proof.
  apply (zero_target_releases_everything env_ok quiet_then_message 0
           (PipePos 0 0) eight_cpus).
  - reflexivity.
  - exact eight_cpus_consistent.
Defined.

(** ** Asking for more cpus than can be spared *)

(** X24. Asking for more cpus than can be spared ends the daemon, but
    not before it has taken every cpu it could. With cpu 0 online and every
    write succeeding, a target above [|Taken|] plus the number of online
    cpus other than cpu 0 makes [adjust_cpus] write a '0' for each of those
    cpus and then exit with "can't exhaust online cpus": cpu 0 alone is
    left online, and no daemon is left to bring the others back. *)
Theorem exhausting_request_takes_all_but_cpu_zero (env : environment)
    (ncpus : Z) (w : world) :
  (forall t c b, cpu_toggle env t c b = ToggleWrote 1) ->
  well_sized (regs w) ->
  count_cpu_set (cpus_taken (regs w)) = wastebin_cpus_taken (regs w) ->
  is_online (regs w) 0 ->
  count_cpu_set (cpus_taken (regs w)) + spare_cpus (regs w) < ncpus ->
  ncpus < UINT_MODULUS ->
  exists w' evs,
    adjust_cpus env ncpus w = Exit EXIT_FAILURE w' /\
    is_online (regs w') 0 /\
    (forall j, 0 < j -> ~ is_online (regs w') j) /\
    trace w' = trace w ++ EvPrint Stdout (MsgAdjustCpus ncpus) :: evs ++
               [EvPrint Stderr (MsgFailed "can't exhaust online cpus")] /\
    Z.of_nat (length evs) = spare_cpus (regs w) /\
    Forall (fun e => exists cpu, 0 < cpu /\ e = EvSetCpu cpu false) evs.
Proof. exact (adjust_cpus_exhausts env ncpus w). Qed.

Lemma exhausting_request_takes_all_but_cpu_zero_witness :
  exists w' evs,
    adjust_cpus env_ok 2 two_cpus = Exit EXIT_FAILURE w' /\
    is_online (regs w') 0 /\
    (forall j, 0 < j -> ~ is_online (regs w') j) /\
    trace w' = trace two_cpus ++ EvPrint Stdout (MsgAdjustCpus 2) :: evs ++
               [EvPrint Stderr (MsgFailed "can't exhaust online cpus")] /\
    Z.of_nat (length evs) = spare_cpus (regs two_cpus) /\
    Forall (fun e => exists cpu, 0 < cpu /\ e = EvSetCpu cpu false) evs.
Proof.
  apply (exhausting_request_takes_all_but_cpu_zero env_ok 2 two_cpus).
  - reflexivity.
  - exact (proj1 (machine_consistent [0; 1] (2 ^ 33) ltac:(lia))).
  - vm_compute. reflexivity.
  - vm_compute. reflexivity.
  - vm_compute. reflexivity.
  - vm_compute. reflexivity.
Defined.

(** ** No needless toggle *)

Lemma toggles_app (t1 t2 : list event) :
  toggles (t1 ++ t2) = toggles t1 ++ toggles t2.
Proof. apply List.filter_app. Qed.

Lemma length_zero_nil {A} (l : list A) : Z.of_nat (length l) = 0 -> l = [].
Proof. destruct l; [reflexivity | cbn [length]; lia]. Qed.

(** X25. [adjust_cpus] toggles no cpu needlessly. When it returns it has
    written to exactly as many control files as the target differs from the
    number of cpus taken, and all the writes go the same way: '0' when the
    target is above that number, '1' when it is below. *)
Theorem adjust_cpus_toggles_only_the_difference (env : environment)
    (ncpus : Z) (w w' : world) :
  0 <= ncpus < UINT_MODULUS ->
  length (cpus_taken (regs w)) = Z.to_nat max_cpu_count ->
  adjust_cpus env ncpus w = Ok tt w' ->
  exists cs,
    toggles (trace w') =
    toggles (trace w) ++
    map (fun c => EvSetCpu c (ncpus <? count_cpu_set (cpus_taken (regs w)))) cs /\
    Z.of_nat (length cs) = Z.abs (ncpus - count_cpu_set (cpus_taken (regs w))).
Proof.
  intros Hn Hlen H. change UINT_MODULUS with 4294967296 in Hn.
  apply adjust_cpus_Ok in H as (_ & r1 & w1 & r2 & w2 & Htake & Hrel & ->).
  pose proof (count_cpu_set_bounds (cpus_taken (regs w))) as [Hc0 Hc1].
  rewrite Hlen, max_cpu_count_eq in Hc1.
  set (n0 := count_cpu_set (cpus_taken (regs w))) in *.
  assert (toggles (trace (announced ncpus w)) = toggles (trace w)) as Hann.
  { unfold announced. destruct (negb _); [|reflexivity].
    cbn [logged trace]. rewrite toggles_app. apply app_nil_r. }
  destruct (take_loop_rule env
              (fun n _ w1 =>
                 exists cs,
                   toggles (trace w1) =
                   toggles (trace w) ++ map (fun c => EvSetCpu c false) cs /\
                   Z.of_nat (length cs) = n - n0) ncpus)
    with (fuel := loop_fuel) (n := n0) (lo := max_cpu_count)
         (w := announced ncpus w) (r := r1) (w' := w1)
    as (lo' & _ & (cs1 & Ht1 & Hl1) & Hr1);
    [| rewrite max_cpu_count_eq; lia | exact Hc0 | lia | | exact Htake |].
  { intros n lo wa cpu wb (cs & Ht & Hl) _ _ (_ & _ & _ & ->).
    exists (cs ++ [cpu]). cbn [trace].
    rewrite toggles_app, Ht, map_app, length_app, <- app_assoc.
    split; [reflexivity | cbn [length]; lia]. }
  { exists []. rewrite Hann. split; [symmetry; apply app_nil_r | cbn; lia]. }
  destruct (release_loop_rule env
              (fun n _ w2 =>
                 exists cs,
                   toggles (trace w2) =
                   toggles (trace w1) ++ map (fun c => EvSetCpu c true) cs /\
                   Z.of_nat (length cs) = r1 - n /\ n <= r1 /\
                   (ncpus <= n \/ n = r1)) ncpus)
    with (fuel := loop_fuel) (n := r1) (ft := 0) (w := w1) (r := r2) (w' := w2)
    as (ft' & _ & (cs2 & Ht2 & Hl2 & Hle2 & Hor2) & Hr2);
    [| rewrite max_cpu_count_eq; lia | | exact Hrel |].
  { intros n ft wa cpu wb (cs & Ht & Hl & Hle & _) Hgt _ (_ & _ & _ & ->).
    rewrite uint_small by lia.
    exists (cs ++ [cpu]). cbn [trace].
    rewrite toggles_app, Ht, map_app, length_app, <- app_assoc.
    split; [reflexivity|]. split; [cbn [length]; lia|]. split; lia. }
  { exists []. split; [symmetry; apply app_nil_r|]. cbn. lia. }
  cbn [trace]. rewrite toggles_app. cbn [shown_taken toggles List.filter is_toggle].
  rewrite app_nil_r, Ht2, Ht1.
  destruct (Z.ltb_spec ncpus n0) as [Hlt|Hge].
  - assert (r1 = n0) by lia. subst r1.
    rewrite (length_zero_nil cs1) by lia.
    exists cs2. cbn [map]. rewrite app_nil_r. split; [reflexivity | lia].
  - assert (r1 = ncpus) by lia. subst r1.
    rewrite (length_zero_nil cs2) by lia.
    exists cs1. cbn [map]. rewrite app_nil_r. split; [reflexivity | lia].
Qed.

Lemma adjust_cpus_toggles_only_the_difference_witness :
  exists w' cs,
    adjust_cpus env_ok 3 eight_cpus = Ok tt w' /\
    toggles (trace w') =
    toggles (trace eight_cpus) ++
    map (fun c => EvSetCpu c (3 <? count_cpu_set (cpus_taken (regs eight_cpus))))
      cs /\
    Z.of_nat (length cs)
    = Z.abs (3 - count_cpu_set (cpus_taken (regs eight_cpus))).
Proof.
  assert (exists w', adjust_cpus env_ok 3 eight_cpus = Ok tt w') as [w' H]
    by (vm_compute; eexists; reflexivity).
  destruct (adjust_cpus_toggles_only_the_difference env_ok 3 eight_cpus w'
              ltac:(unfold UINT_MODULUS; lia)
              (proj2 (proj1 eight_cpus_consistent)) H) as [cs Hcs].
  exists w', cs. split; [exact H | exact Hcs].
Defined.
